(** * The WalletConnect connector (class [Connector]) as a shallow embedding

    The class is a single-threaded object whose methods mutate private
    fields, push frames to a web socket or to a pre-connect queue, call an
    injected crypto library and read or write one slot of the browser's
    local storage.  The embedding keeps that shape:

    - JavaScript values that travel through the connector untyped (the
      decrypted payloads, the [params] of a request, the peer's meta data)
      are values of the inductive type [Value]; the private fields whose
      TypeScript type is [string] or [boolean] and that are only ever
      assigned from typed sources are [string] and [bool];
    - the methods are computations in a state-and-exception monad [M] over
      a [World]: the connector's fields together with what lies around it
      (storage, the socket's send log, the promises handed out, the console
      and the callbacks of the application);
    - the functions of the JavaScript run time and of the module [utils]
      that the class imports are the fields of an environment [Env];
    - every [await] continues at once: a promise of the crypto library is
      taken as settled when it is awaited, and no other task runs between
      two segments of one async method.  A call of an async method whose
      promise is dropped is [detach]ed: an exception in it is an unhandled
      rejection and does not reach the caller;
    - a callback the application registers is an observer: its call is
      recorded with the payload it received, it does not call back into
      the connector.  The closures the class registers itself are run;
      since a listener can fire listeners, their calls carry a bound
      [fuel] on the nesting, and the properties say how much suffices;
    - numbers are integers (the ids and chain ids the protocol carries),
      and [new WebSocket(url)] always yields a socket. *)

From Stdlib Require Import ZArith String List Ascii DecimalString Lia Bool.
From Stdlib.Strings Require Import Byte.
From stdpp Require Import base option gmap strings list.
Import ListNotations.

Local Open Scope string_scope.
Local Open Scope list_scope.

(** ** JavaScript values *)

Set Warnings "-register-all".

Inductive Value : Type :=
| VUndefined
| VNull
| VBool (b : bool)
| VNum (n : Z)
| VStr (s : string)
| VArr (xs : list Value)
| VObj (props : list (string * Value)).

(** [!!v] *)
Definition truthy (v : Value) : bool :=
  match v with
  | VUndefined | VNull => false
  | VBool b => b
  | VNum n => negb (Z.eqb n 0)
  | VStr s => negb (String.eqb s "")
  | VArr _ | VObj _ => true
  end.

(** [!!o] for a reference that is an object or [null]. *)
Definition present {A} (o : option A) : bool :=
  match o with
  | Some _ => true
  | None => false
  end.

(** [!!s] for a value of static type [string]. *)
Definition nonempty (s : string) : bool := negb (String.eqb s "").

(** [a || b] *)
Definition or_else (a b : Value) : Value := if truthy a then a else b.

Definition ztos (z : Z) : string := NilZero.string_of_int (Z.to_int z).

(** The string a template literal [`${v}`] puts in place of [v]. *)
Fixpoint ToString (v : Value) : string :=
  match v with
  | VUndefined => "undefined"
  | VNull => "null"
  | VBool true => "true"
  | VBool false => "false"
  | VNum n => ztos n
  | VStr s => s
  | VArr xs =>
      (fix join (l : list Value) : string :=
         match l with
         | [] => ""
         | x :: rest =>
             let elt := match x with
                        | VUndefined | VNull => ""
                        | _ => ToString x
                        end in
             match rest with
             | [] => elt
             | _ :: _ => elt +:+ "," +:+ join rest
             end
         end) xs
  | VObj _ => "[object Object]"
  end.

(** Own properties of an object literal, in insertion order. *)
Fixpoint assoc (k : string) (props : list (string * Value)) : option Value :=
  match props with
  | [] => None
  | (k', v) :: rest => if String.eqb k k' then Some v else assoc k rest
  end.

(** [o[k] = v] on the property list: an existing key keeps its place. *)
Fixpoint set_prop (k : string) (v : Value) (props : list (string * Value))
  : list (string * Value) :=
  match props with
  | [] => [(k, v)]
  | (k', v') :: rest =>
      if String.eqb k k' then (k, v) :: rest else (k', v') :: set_prop k v rest
  end.

(** [{ ...base, ...v }]: the own properties of [v] are copied over [base];
    spreading a value without own enumerable string keys copies nothing. *)
Definition spread (base : list (string * Value)) (v : Value)
  : list (string * Value) :=
  match v with
  | VObj props => fold_left (fun acc kv => set_prop (fst kv) (snd kv) acc) props base
  | _ => base
  end.

(** [xs.includes(v)] for an array [xs] of strings: strict equality, so only
    a string value can be found. *)
Definition includes (xs : list string) (v : Value) : bool :=
  match v with
  | VStr s => existsb (String.eqb s) xs
  | _ => false
  end.

(** ** Errors and outcomes *)

Inductive Error : Type :=
| JsError (msg : string)   (* new Error(msg) *)
| TypeError                (* property read of null or undefined, [in] on a primitive *)
| SyntaxError              (* JSON.parse *)
| URIError.                (* decodeURIComponent *)

Inductive Outcome (A : Type) : Type :=
| Ret (a : A)
| Throw (e : Error)
| OutOfFuel.

Arguments Ret {A} a.
Arguments Throw {A} e.
Arguments OutOfFuel {A}.

(** [v[k]] for the property names the class reads ([id], [result],
    [params], [topic], ...): none of them lives on a prototype. *)
Definition get_prop (v : Value) (k : string) : Error + Value :=
  match v with
  | VUndefined | VNull => inl TypeError
  | VObj props => inr (default VUndefined (assoc k props))
  | VStr s => inr (if String.eqb k "length" then VNum (Z.of_nat (String.length s)) else VUndefined)
  | VArr xs => inr (if String.eqb k "length" then VNum (Z.of_nat (length xs)) else VUndefined)
  | VBool _ | VNum _ => inr VUndefined
  end.

(** [v[0]] *)
Definition get_first (v : Value) : Error + Value :=
  match v with
  | VUndefined | VNull => inl TypeError
  | VArr xs => inr (nth 0 xs VUndefined)
  | VObj props => inr (default VUndefined (assoc "0" props))
  | VStr s => inr (match s with
                   | EmptyString => VUndefined
                   | String c _ => VStr (String c EmptyString)
                   end)
  | VBool _ | VNum _ => inr VUndefined
  end.

(** [k in v] for the names the type checks test ([method], [result],
    [event], [bridge]); an array has none of them. *)
Definition in_op (k : string) (v : Value) : Error + bool :=
  match v with
  | VObj props => inr (present (assoc k props))
  | VArr xs => inr (String.eqb k "length")
  | _ => inl TypeError
  end.

(** ** The collaborators of the class *)

Definition ArrayBuffer : Type := list byte.

(** The injected crypto library.  [generateKey] is indexed by the entropy
    the call consumes; [decrypt] answers [VNull] when it cannot open the
    envelope. *)
Record ICryptoLib : Type := {
  generateKey : nat -> ArrayBuffer;
  encrypt : Value -> ArrayBuffer -> Value;
  decrypt : Value -> ArrayBuffer -> Value
}.

Record WebSocket : Type := { url : string }.

(** The closures the class registers with [on], one constructor per
    closure of the source with the variables it captures, and the
    callbacks of the application, which are told apart by a tag. *)
Inductive Callback : Type :=
| CbSessionResponse (errorMsg : string)   (* _subscribeToSessionResponse *)
| CbCallResponse (p : nat)                (* _subscribeToCallResponse: settles promise p *)
| CbWcSessionRequest                      (* _subscribeToInternalEvents *)
| CbWcSessionUpdate
| CbWcExchangeKey
| CbUser (tag : nat).

Record IEventEmitter : Type := { event : string; callback : Callback }.

Inductive PromiseState : Type :=
| Pending
| Resolved (v : Value)
| Rejected (e : Error).

(** What the code that awaits a promise does when it resolves. *)
Inductive Continuation : Type :=
| KReturn      (* the caller of the public method receives the result *)
| KSwapKey.    (* _exchangeKey: this._swapKey() *)

Record Promise : Type := { settled : PromiseState; awaiting : Continuation }.

(** What the surroundings of the connector can observe besides frames. *)
Inductive Obs : Type :=
| OCallback (tag : nat) (payload : Value)   (* an application callback ran *)
| OConsoleError (v : Value)
| OUnhandled (e : Error)                    (* rejection of a dropped promise *)
| OEncrypt (data : Value)                   (* calls of the crypto library *)
| ODecrypt (payload : Value)
| OGenerateKey.

Record Connector : Type := {
  cryptoLib : option ICryptoLib;
  protocol : string;
  version : Z;
  _bridge : string;
  _key : option ArrayBuffer;
  _nextKey : option ArrayBuffer;
  _clientId : string;
  _clientMeta : Value;
  _peerId : Value;
  _peerMeta : Value;
  _handshakeId : Value;
  _handshakeTopic : string;
  _accounts : Value;
  _chainId : Value;
  _socket : option WebSocket;
  _queue : list Value;
  _eventEmitters : list IEventEmitter;
  _connected : bool
}.

Record World : Type := {
  this : Connector;
  storage : option (gmap string string);   (* window.localStorage, if any *)
  websocket : option WebSocket;            (* the socket made by _socketOpen *)
  sent : list string;                      (* arguments of socket.send, oldest first *)
  promises : list Promise;
  console : list Obs;                      (* oldest first *)
  entropy : nat                            (* calls of uuid, payloadId, generateKey so far *)
}.

Definition put_bridge (v : string) (c : Connector) : Connector :=
  {| cryptoLib := cryptoLib c; protocol := protocol c;
     version := version c; _bridge := v; _key := _key c;
     _nextKey := _nextKey c; _clientId := _clientId c;
     _clientMeta := _clientMeta c; _peerId := _peerId c;
     _peerMeta := _peerMeta c; _handshakeId := _handshakeId c;
     _handshakeTopic := _handshakeTopic c; _accounts := _accounts c;
     _chainId := _chainId c; _socket := _socket c; _queue := _queue c;
     _eventEmitters := _eventEmitters c; _connected := _connected c |}.

Definition put_key (v : option ArrayBuffer) (c : Connector) : Connector :=
  {| cryptoLib := cryptoLib c; protocol := protocol c;
     version := version c; _bridge := _bridge c; _key := v;
     _nextKey := _nextKey c; _clientId := _clientId c;
     _clientMeta := _clientMeta c; _peerId := _peerId c;
     _peerMeta := _peerMeta c; _handshakeId := _handshakeId c;
     _handshakeTopic := _handshakeTopic c; _accounts := _accounts c;
     _chainId := _chainId c; _socket := _socket c; _queue := _queue c;
     _eventEmitters := _eventEmitters c; _connected := _connected c |}.

Definition put_nextKey (v : option ArrayBuffer) (c : Connector) : Connector :=
  {| cryptoLib := cryptoLib c; protocol := protocol c;
     version := version c; _bridge := _bridge c; _key := _key c;
     _nextKey := v; _clientId := _clientId c; _clientMeta := _clientMeta c;
     _peerId := _peerId c; _peerMeta := _peerMeta c;
     _handshakeId := _handshakeId c; _handshakeTopic := _handshakeTopic c;
     _accounts := _accounts c; _chainId := _chainId c;
     _socket := _socket c; _queue := _queue c;
     _eventEmitters := _eventEmitters c; _connected := _connected c |}.

Definition put_clientId (v : string) (c : Connector) : Connector :=
  {| cryptoLib := cryptoLib c; protocol := protocol c;
     version := version c; _bridge := _bridge c; _key := _key c;
     _nextKey := _nextKey c; _clientId := v; _clientMeta := _clientMeta c;
     _peerId := _peerId c; _peerMeta := _peerMeta c;
     _handshakeId := _handshakeId c; _handshakeTopic := _handshakeTopic c;
     _accounts := _accounts c; _chainId := _chainId c;
     _socket := _socket c; _queue := _queue c;
     _eventEmitters := _eventEmitters c; _connected := _connected c |}.

Definition put_clientMeta (v : Value) (c : Connector) : Connector :=
  {| cryptoLib := cryptoLib c; protocol := protocol c;
     version := version c; _bridge := _bridge c; _key := _key c;
     _nextKey := _nextKey c; _clientId := _clientId c; _clientMeta := v;
     _peerId := _peerId c; _peerMeta := _peerMeta c;
     _handshakeId := _handshakeId c; _handshakeTopic := _handshakeTopic c;
     _accounts := _accounts c; _chainId := _chainId c;
     _socket := _socket c; _queue := _queue c;
     _eventEmitters := _eventEmitters c; _connected := _connected c |}.

Definition put_peerId (v : Value) (c : Connector) : Connector :=
  {| cryptoLib := cryptoLib c; protocol := protocol c;
     version := version c; _bridge := _bridge c; _key := _key c;
     _nextKey := _nextKey c; _clientId := _clientId c;
     _clientMeta := _clientMeta c; _peerId := v; _peerMeta := _peerMeta c;
     _handshakeId := _handshakeId c; _handshakeTopic := _handshakeTopic c;
     _accounts := _accounts c; _chainId := _chainId c;
     _socket := _socket c; _queue := _queue c;
     _eventEmitters := _eventEmitters c; _connected := _connected c |}.

Definition put_peerMeta (v : Value) (c : Connector) : Connector :=
  {| cryptoLib := cryptoLib c; protocol := protocol c;
     version := version c; _bridge := _bridge c; _key := _key c;
     _nextKey := _nextKey c; _clientId := _clientId c;
     _clientMeta := _clientMeta c; _peerId := _peerId c; _peerMeta := v;
     _handshakeId := _handshakeId c; _handshakeTopic := _handshakeTopic c;
     _accounts := _accounts c; _chainId := _chainId c;
     _socket := _socket c; _queue := _queue c;
     _eventEmitters := _eventEmitters c; _connected := _connected c |}.

Definition put_handshakeId (v : Value) (c : Connector) : Connector :=
  {| cryptoLib := cryptoLib c; protocol := protocol c;
     version := version c; _bridge := _bridge c; _key := _key c;
     _nextKey := _nextKey c; _clientId := _clientId c;
     _clientMeta := _clientMeta c; _peerId := _peerId c;
     _peerMeta := _peerMeta c; _handshakeId := v;
     _handshakeTopic := _handshakeTopic c; _accounts := _accounts c;
     _chainId := _chainId c; _socket := _socket c; _queue := _queue c;
     _eventEmitters := _eventEmitters c; _connected := _connected c |}.

Definition put_handshakeTopic (v : string) (c : Connector) : Connector :=
  {| cryptoLib := cryptoLib c; protocol := protocol c;
     version := version c; _bridge := _bridge c; _key := _key c;
     _nextKey := _nextKey c; _clientId := _clientId c;
     _clientMeta := _clientMeta c; _peerId := _peerId c;
     _peerMeta := _peerMeta c; _handshakeId := _handshakeId c;
     _handshakeTopic := v; _accounts := _accounts c;
     _chainId := _chainId c; _socket := _socket c; _queue := _queue c;
     _eventEmitters := _eventEmitters c; _connected := _connected c |}.

Definition put_accounts (v : Value) (c : Connector) : Connector :=
  {| cryptoLib := cryptoLib c; protocol := protocol c;
     version := version c; _bridge := _bridge c; _key := _key c;
     _nextKey := _nextKey c; _clientId := _clientId c;
     _clientMeta := _clientMeta c; _peerId := _peerId c;
     _peerMeta := _peerMeta c; _handshakeId := _handshakeId c;
     _handshakeTopic := _handshakeTopic c; _accounts := v;
     _chainId := _chainId c; _socket := _socket c; _queue := _queue c;
     _eventEmitters := _eventEmitters c; _connected := _connected c |}.

Definition put_chainId (v : Value) (c : Connector) : Connector :=
  {| cryptoLib := cryptoLib c; protocol := protocol c;
     version := version c; _bridge := _bridge c; _key := _key c;
     _nextKey := _nextKey c; _clientId := _clientId c;
     _clientMeta := _clientMeta c; _peerId := _peerId c;
     _peerMeta := _peerMeta c; _handshakeId := _handshakeId c;
     _handshakeTopic := _handshakeTopic c; _accounts := _accounts c;
     _chainId := v; _socket := _socket c; _queue := _queue c;
     _eventEmitters := _eventEmitters c; _connected := _connected c |}.

Definition put_socket (v : option WebSocket) (c : Connector) : Connector :=
  {| cryptoLib := cryptoLib c; protocol := protocol c;
     version := version c; _bridge := _bridge c; _key := _key c;
     _nextKey := _nextKey c; _clientId := _clientId c;
     _clientMeta := _clientMeta c; _peerId := _peerId c;
     _peerMeta := _peerMeta c; _handshakeId := _handshakeId c;
     _handshakeTopic := _handshakeTopic c; _accounts := _accounts c;
     _chainId := _chainId c; _socket := v; _queue := _queue c;
     _eventEmitters := _eventEmitters c; _connected := _connected c |}.

Definition put_queue (v : list Value) (c : Connector) : Connector :=
  {| cryptoLib := cryptoLib c; protocol := protocol c;
     version := version c; _bridge := _bridge c; _key := _key c;
     _nextKey := _nextKey c; _clientId := _clientId c;
     _clientMeta := _clientMeta c; _peerId := _peerId c;
     _peerMeta := _peerMeta c; _handshakeId := _handshakeId c;
     _handshakeTopic := _handshakeTopic c; _accounts := _accounts c;
     _chainId := _chainId c; _socket := _socket c; _queue := v;
     _eventEmitters := _eventEmitters c; _connected := _connected c |}.

Definition put_eventEmitters (v : list IEventEmitter) (c : Connector) : Connector :=
  {| cryptoLib := cryptoLib c; protocol := protocol c;
     version := version c; _bridge := _bridge c; _key := _key c;
     _nextKey := _nextKey c; _clientId := _clientId c;
     _clientMeta := _clientMeta c; _peerId := _peerId c;
     _peerMeta := _peerMeta c; _handshakeId := _handshakeId c;
     _handshakeTopic := _handshakeTopic c; _accounts := _accounts c;
     _chainId := _chainId c; _socket := _socket c; _queue := _queue c;
     _eventEmitters := v; _connected := _connected c |}.

Definition put_connected (v : bool) (c : Connector) : Connector :=
  {| cryptoLib := cryptoLib c; protocol := protocol c;
     version := version c; _bridge := _bridge c; _key := _key c;
     _nextKey := _nextKey c; _clientId := _clientId c;
     _clientMeta := _clientMeta c; _peerId := _peerId c;
     _peerMeta := _peerMeta c; _handshakeId := _handshakeId c;
     _handshakeTopic := _handshakeTopic c; _accounts := _accounts c;
     _chainId := _chainId c; _socket := _socket c; _queue := _queue c;
     _eventEmitters := _eventEmitters c; _connected := v |}.

Definition with_this (v : Connector) (w : World) : World :=
  {| this := v; storage := storage w; websocket := websocket w;
     sent := sent w; promises := promises w; console := console w;
     entropy := entropy w |}.

Definition with_storage (v : option (gmap string string)) (w : World) : World :=
  {| this := this w; storage := v; websocket := websocket w;
     sent := sent w; promises := promises w; console := console w;
     entropy := entropy w |}.

Definition with_websocket (v : option WebSocket) (w : World) : World :=
  {| this := this w; storage := storage w; websocket := v; sent := sent w;
     promises := promises w; console := console w; entropy := entropy w |}.

Definition with_sent (v : list string) (w : World) : World :=
  {| this := this w; storage := storage w; websocket := websocket w;
     sent := v; promises := promises w; console := console w;
     entropy := entropy w |}.

Definition with_promises (v : list Promise) (w : World) : World :=
  {| this := this w; storage := storage w; websocket := websocket w;
     sent := sent w; promises := v; console := console w;
     entropy := entropy w |}.

Definition with_console (v : list Obs) (w : World) : World :=
  {| this := this w; storage := storage w; websocket := websocket w;
     sent := sent w; promises := promises w; console := v;
     entropy := entropy w |}.

Definition with_entropy (v : nat) (w : World) : World :=
  {| this := this w; storage := storage w; websocket := websocket w;
     sent := sent w; promises := promises w; console := console w;
     entropy := v |}.

(** ** Records of the module [types] *)

Module IParseURIResult.
Record t : Type := {
  protocol : string;
  handshakeTopic : string;
  version : Value;
  bridge : string;
  key : string
}.
End IParseURIResult.

Module IWalletConnectSession.
Record t : Type := {
  connected : bool;
  accounts : Value;
  chainId : Value;
  bridge : string;
  key : string;
  clientId : string;
  clientMeta : Value;
  peerId : Value;
  peerMeta : Value;
  handshakeId : Value;
  handshakeTopic : string
}.
End IWalletConnectSession.

Module IWalletConnectOptions.
Record t : Type := {
  bridge : option string;
  uri : option string;
  session : option IWalletConnectSession.t
}.
End IWalletConnectOptions.

(** ** The environment: run-time functions and the imports from [utils]

    [JSON_stringify] answers [None] where JavaScript answers [undefined];
    [JSON_parse] and [decodeURIComponent] answer [None] where JavaScript
    throws.  [payloadId] and [uuid] are indexed by the entropy they
    consume.  [convertHexToArrayBuffer] is typed on strings but is handed
    whatever the peer sent as [nextKey], hence its domain here. *)
Record Env : Type := {
  JSON_stringify : Value -> option string;
  JSON_parse : string -> option Value;
  encodeURIComponent : string -> string;
  decodeURIComponent : string -> option string;
  convertArrayBufferToHex : ArrayBuffer -> string;
  convertHexToArrayBuffer : Value -> Error + ArrayBuffer;
  getMeta : Value;
  payloadId : nat -> Z;
  uuid : nat -> string;
  parseWalletConnectUri : string -> IParseURIResult.t
}.

(** ** The monad of the methods *)

Definition M (A : Type) : Type := World -> Outcome A * World.

Definition ret {A} (a : A) : M A := fun w => (Ret a, w).

Definition throw {A} (e : Error) : M A := fun w => (Throw e, w).

Definition bind {A B} (m : M A) (f : A -> M B) : M B :=
  fun w =>
    match m w with
    | (Ret a, w') => f a w'
    | (Throw e, w') => (Throw e, w')
    | (OutOfFuel, w') => (OutOfFuel, w')
    end.

Declare Scope conn_scope.
Delimit Scope conn_scope with conn.
Notation "x <- m ;; k" := (bind m (fun x => k))
  (at level 100, m at next level, k at level 200, right associativity) : conn_scope.
Notation "m ;; k" := (bind m (fun _ => k))
  (at level 100, k at level 200, right associativity) : conn_scope.
Local Open Scope conn_scope.

Definition gets {A} (f : World -> A) : M A := fun w => (Ret (f w), w).

Definition modify (f : World -> World) : M unit := fun w => (Ret tt, f w).

(** Read and write a private field of [this]. *)
Definition read {A} (f : Connector -> A) : M A := gets (fun w => f (this w)).

Definition upd (f : Connector -> Connector) : M unit :=
  modify (fun w => with_this (f (this w)) w).

Definition lift {A} (r : Error + A) : M A :=
  match r with
  | inl e => throw e
  | inr a => ret a
  end.

Definition observe (o : Obs) : M unit :=
  modify (fun w => with_console (console w ++ [o]) w).

(** One draw of entropy (a call of [uuid], [payloadId] or [generateKey]). *)
Definition fresh : M nat :=
  fun w => (Ret (entropy w), with_entropy (S (entropy w)) w).

(** A call of an async method whose promise nobody keeps. *)
Definition detach {A} (m : M A) : M unit :=
  fun w =>
    match m w with
    | (Ret _, w') => (Ret tt, w')
    | (Throw e, w') => (Ret tt, with_console (console w' ++ [OUnhandled e]) w')
    | (OutOfFuel, w') => (OutOfFuel, w')
    end.

(** [xs.forEach(f)] *)
Fixpoint forEach {A} (f : A -> M unit) (xs : list A) : M unit :=
  match xs with
  | [] => ret tt
  | x :: rest => f x ;; forEach f rest
  end.

Definition when (b : bool) (m : M unit) : M unit := if b then m else ret tt.

(** ** Type checks *)

Definition isRpcRequest (object : Value) : Error + bool := in_op "method" object.
Definition isRpcResponse (object : Value) : Error + bool := in_op "result" object.
Definition isInternalEvent (object : Value) : Error + bool := in_op "event" object.
Definition isWalletConnectSession (object : Value) : Error + bool := in_op "bridge" object.

Definition storageId : string := "walletconnect".

(** The stored snapshot read at its declared type: a property whose value
    has another type than the interface gives it reads as that type's
    empty value. *)
Definition as_string (v : Value) : string :=
  match v with VStr s => s | _ => "" end.

Definition prop_of (v : Value) (k : string) : Value :=
  match get_prop v k with inr x => x | inl _ => VUndefined end.

Definition as_session (json : Value) : IWalletConnectSession.t :=
  {| IWalletConnectSession.connected := truthy (prop_of json "connected");
     IWalletConnectSession.accounts := prop_of json "accounts";
     IWalletConnectSession.chainId := prop_of json "chainId";
     IWalletConnectSession.bridge := as_string (prop_of json "bridge");
     IWalletConnectSession.key := as_string (prop_of json "key");
     IWalletConnectSession.clientId := as_string (prop_of json "clientId");
     IWalletConnectSession.clientMeta := prop_of json "clientMeta";
     IWalletConnectSession.peerId := prop_of json "peerId";
     IWalletConnectSession.peerMeta := prop_of json "peerMeta";
     IWalletConnectSession.handshakeId := prop_of json "handshakeId";
     IWalletConnectSession.handshakeTopic := as_string (prop_of json "handshakeTopic") |}.

Definition drop_chars (n : nat) (s : string) : string :=
  String.substring n (String.length s - n) s.

(** The promise table. *)
Definition settle (p : nat) (st : PromiseState) (ps : list Promise) : list Promise :=
  match ps !! p with
  | Some pr => <[p := {| settled := st; awaiting := awaiting pr |}]> ps
  | None => ps
  end.

Definition await_with (p : nat) (k : Continuation) (ps : list Promise) : list Promise :=
  match ps !! p with
  | Some pr => <[p := {| settled := settled pr; awaiting := k |}]> ps
  | None => ps
  end.

(** [new Promise(...)]: the new promise's index. *)
Definition new_promise : M nat :=
  fun w => (Ret (length (promises w)),
            with_promises (promises w ++ [{| settled := Pending; awaiting := KReturn |}]) w).

(** ** The class [Connector] *)

Section Connector.

Variable E : Env.

(** [JSON.stringify(v)] where the result is kept as a value, and where it
    is handed to an interface that takes a string. *)
Definition stringify_value (v : Value) : Value :=
  match JSON_stringify E v with
  | Some s => VStr s
  | None => VUndefined
  end.

Definition stringify_string (v : Value) : string :=
  match JSON_stringify E v with
  | Some s => s
  | None => "undefined"
  end.

Definition parse (s : string) : M Value :=
  match JSON_parse E s with
  | Some v => ret v
  | None => throw SyntaxError
  end.

(** *** Setters and getters *)

Definition set_bridge (value : string) : M unit :=
  if negb (nonempty value) then ret tt else upd (put_bridge value).

Definition get_bridge : M string := read _bridge.

Definition set_key (value : string) : M unit :=
  if negb (nonempty value) then ret tt
  else key <- lift (convertHexToArrayBuffer E (VStr value)) ;;
       upd (put_key (Some key)).

Definition get_key : M string :=
  k <- read _key ;;
  match k with
  | Some k => ret (convertArrayBufferToHex E k)
  | None => ret ""
  end.

Definition set_nextKey (value : Value) : M unit :=
  if negb (truthy value) then ret tt
  else nextKey <- lift (convertHexToArrayBuffer E value) ;;
       upd (put_nextKey (Some nextKey)).

Definition get_nextKey : M string :=
  k <- read _nextKey ;;
  match k with
  | Some k => ret (convertArrayBufferToHex E k)
  | None => ret ""
  end.

Definition set_clientId (value : string) : M unit :=
  if negb (nonempty value) then ret tt else upd (put_clientId value).

Definition get_clientId : M string :=
  clientId <- read _clientId ;;
  (if negb (nonempty clientId)
   then n <- fresh ;; upd (put_clientId (uuid E n))
   else ret tt) ;;
  read _clientId.

Definition set_peerId (value : Value) : M unit :=
  if negb (truthy value) then ret tt else upd (put_peerId value).

Definition get_peerId : M Value := read _peerId.

Definition set_clientMeta (value : Value) : M unit := ret tt.

Definition get_clientMeta : M Value :=
  clientMeta <- read _clientMeta ;;
  if negb (truthy clientMeta)
  then upd (put_clientMeta (getMeta E)) ;; ret (getMeta E)
  else ret clientMeta.

Definition set_peerMeta (value : Value) : M unit := upd (put_peerMeta value).

Definition get_peerMeta : M Value := read _peerMeta.

Definition set_handshakeTopic (value : string) : M unit :=
  if negb (nonempty value) then ret tt else upd (put_handshakeTopic value).

Definition get_handshakeTopic : M string := read _handshakeTopic.

Definition set_handshakeId (value : Value) : M unit :=
  if negb (truthy value) then ret tt else upd (put_handshakeId value).

Definition get_handshakeId : M Value := read _handshakeId.

Definition set_chainId (value : Value) : M unit := upd (put_chainId value).

Definition get_chainId : M Value := read _chainId.

Definition set_accounts (value : Value) : M unit := upd (put_accounts value).

Definition get_accounts : M Value := read _accounts.

Definition set_connected (value : bool) : M unit := ret tt.

Definition get_connected : M bool := read _connected.

Definition set_pending (value : bool) : M unit := ret tt.

Definition get_pending : M bool :=
  handshakeTopic <- read _handshakeTopic ;; ret (nonempty handshakeTopic).

(** The value of the getters [connected] and [pending] in a world. *)
Definition connected (w : World) : bool := _connected (this w).

Definition pending (w : World) : bool := nonempty (_handshakeTopic (this w)).

(** *** uri *)

Definition _formatUri : M string :=
  protocol <- read protocol ;;
  handshakeTopic <- get_handshakeTopic ;;
  version <- read version ;;
  b <- get_bridge ;;
  let bridge := encodeURIComponent E b in
  key <- get_key ;;
  ret (protocol +:+ ":" +:+ handshakeTopic +:+ "@" +:+ ztos version
         +:+ "?bridge=" +:+ bridge +:+ "&key=" +:+ key).

Definition _parseUri (uri : string) : M (string * string * string) :=
  let result := parseWalletConnectUri E uri in
  protocol <- read protocol ;;
  if String.eqb (IParseURIResult.protocol result) protocol then
    if negb (nonempty (IParseURIResult.handshakeTopic result)) then
      throw (JsError "Invalid or missing handshakeTopic parameter value")
    else
      let handshakeTopic := IParseURIResult.handshakeTopic result in
      if negb (nonempty (IParseURIResult.bridge result)) then
        throw (JsError "Invalid or missing bridge url parameter value")
      else
        match decodeURIComponent E (IParseURIResult.bridge result) with
        | None => throw URIError
        | Some bridge =>
            if negb (nonempty (IParseURIResult.key result)) then
              throw (JsError "Invalid or missing kkey parameter value")
            else
              let key := IParseURIResult.key result in
              ret (handshakeTopic, bridge, key)
        end
  else throw (JsError "URI format doesn't follow Connector protocol").

Definition get_uri : M string := _formatUri.

Definition set_uri (value : string) : M unit :=
  if negb (nonempty value) then ret tt
  else r <- _parseUri value ;;
       let '(handshakeTopic, bridge, key) := r in
       set_handshakeTopic handshakeTopic ;;
       set_bridge bridge ;;
       set_key key.

(** *** session *)

Definition get_session : M Value :=
  connected <- get_connected ;;
  accounts <- get_accounts ;;
  chainId <- get_chainId ;;
  bridge <- get_bridge ;;
  key <- get_key ;;
  clientId <- get_clientId ;;
  clientMeta <- get_clientMeta ;;
  peerId <- get_peerId ;;
  peerMeta <- get_peerMeta ;;
  handshakeId <- get_handshakeId ;;
  handshakeTopic <- get_handshakeTopic ;;
  ret (VObj [("connected", VBool connected);
             ("accounts", accounts);
             ("chainId", chainId);
             ("bridge", VStr bridge);
             ("key", VStr key);
             ("clientId", VStr clientId);
             ("clientMeta", clientMeta);
             ("peerId", peerId);
             ("peerMeta", peerMeta);
             ("handshakeId", handshakeId);
             ("handshakeTopic", VStr handshakeTopic)]).

Definition set_session (value : IWalletConnectSession.t) : M unit :=
  upd (put_connected (IWalletConnectSession.connected value)) ;;
  set_accounts (IWalletConnectSession.accounts value) ;;
  set_chainId (IWalletConnectSession.chainId value) ;;
  set_bridge (IWalletConnectSession.bridge value) ;;
  set_key (IWalletConnectSession.key value) ;;
  set_clientId (IWalletConnectSession.clientId value) ;;
  set_clientMeta (IWalletConnectSession.clientMeta value) ;;
  set_peerId (IWalletConnectSession.peerId value) ;;
  set_peerMeta (IWalletConnectSession.peerMeta value) ;;
  set_handshakeId (IWalletConnectSession.handshakeId value) ;;
  set_handshakeTopic (IWalletConnectSession.handshakeTopic value).

(** *** storage *)

Definition _getStorageSession : M (option IWalletConnectSession.t) :=
  st <- gets storage ;;
  let local := match st with
               | Some items => items !! storageId
               | None => None
               end in
  match local with
  | Some text =>
      if nonempty text then
        json <- parse text ;;
        ok <- lift (isWalletConnectSession json) ;;
        if (ok : bool) then ret (Some (as_session json)) else ret None
      else ret None
  | None => ret None
  end.

Definition _setStorageSession : M Value :=
  session <- get_session ;;
  let local := stringify_string session in
  modify (fun w => match storage w with
                   | Some items => with_storage (Some (<[storageId := local]> items)) w
                   | None => w
                   end) ;;
  ret session.

Definition _removeStorageSession : M unit :=
  modify (fun w => match storage w with
                   | Some items => with_storage (Some (delete storageId items)) w
                   | None => w
                   end).

(** *** crypto *)

Definition _generateKey : M (option ArrayBuffer) :=
  lib <- read cryptoLib ;;
  match lib with
  | Some lib => n <- fresh ;; observe OGenerateKey ;; ret (Some (generateKey lib n))
  | None => ret None
  end.

Definition _encrypt (data : Value) : M Value :=
  key <- read _key ;;
  lib <- read cryptoLib ;;
  match lib, key with
  | Some lib, Some key => observe (OEncrypt data) ;; ret (encrypt lib data key)
  | _, _ => ret VNull
  end.

Definition _decrypt (payload : Value) : M Value :=
  key <- read _key ;;
  lib <- read cryptoLib ;;
  match lib, key with
  | Some lib, Some key => observe (ODecrypt payload) ;; ret (decrypt lib payload key)
  | _, _ => ret VNull
  end.

(** *** websocket *)

Definition socketMessage (topic : Value) (type : string) (payload : Value) : Value :=
  VObj [("topic", topic); ("type", VStr type); ("payload", payload)].

Definition _socketOpen : M unit :=
  bridge <- get_bridge ;;
  let url := if String.prefix "https" bridge then "wss" +:+ drop_chars 5 bridge
             else if String.prefix "http" bridge then "ws" +:+ drop_chars 4 bridge
             else bridge in
  modify (with_websocket (Some {| url := url |})).

Definition _socketSend (socketMessage : Value) : M unit :=
  socket <- read _socket ;;
  match socket with
  | None => throw (JsError "Missing socket: required for sending message")
  | Some _ =>
      let message := stringify_string socketMessage in
      modify (fun w => with_sent (sent w ++ [message]) w)
  end.

Definition _setToQueue (socketMessage : Value) : M unit :=
  q <- read _queue ;; upd (put_queue (q ++ [socketMessage])).

Definition _dispatchQueue : M unit :=
  queue <- read _queue ;;
  forEach _socketSend queue ;;
  upd (put_queue []).

(** [socket.onopen], for the socket made by [_socketOpen]. *)
Definition socket_onopen : M unit :=
  socket <- gets websocket ;;
  upd (put_socket socket) ;;
  clientId <- get_clientId ;;
  _setToQueue (socketMessage (VStr clientId) "sub" (VStr "")) ;;
  _dispatchQueue.

(** *** JSON-RPC *)

Definition _formatRequest (request : Value) : M Value :=
  n <- fresh ;;
  ret (VObj (spread [("id", VNum (payloadId E n)); ("jsonrpc", VStr "2.0")] request)).

Definition _formatResponse (response : Value) : Value :=
  VObj (spread [("jsonrpc", VStr "2.0")] response).

Definition _sendRequest (request : Value) (_topic : Value) : M unit :=
  callRequest <- _formatRequest request ;;
  encryptionPayload <- _encrypt callRequest ;;
  peerId <- get_peerId ;;
  let topic := or_else _topic peerId in
  let payload := stringify_value encryptionPayload in
  let socketMessage := socketMessage topic "pub" payload in
  socket <- read _socket ;;
  if present socket then _socketSend socketMessage
  else _setToQueue socketMessage.

Definition _sendResponse (response : Value) : M unit :=
  encryptionPayload <- _encrypt response ;;
  topic <- get_peerId ;;
  let payload := stringify_value encryptionPayload in
  let socketMessage := socketMessage topic "pub" payload in
  socket <- read _socket ;;
  if present socket then _socketSend socketMessage
  else _setToQueue socketMessage.

(** [on(event, callback)] as the class itself calls it. *)
Definition on_ (event : string) (callback : Callback) : M unit :=
  es <- read _eventEmitters ;;
  upd (put_eventEmitters (es ++ [{| event := event; callback := callback |}])).

(** [on(event, callback)] called by the application. *)
Definition on (event : string) (tag : nat) : M unit := on_ event (CbUser tag).

Definition _subscribeToSessionRequest : M unit :=
  handshakeTopic <- get_handshakeTopic ;;
  _setToQueue (socketMessage (VStr handshakeTopic) "sub" (VStr "")).

Definition _subscribeToSessionResponse (id : Value) (errorMsg : string) : M unit :=
  on_ ("response:" +:+ ToString id) (CbSessionResponse errorMsg).

Definition _subscribeToCallResponse (id : Value) : M nat :=
  p <- new_promise ;;
  on_ ("response:" +:+ ToString id) (CbCallResponse p) ;;
  ret p.

Definition _subscribeToInternalEvents : M unit :=
  on_ "wc_sessionRequest" CbWcSessionRequest ;;
  on_ "wc_sessionUpdate" CbWcSessionUpdate ;;
  on_ "wc_exchangeKey" CbWcExchangeKey.

Definition _sendSessionRequest (request : Value) (errorMsg : string) (_topic : Value)
  : M unit :=
  detach (_sendRequest request _topic) ;;
  id <- lift (get_prop request "id") ;;
  _subscribeToSessionResponse id errorMsg.

Definition _sendCallRequest (request : Value) : M nat :=
  detach (_sendRequest request VUndefined) ;;
  id <- lift (get_prop request "id") ;;
  _subscribeToCallResponse id.

(** *** keyManager *)

Definition _swapKey : M unit :=
  nextKey <- read _nextKey ;;
  upd (put_key nextKey) ;;
  upd (put_nextKey None) ;;
  _setStorageSession ;;
  ret tt.

Definition _exchangeKey : M unit :=
  k <- _generateKey ;;
  upd (put_nextKey k) ;;
  clientId <- get_clientId ;;
  clientMeta <- get_clientMeta ;;
  nextKey <- get_nextKey ;;
  request <- _formatRequest
    (VObj [("method", VStr "wc_exchangeKey");
           ("params", VArr [VObj [("peerId", VStr clientId);
                                  ("peerMeta", clientMeta);
                                  ("nextKey", VStr nextKey)]])]) ;;
  p <- _sendCallRequest request ;;
  (* await ...; this._swapKey() *)
  modify (fun w => with_promises (await_with p KSwapKey (promises w)) w).

Definition _handleExchangeKeyRequest (payload : Value) : M unit :=
  params <- lift (get_prop payload "params") ;;
  first <- lift (get_first params) ;;
  peerId <- lift (get_prop first "peerId") ;;
  peerMeta <- lift (get_prop first "peerMeta") ;;
  nextKey <- lift (get_prop first "nextKey") ;;
  set_peerId peerId ;;
  set_peerMeta peerMeta ;;
  set_nextKey nextKey ;;
  id <- lift (get_prop payload "id") ;;
  let response := VObj [("id", id); ("jsonrpc", VStr "2.0"); ("result", VBool true)] in
  _sendResponse response ;;
  _swapKey.

(** *** promises of calls *)

Definition resolve (p : nat) (v : Value) : M unit :=
  ps <- gets promises ;;
  match ps !! p with
  | Some {| settled := Pending; awaiting := k |} =>
      modify (fun w => with_promises (settle p (Resolved v) (promises w)) w) ;;
      match k with
      | KSwapKey => _swapKey
      | KReturn => ret tt
      end
  | _ => ret tt
  end.

Definition reject (p : nat) (e : Error) : M unit :=
  ps <- gets promises ;;
  match ps !! p with
  | Some {| settled := Pending; awaiting := k |} =>
      modify (fun w => with_promises (settle p (Rejected e) (promises w)) w) ;;
      match k with
      | KSwapKey => observe (OUnhandled e)   (* catch (error) { throw error } *)
      | KReturn => ret tt
      end
  | _ => ret tt
  end.

(** *** events *)

(** [s === v] for a string [s]. *)
Definition strict_eq_string (s : string) (v : Value) : bool :=
  match v with
  | VStr t => String.eqb s t
  | _ => false
  end.

Definition internalEvent (event : string) (params : Value) : Value :=
  VObj [("event", VStr event); ("params", VArr [params])].

(** [_triggerEvents], with the call of a listener's callback left open. *)
Definition _triggerEvents_with (call : Callback -> Value -> M unit) (payload : Value)
  : M unit :=
  isRequest <- lift (isRpcRequest payload) ;;
  name <- (if (isRequest : bool) then lift (get_prop payload "method")
           else
             isResponse <- lift (isRpcResponse payload) ;;
             if (isResponse : bool) then
               id <- lift (get_prop payload "id") ;;
               ret (VStr ("response:" +:+ ToString id))
             else
               isEvent <- lift (isInternalEvent payload) ;;
               if (isEvent : bool) then lift (get_prop payload "event")
               else ret (VStr "")) ;;
  all <- read _eventEmitters ;;
  let eventEmitters :=
    if truthy name
    then List.filter (fun eventEmitter => strict_eq_string (event eventEmitter) name) all
    else [] in
  let eventEmitters :=
    match eventEmitters with
    | [] => List.filter (fun eventEmitter => String.eqb (event eventEmitter) "call_request") all
    | _ :: _ => eventEmitters
    end in
  forEach (fun eventEmitter => call (callback eventEmitter) payload) eventEmitters.

(** [_handleSessionResponse], over the [_triggerEvents] it calls. *)
Definition _handleSessionResponse_with (_triggerEvents : Value -> M unit)
    (sessionParams : Value) (errorMsg : string) : M unit :=
  approved <- lift (get_prop sessionParams "approved") ;;
  if truthy approved then
    c <- read _connected ;;
    (if negb c then
       upd (put_connected true) ;;
       chainId <- lift (get_prop sessionParams "chainId") ;;
       when (truthy chainId) (set_chainId chainId) ;;
       accounts <- lift (get_prop sessionParams "accounts") ;;
       when (truthy accounts) (set_accounts accounts) ;;
       peerId <- get_peerId ;;
       peerMeta <- get_peerMeta ;;
       chainId <- get_chainId ;;
       accounts <- get_accounts ;;
       _triggerEvents
         (internalEvent "connect"
            (VObj [("peerId", peerId); ("peerMeta", peerMeta);
                   ("chainId", chainId); ("accounts", accounts)]))
     else
       chainId <- lift (get_prop sessionParams "chainId") ;;
       when (truthy chainId) (set_chainId chainId) ;;
       accounts <- lift (get_prop sessionParams "accounts") ;;
       when (truthy accounts) (set_accounts accounts) ;;
       chainId <- get_chainId ;;
       accounts <- get_accounts ;;
       _triggerEvents
         (internalEvent "session_update"
            (VObj [("chainId", chainId); ("accounts", accounts)]))) ;;
    _setStorageSession ;;
    ret tt
  else
    upd (put_connected false) ;;
    m <- lift (get_prop sessionParams "message") ;;
    let message := or_else m (VStr errorMsg) in
    _triggerEvents (internalEvent "disconnect" (VObj [("message", message)])) ;;
    observe (OConsoleError message) ;;
    _removeStorageSession.

(** The call [eventEmitter.callback(null, payload)]: [_triggerEvents] is
    the only caller and passes [null] for [error], so the branches
    [if (error)] of the closures are not taken.  [fuel] bounds the nesting
    of listeners that fire listeners. *)
Fixpoint invoke (fuel : nat) (cb : Callback) (payload : Value) : M unit :=
  match fuel with
  | 0 => fun w => (OutOfFuel, w)
  | S fuel' =>
      let _triggerEvents := _triggerEvents_with (invoke fuel') in
      match cb with
      | CbSessionResponse errorMsg =>
          result <- lift (get_prop payload "result") ;;
          _handleSessionResponse_with _triggerEvents result errorMsg
      | CbCallResponse p =>
          result <- lift (get_prop payload "result") ;;
          if truthy result then resolve p result
          else reject p (JsError "Invalid JSON RPC response format received")
      | CbWcSessionRequest =>
          id <- lift (get_prop payload "id") ;;
          set_handshakeId id ;;
          params <- lift (get_prop payload "params") ;;
          first <- lift (get_first params) ;;
          peerId <- lift (get_prop first "peerId") ;;
          set_peerId peerId ;;
          params <- lift (get_prop payload "params") ;;
          first <- lift (get_first params) ;;
          peerMeta <- lift (get_prop first "peerMeta") ;;
          set_peerMeta peerMeta ;;
          detach _exchangeKey
      | CbWcSessionUpdate =>
          params <- lift (get_prop payload "params") ;;
          first <- lift (get_first params) ;;
          _handleSessionResponse_with _triggerEvents first "Session disconnected"
      | CbWcExchangeKey =>
          detach (_handleExchangeKeyRequest payload)
      | CbUser tag =>
          observe (OCallback tag payload)
      end
  end.

Definition _triggerEvents (fuel : nat) : Value -> M unit :=
  _triggerEvents_with (invoke fuel).

Definition _handleSessionResponse (fuel : nat) : Value -> string -> M unit :=
  _handleSessionResponse_with (_triggerEvents fuel).

(** *** public *)

Definition createSession : M unit :=
  c <- read _connected ;;
  if (c : bool) then throw (JsError "Session currently connected")
  else
    p <- get_pending ;;
    if (p : bool) then ret tt
    else
      k <- _generateKey ;;
      upd (put_key k) ;;
      clientId <- get_clientId ;;
      clientMeta <- get_clientMeta ;;
      request <- _formatRequest
        (VObj [("method", VStr "wc_sessionRequest");
               ("params", VArr [VObj [("peerId", VStr clientId);
                                      ("peerMeta", clientMeta)]])]) ;;
      id <- lift (get_prop request "id") ;;
      set_handshakeId id ;;
      n <- fresh ;;
      set_handshakeTopic (uuid E n) ;;
      handshakeTopic <- get_handshakeTopic ;;
      detach (_sendSessionRequest request "Session update rejected" (VStr handshakeTopic)) ;;
      _setStorageSession ;;
      ret tt.

Definition approveSession (fuel : nat) (sessionStatus : Value) : M unit :=
  c <- read _connected ;;
  if (c : bool) then throw (JsError "Session currently connected")
  else
    chainId <- lift (get_prop sessionStatus "chainId") ;;
    set_chainId chainId ;;
    accounts <- lift (get_prop sessionStatus "accounts") ;;
    set_accounts accounts ;;
    chainId <- get_chainId ;;
    accounts <- get_accounts ;;
    let sessionParams := VObj [("approved", VBool true); ("chainId", chainId);
                               ("accounts", accounts); ("message", VNull)] in
    handshakeId <- get_handshakeId ;;
    let response := VObj [("id", handshakeId); ("jsonrpc", VStr "2.0");
                          ("result", sessionParams)] in
    detach (_sendResponse response) ;;
    upd (put_connected true) ;;
    peerId <- get_peerId ;;
    peerMeta <- get_peerMeta ;;
    chainId <- get_chainId ;;
    accounts <- get_accounts ;;
    _triggerEvents fuel
      (internalEvent "connect"
         (VObj [("peerId", peerId); ("peerMeta", peerMeta);
                ("chainId", chainId); ("accounts", accounts)])) ;;
    _setStorageSession ;;
    ret tt.

(** [sessionError ? sessionError.message : null] *)
Definition message_of (sessionError : Value) : M Value :=
  if truthy sessionError then lift (get_prop sessionError "message") else ret VNull.

Definition rejectSession (fuel : nat) (sessionError : Value) : M unit :=
  c <- read _connected ;;
  if (c : bool) then throw (JsError "Session currently connected")
  else
    message <- message_of sessionError ;;
    let sessionParams := VObj [("approved", VBool false); ("chainId", VNull);
                               ("accounts", VNull); ("message", message)] in
    handshakeId <- get_handshakeId ;;
    let response := VObj [("id", handshakeId); ("jsonrpc", VStr "2.0");
                          ("result", sessionParams)] in
    detach (_sendResponse response) ;;
    upd (put_connected false) ;;
    _triggerEvents fuel (internalEvent "disconnect" (VObj [("message", message)])) ;;
    _removeStorageSession.

Definition updateSession (fuel : nat) (sessionStatus : Value) : M unit :=
  c <- read _connected ;;
  if negb c then throw (JsError "Session currently disconnected")
  else
    chainId <- lift (get_prop sessionStatus "chainId") ;;
    set_chainId chainId ;;
    accounts <- lift (get_prop sessionStatus "accounts") ;;
    set_accounts accounts ;;
    chainId <- get_chainId ;;
    accounts <- get_accounts ;;
    let sessionParams := VObj [("approved", VBool true); ("chainId", chainId);
                               ("accounts", accounts); ("message", VNull)] in
    request <- _formatRequest
      (VObj [("method", VStr "wc_sessionUpdate"); ("params", VArr [sessionParams])]) ;;
    detach (_sendSessionRequest request "Session update rejected" VUndefined) ;;
    chainId <- get_chainId ;;
    accounts <- get_accounts ;;
    _triggerEvents fuel
      (internalEvent "session_update"
         (VObj [("chainId", chainId); ("accounts", accounts)])) ;;
    _setStorageSession ;;
    ret tt.

Definition killSession (fuel : nat) (sessionError : Value) : M unit :=
  c <- read _connected ;;
  if negb c then throw (JsError "Session currently disconnected")
  else
    message <- message_of sessionError ;;
    let sessionParams := VObj [("approved", VBool false); ("chainId", VNull);
                               ("accounts", VNull); ("message", message)] in
    request <- _formatRequest
      (VObj [("method", VStr "wc_sessionUpdate"); ("params", VArr [sessionParams])]) ;;
    detach (_sendSessionRequest request "Session kill rejected" VUndefined) ;;
    upd (put_connected false) ;;
    _triggerEvents fuel (internalEvent "disconnect" (VObj [("message", message)])) ;;
    _removeStorageSession.

(** The three calls answer the promise of [_sendCallRequest], which the
    caller awaits. *)
Definition sendTransaction (tx : Value) : M nat :=
  c <- read _connected ;;
  if negb c then throw (JsError "Session currently disconnected")
  else
    request <- _formatRequest
      (VObj [("method", VStr "eth_sendTransaction"); ("params", VArr [tx])]) ;;
    _sendCallRequest request.

Definition signMessage (params : Value) : M nat :=
  c <- read _connected ;;
  if negb c then throw (JsError "Session currently disconnected")
  else
    request <- _formatRequest (VObj [("method", VStr "eth_sign"); ("params", params)]) ;;
    _sendCallRequest request.

Definition signTypedData (params : Value) : M nat :=
  c <- read _connected ;;
  if negb c then throw (JsError "Session currently disconnected")
  else
    request <- _formatRequest
      (VObj [("method", VStr "eth_signTypedData"); ("params", params)]) ;;
    _sendCallRequest request.

Definition approveRequest (response : Value) : M unit :=
  let formattedResponse := _formatResponse response in
  detach (_sendResponse formattedResponse).

Definition rejectRequest (response : Value) : M unit :=
  let formattedResponse := _formatResponse response in
  detach (_sendResponse formattedResponse).

(** *** receive *)

(** [socket.onmessage]: [_socketReceive(event)] with [event.data = data]. *)
Definition _socketReceive (fuel : nat) (data : string) : M unit :=
  socketMessage <- parse data ;;
  clientId <- get_clientId ;;
  handshakeTopic <- get_handshakeTopic ;;
  let activeTopics := [clientId; handshakeTopic] in
  topic <- lift (get_prop socketMessage "topic") ;;
  if negb (includes activeTopics topic) then ret tt
  else
    payload <- lift (get_prop socketMessage "payload") ;;
    encryptionPayload <- parse (ToString payload) ;;
    payload <- _decrypt encryptionPayload ;;
    if truthy payload then _triggerEvents fuel payload else ret tt.

(** *** constructor *)

Definition new_Connector (cryptoLib : option ICryptoLib) : Connector :=
  {| cryptoLib := cryptoLib; protocol := "wc"; version := 1;
     _bridge := ""; _key := None; _nextKey := None;
     _clientId := ""; _clientMeta := VNull; _peerId := VStr ""; _peerMeta := VNull;
     _handshakeId := VNum 0; _handshakeTopic := ""; _accounts := VArr [];
     _chainId := VNum 0; _socket := None; _queue := []; _eventEmitters := [];
     _connected := false |}.

Definition truthy_string (o : option string) : bool :=
  match o with Some s => nonempty s | None => false end.

Definition constructor (cryptoLib : option ICryptoLib) (opts : IWalletConnectOptions.t)
    (clientMeta : Value) : M unit :=
  modify (with_this (new_Connector cryptoLib)) ;;
  when (truthy clientMeta) (set_clientMeta clientMeta) ;;
  if negb (truthy_string (IWalletConnectOptions.bridge opts))
     && negb (truthy_string (IWalletConnectOptions.uri opts))
     && negb (present (IWalletConnectOptions.session opts))
  then throw (JsError "Missing one of two required parameters: bridge / uri / session")
  else
    when (truthy_string (IWalletConnectOptions.bridge opts))
         (set_bridge (default "" (IWalletConnectOptions.bridge opts))) ;;
    when (truthy_string (IWalletConnectOptions.uri opts))
         (set_uri (default "" (IWalletConnectOptions.uri opts)) ;;
          _subscribeToSessionRequest) ;;
    session <- match IWalletConnectOptions.session opts with
               | Some s => ret (Some s)
               | None => _getStorageSession
               end ;;
    match session with
    | Some s => set_session s ;; detach _exchangeKey
    | None => ret tt
    end ;;
    handshakeId <- get_handshakeId ;;
    when (truthy handshakeId)
         (_subscribeToSessionResponse handshakeId "Session request rejected") ;;
    _subscribeToInternalEvents ;;
    _socketOpen.

End Connector.

(** ** A concrete environment

    Executable stand-ins for the run time, for [utils] and for the crypto
    library, on which the connector can be run: JSON restricted to integer
    numbers, percent-coding of bytes, hexadecimal keys, a counter for
    [payloadId] and [uuid], and a crypto library that only tags the
    plaintext with the key. *)

Module Concrete.

Definition quote : ascii := "034"%char.
Definition backslash : ascii := "092"%char.

Definition str1 (c : ascii) : string := String c EmptyString.

Fixpoint join (sep : string) (l : list string) : string :=
  match l with
  | [] => ""
  | [x] => x
  | x :: rest => x +:+ sep +:+ join sep rest
  end.

Definition hex_digit (n : nat) : ascii :=
  nth n ["0"; "1"; "2"; "3"; "4"; "5"; "6"; "7"; "8"; "9"; "a"; "b"; "c"; "d"; "e"; "f"]%char "0"%char.

Definition hex_value (c : ascii) : option nat :=
  let n := nat_of_ascii c in
  if (48 <=? n)%nat && (n <=? 57)%nat then Some (n - 48)%nat
  else if (97 <=? n)%nat && (n <=? 102)%nat then Some (n - 87)%nat
  else if (65 <=? n)%nat && (n <=? 70)%nat then Some (n - 55)%nat
  else None.

Definition hex2 (n : nat) : string :=
  String (hex_digit (n / 16)%nat) (String (hex_digit (n mod 16)%nat) EmptyString).

(** *** JSON *)

Fixpoint escape (s : string) : string :=
  match s with
  | EmptyString => EmptyString
  | String c rest =>
      let n := nat_of_ascii c in
      if Ascii.eqb c quote then String backslash (String quote (escape rest))
      else if Ascii.eqb c backslash then String backslash (String backslash (escape rest))
      else if (n =? 10)%nat then String backslash (String "n" (escape rest))
      else if (n =? 13)%nat then String backslash (String "r" (escape rest))
      else if (n =? 9)%nat then String backslash (String "t" (escape rest))
      else if (n =? 8)%nat then String backslash (String "b" (escape rest))
      else if (n =? 12)%nat then String backslash (String "f" (escape rest))
      else if (n <? 32)%nat then String backslash ("u00" +:+ hex2 n +:+ escape rest)
      else String c (escape rest)
  end.

Definition quoted (s : string) : string := str1 quote +:+ escape s +:+ str1 quote.

Fixpoint stringify (v : Value) : option string :=
  match v with
  | VUndefined => None
  | VNull => Some "null"
  | VBool true => Some "true"
  | VBool false => Some "false"
  | VNum n => Some (ztos n)
  | VStr s => Some (quoted s)
  | VArr xs =>
      Some ("[" +:+ join "," ((fix elements (l : list Value) : list string :=
                                 match l with
                                 | [] => []
                                 | x :: rest => default "null" (stringify x) :: elements rest
                                 end) xs) +:+ "]")
  | VObj props =>
      Some ("{" +:+ join "," ((fix members (l : list (string * Value)) : list string :=
                                 match l with
                                 | [] => []
                                 | (k, x) :: rest =>
                                     match stringify x with
                                     | Some s => (quoted k +:+ ":" +:+ s) :: members rest
                                     | None => members rest
                                     end
                                 end) props) +:+ "}")
  end.

Definition is_space (c : ascii) : bool :=
  let n := nat_of_ascii c in (n =? 32)%nat || (n =? 9)%nat || (n =? 10)%nat || (n =? 13)%nat.

Definition is_digit (c : ascii) : bool :=
  let n := nat_of_ascii c in (48 <=? n)%nat && (n <=? 57)%nat.

Fixpoint skip_ws (s : string) : string :=
  match s with
  | String c rest => if is_space c then skip_ws rest else s
  | EmptyString => s
  end.

Fixpoint take_digits (s : string) : string * string :=
  match s with
  | String c rest =>
      if is_digit c then let (d, r) := take_digits rest in (String c d, r)
      else (EmptyString, s)
  | EmptyString => (EmptyString, EmptyString)
  end.

Definition digits_value (d : string) : option Z :=
  match NilEmpty.uint_of_string d with
  | Some u => Some (Z.of_N (N.of_uint u))
  | None => None
  end.

(** The text of a string literal after its opening quote. *)
Fixpoint parse_chars (s : string) : option (string * string) :=
  match s with
  | EmptyString => None
  | String c rest =>
      if Ascii.eqb c quote then Some (EmptyString, rest)
      else if Ascii.eqb c backslash then
        match rest with
        | String e rest' =>
            let plain (x : ascii) :=
              match parse_chars rest' with
              | Some (t, r) => Some (String x t, r)
              | None => None
              end in
            if Ascii.eqb e quote then plain quote
            else if Ascii.eqb e backslash then plain backslash
            else if Ascii.eqb e "/" then plain "/"%char
            else if Ascii.eqb e "n" then plain (ascii_of_nat 10)
            else if Ascii.eqb e "r" then plain (ascii_of_nat 13)
            else if Ascii.eqb e "t" then plain (ascii_of_nat 9)
            else if Ascii.eqb e "b" then plain (ascii_of_nat 8)
            else if Ascii.eqb e "f" then plain (ascii_of_nat 12)
            else None
        | EmptyString => None
        end
      else
        match parse_chars rest with
        | Some (t, r) => Some (String c t, r)
        | None => None
        end
  end.

Definition literal (word : string) (v : Value) (s : string) : option (Value * string) :=
  if String.prefix word s
  then Some (v, String.substring (String.length word) (String.length s - String.length word) s)
  else None.

Fixpoint parse_value (fuel : nat) (s : string) : option (Value * string) :=
  match fuel with
  | 0 => None
  | S fuel' =>
      match skip_ws s with
      | EmptyString => None
      | String c rest =>
          if Ascii.eqb c "n" then literal "null" VNull (String c rest)
          else if Ascii.eqb c "t" then literal "true" (VBool true) (String c rest)
          else if Ascii.eqb c "f" then literal "false" (VBool false) (String c rest)
          else if Ascii.eqb c quote then
            match parse_chars rest with
            | Some (t, r) => Some (VStr t, r)
            | None => None
            end
          else if Ascii.eqb c "[" then
            match skip_ws rest with
            | String "]" r => Some (VArr [], r)
            | _ => match parse_elements fuel' rest with
                   | Some (xs, r) => Some (VArr xs, r)
                   | None => None
                   end
            end
          else if Ascii.eqb c "{" then
            match skip_ws rest with
            | String "}" r => Some (VObj [], r)
            | _ => match parse_members fuel' [] rest with
                   | Some (ps, r) => Some (VObj ps, r)
                   | None => None
                   end
            end
          else if Ascii.eqb c "-" then
            let (d, r) := take_digits rest in
            match digits_value d with
            | Some n => Some (VNum (- n), r)
            | None => None
            end
          else if is_digit c then
            let (d, r) := take_digits (String c rest) in
            match digits_value d with
            | Some n => Some (VNum n, r)
            | None => None
            end
          else None
      end
  end
with parse_elements (fuel : nat) (s : string) : option (list Value * string) :=
  match fuel with
  | 0 => None
  | S fuel' =>
      match parse_value fuel' s with
      | Some (x, r) =>
          match skip_ws r with
          | String "," r' =>
              match parse_elements fuel' r' with
              | Some (xs, r'') => Some (x :: xs, r'')
              | None => None
              end
          | String "]" r' => Some ([x], r')
          | _ => None
          end
      | None => None
      end
  end
with parse_members (fuel : nat) (acc : list (string * Value)) (s : string)
  : option (list (string * Value) * string) :=
  match fuel with
  | 0 => None
  | S fuel' =>
      match skip_ws s with
      | String c rest =>
          if Ascii.eqb c quote then
            match parse_chars rest with
            | Some (k, r) =>
                match skip_ws r with
                | String ":" r1 =>
                    match parse_value fuel' r1 with
                    | Some (x, r2) =>
                        match skip_ws r2 with
                        | String "," r3 => parse_members fuel' (set_prop k x acc) r3
                        | String "}" r3 => Some (set_prop k x acc, r3)
                        | _ => None
                        end
                    | None => None
                    end
                | _ => None
                end
            | None => None
            end
          else None
      | EmptyString => None
      end
  end.

Definition parse_json (s : string) : option Value :=
  match parse_value (S (String.length s)) s with
  | Some (v, r) => match skip_ws r with
                   | EmptyString => Some v
                   | _ => None
                   end
  | None => None
  end.

(** *** percent-coding *)

Definition hex_digit_upper (n : nat) : ascii :=
  nth n ["0"; "1"; "2"; "3"; "4"; "5"; "6"; "7"; "8"; "9"; "A"; "B"; "C"; "D"; "E"; "F"]%char "0"%char.

Definition unreserved (c : ascii) : bool :=
  let n := nat_of_ascii c in
  ((48 <=? n)%nat && (n <=? 57)%nat) || ((65 <=? n)%nat && (n <=? 90)%nat)
  || ((97 <=? n)%nat && (n <=? 122)%nat)
  || existsb (Ascii.eqb c) ["-"; "_"; "."; "!"; "~"; "*"; "'"; "("; ")"]%char.

Fixpoint encodeURIComponent (s : string) : string :=
  match s with
  | EmptyString => EmptyString
  | String c rest =>
      if unreserved c then String c (encodeURIComponent rest)
      else
        let n := nat_of_ascii c in
        String "%" (String (hex_digit_upper (n / 16)%nat)
                      (String (hex_digit_upper (n mod 16)%nat) (encodeURIComponent rest)))
  end.

Fixpoint decodeURIComponent (s : string) : option string :=
  match s with
  | EmptyString => Some EmptyString
  | String c rest =>
      if Ascii.eqb c "%" then
        match rest with
        | String a (String b rest') =>
            match hex_value a, hex_value b, decodeURIComponent rest' with
            | Some x, Some y, Some t => Some (String (ascii_of_nat (16 * x + y)%nat) t)
            | _, _, _ => None
            end
        | _ => None
        end
      else
        match decodeURIComponent rest with
        | Some t => Some (String c t)
        | None => None
        end
  end.

(** *** keys as hexadecimal text *)

(** Modelled from the spec: [convertArrayBufferToHex] of the module
    [utils], which is not among the sources.  The spec has keys as raw
    bytes inside and as hex at the boundary: two lower-case digits a byte. *)
Fixpoint convertArrayBufferToHex (b : ArrayBuffer) : string :=
  match b with
  | [] => EmptyString
  | x :: rest => hex2 (Byte.to_nat x) +:+ convertArrayBufferToHex rest
  end.

Fixpoint bytes_of_hex (s : string) : option ArrayBuffer :=
  match s with
  | EmptyString => Some []
  | String a (String b rest) =>
      match hex_value a, hex_value b, bytes_of_hex rest with
      | Some x, Some y, Some t =>
          match Byte.of_nat (16 * x + y)%nat with
          | Some byte => Some (byte :: t)
          | None => None
          end
      | _, _, _ => None
      end
  | String _ EmptyString => None
  end.

(** Modelled from the spec: [convertHexToArrayBuffer] of the module
    [utils], which is not among the sources; the inverse of the above on
    hex text, and an error on anything else. *)
Definition convertHexToArrayBuffer (v : Value) : Error + ArrayBuffer :=
  match v with
  | VStr s => match bytes_of_hex s with
              | Some b => inr b
              | None => inl (JsError "Invalid hex string")
              end
  | _ => inl TypeError
  end.

(** *** the handshake URI *)

(** The text before the first [c], and the text after it if [c] occurs. *)
Fixpoint cut (c : ascii) (s : string) : string * option string :=
  match s with
  | EmptyString => (EmptyString, None)
  | String x rest =>
      if Ascii.eqb x c then (EmptyString, Some rest)
      else let (a, b) := cut c rest in (String x a, b)
  end.

Fixpoint split (c : ascii) (s : string) : list string :=
  match s with
  | EmptyString => [EmptyString]
  | String x rest =>
      if Ascii.eqb x c then EmptyString :: split c rest
      else match split c rest with
           | h :: t => String x h :: t
           | [] => [str1 x]
           end
  end.

Fixpoint query_param (name : string) (pairs : list string) : string :=
  match pairs with
  | [] => ""
  | p :: rest =>
      match cut "=" p with
      | (k, Some v) => if String.eqb k name then v else query_param name rest
      | (_, None) => query_param name rest
      end
  end.

(** Modelled from the spec: [parseWalletConnectUri] of the module [utils],
    which is not among the sources.  The spec gives the format
    [wc:<handshakeTopic>@<version>?bridge=<url-encoded>&key=<hex>]: the
    protocol is the text before the first colon, the topic and the decimal
    version are parted by [@], and [bridge] and [key] are query fields,
    returned as written (the caller decodes the bridge).  A version that is
    not a decimal integer is [VUndefined]; a missing field is empty. *)
Definition parseWalletConnectUri (str : string) : IParseURIResult.t :=
  let (protocol, rest) := cut ":" str in
  let (path, query) := cut "?" (default "" rest) in
  let (topic, ver) := cut "@" path in
  let pairs := split "&" (default "" query) in
  {| IParseURIResult.protocol := match rest with Some _ => protocol | None => "" end;
     IParseURIResult.handshakeTopic := topic;
     IParseURIResult.version :=
       match ver with
       | Some d => if String.eqb d "" then VUndefined
                   else match digits_value d with
                        | Some n => VNum n
                        | None => VUndefined
                        end
       | None => VUndefined
       end;
     IParseURIResult.bridge := query_param "bridge" pairs;
     IParseURIResult.key := query_param "key" pairs |}.

(** *** crypto, meta data and entropy *)

Definition lib : ICryptoLib :=
  {| generateKey := fun n => repeat Byte.x11 (S n);
     encrypt := fun data key =>
       VObj [("data", data); ("keyhint", VStr (convertArrayBufferToHex key))];
     decrypt := fun payload key =>
       if strict_eq_string (convertArrayBufferToHex key) (prop_of payload "keyhint")
       then prop_of payload "data"
       else VNull |}.

(** Modelled from the spec: what [getMeta] of the module [utils] returns,
    a record [{name, description, url, icons}]. *)
Definition meta : Value :=
  VObj [("name", VStr "dapp"); ("description", VStr "");
        ("url", VStr "https://dapp.example"); ("icons", VArr [])].

(** Modelled from the spec: [payloadId] and [uuid] of the module [utils]
    are needed only to give ids that do not collide and fresh names; here
    both count the entropy drawn. *)
Definition env : Env :=
  Build_Env stringify parse_json encodeURIComponent decodeURIComponent
    convertArrayBufferToHex convertHexToArrayBuffer meta
    (fun n => 1000 + Z.of_nat n)%Z
    (fun n => "uuid-" +:+ ztos (Z.of_nat n))
    parseWalletConnectUri.

(** The world in which [new Connector(...)] is evaluated: a browser with
    an empty local storage. *)
Definition browser : World :=
  {| this := new_Connector None;
     storage := Some ∅;
     websocket := None;
     sent := [];
     promises := [];
     console := [];
     entropy := 0 |}.

End Concrete.

(** ** Vocabulary of the properties *)

(** The content of the storage slot ["walletconnect"], if there is one. *)
Definition slot (w : World) : option string :=
  match storage w with
  | Some items => items !! storageId
  | None => None
  end.

(** A listener of the class sits under the event name the class gives
    it; a listener of the application may sit anywhere. *)
Definition well_placed (e : IEventEmitter) : bool :=
  match callback e with
  | CbSessionResponse _ | CbCallResponse _ => String.prefix "response:" (event e)
  | CbWcSessionRequest => String.eqb (event e) "wc_sessionRequest"
  | CbWcSessionUpdate => String.eqb (event e) "wc_sessionUpdate"
  | CbWcExchangeKey => String.eqb (event e) "wc_exchangeKey"
  | CbUser _ => true
  end.

Definition emitters_ok (c : Connector) : Prop :=
  Forall (fun e => well_placed e = true) (_eventEmitters c).

(** The listener that [_subscribeToInternalEvents] installs for
    [wc_sessionUpdate]. *)
Definition sessionUpdate_listener : IEventEmitter :=
  {| event := "wc_sessionUpdate"; callback := CbWcSessionUpdate |}.

(** The observations the callbacks of the application leave when each
    listener of [l] is called with [payload]. *)
Definition calls (l : list IEventEmitter) (payload : Value) : list Obs :=
  omap (fun e => match callback e with
                 | CbUser tag => Some (OCallback tag payload)
                 | _ => None
                 end) l.

Definition log (obs : list Obs) (w : World) : World :=
  with_console (console w ++ obs) w.

Section Vocabulary.

Variable E : Env.

(** A frame leaves the connector: through the socket if it is open, into
    the pre-connect queue otherwise. *)
Definition emit (frame : Value) (w : World) : World :=
  match _socket (this w) with
  | Some _ => with_sent (sent w ++ [stringify_string E frame]) w
  | None => with_this (put_queue (_queue (this w) ++ [frame]) (this w)) w
  end.

(** What [_encrypt] answers for [data] in [w], and the world it leaves. *)
Definition sealed (data : Value) (w : World) : Value :=
  match cryptoLib (this w), _key (this w) with
  | Some lib, Some key => encrypt lib data key
  | _, _ => VNull
  end.

Definition noted (data : Value) (w : World) : World :=
  match cryptoLib (this w), _key (this w) with
  | Some _, Some _ => log [OEncrypt data] w
  | _, _ => w
  end.

(** The frames that left the connector between [w] and [w']. *)
Definition emitted (w w' : World) (frames : list Value) : Prop :=
  match _socket (this w) with
  | Some _ => sent w' = sent w ++ map (stringify_string E) frames
              /\ _queue (this w') = _queue (this w)
  | None => _queue (this w') = _queue (this w) ++ frames
            /\ sent w' = sent w
  end.

(** The frame carries [data] encrypted by [lib] under [key]. *)
Definition encrypted_under (lib : ICryptoLib) (key : ArrayBuffer) (frame : Value) : Prop :=
  exists topic data,
    frame = socketMessage topic "pub" (stringify_value E (encrypt lib data key)).

(** The two ways a payload is sent. *)
Inductive Send : Type :=
| SendRequest (request _topic : Value)
| SendResponse (response : Value).

Definition send (s : Send) : M unit :=
  match s with
  | SendRequest request _topic => _sendRequest E request _topic
  | SendResponse response => _sendResponse E response
  end.

Definition with_version (v : Value) (r : IParseURIResult.t) : IParseURIResult.t :=
  {| IParseURIResult.protocol := IParseURIResult.protocol r;
     IParseURIResult.handshakeTopic := IParseURIResult.handshakeTopic r;
     IParseURIResult.version := v;
     IParseURIResult.bridge := IParseURIResult.bridge r;
     IParseURIResult.key := IParseURIResult.key r |}.

(** What [_parseUri] accepts: the protocol of the connector and three
    non-empty fields, of which the bridge must decode. *)
Definition acceptable (protocol : string) (r : IParseURIResult.t) : option (string * string * string) :=
  if String.eqb (IParseURIResult.protocol r) protocol
     && nonempty (IParseURIResult.handshakeTopic r)
     && nonempty (IParseURIResult.bridge r)
  then match decodeURIComponent E (IParseURIResult.bridge r) with
       | Some bridge =>
           if nonempty (IParseURIResult.key r)
           then Some (IParseURIResult.handshakeTopic r, bridge, IParseURIResult.key r)
           else None
       | None => None
       end
  else None.

(** The calls the application and the socket can make on a connector. *)
Inductive Op : Type :=
| OpOn (event : string) (tag : nat)
| OpCreateSession
| OpApproveSession (sessionStatus : Value)
| OpRejectSession (sessionError : Value)
| OpUpdateSession (sessionStatus : Value)
| OpKillSession (sessionError : Value)
| OpSendTransaction (tx : Value)
| OpSignMessage (params : Value)
| OpSignTypedData (params : Value)
| OpApproveRequest (response : Value)
| OpRejectRequest (response : Value)
| OpSetBridge (value : string)
| OpSetKey (value : string)
| OpSetNextKey (value : Value)
| OpSetClientId (value : string)
| OpSetPeerId (value : Value)
| OpSetPeerMeta (value : Value)
| OpSetHandshakeTopic (value : string)
| OpSetHandshakeId (value : Value)
| OpSetChainId (value : Value)
| OpSetAccounts (value : Value)
| OpSetUri (value : string)
| OpSetSession (value : IWalletConnectSession.t)
| OpGetUri
| OpGetSession
| OpSocketOpen
| OpSocketMessage (data : string).

Definition void {A} (m : M A) : M unit := bind m (fun _ => ret tt).

Definition step (fuel : nat) (op : Op) : M unit :=
  match op with
  | OpOn event tag => on event tag
  | OpCreateSession => createSession E
  | OpApproveSession s => approveSession E fuel s
  | OpRejectSession e => rejectSession E fuel e
  | OpUpdateSession s => updateSession E fuel s
  | OpKillSession e => killSession E fuel e
  | OpSendTransaction tx => void (sendTransaction E tx)
  | OpSignMessage params => void (signMessage E params)
  | OpSignTypedData params => void (signTypedData E params)
  | OpApproveRequest r => approveRequest E r
  | OpRejectRequest r => rejectRequest E r
  | OpSetBridge v => set_bridge v
  | OpSetKey v => set_key E v
  | OpSetNextKey v => set_nextKey E v
  | OpSetClientId v => set_clientId v
  | OpSetPeerId v => set_peerId v
  | OpSetPeerMeta v => set_peerMeta v
  | OpSetHandshakeTopic v => set_handshakeTopic v
  | OpSetHandshakeId v => set_handshakeId v
  | OpSetChainId v => set_chainId v
  | OpSetAccounts v => set_accounts v
  | OpSetUri v => set_uri E v
  | OpSetSession v => set_session E v
  | OpGetUri => void (get_uri E)
  | OpGetSession => void (get_session E)
  | OpSocketOpen => socket_onopen E
  | OpSocketMessage data => _socketReceive E fuel data
  end.

(** The world after a sequence of calls; a call that throws leaves the
    world as it was at the throw and the next call goes on from there. *)
Fixpoint run (fuel : nat) (ops : list Op) (w : World) : World :=
  match ops with
  | [] => w
  | op :: rest => run fuel rest (snd (step fuel op w))
  end.

(** The worlds a connector can be in: made by the constructor, then
    driven by calls. *)
Definition reachable (fuel : nat) (w : World) : Prop :=
  exists cryptoLib opts clientMeta w0 ops,
    fst (constructor E cryptoLib opts clientMeta w0) = Ret tt /\
    w = run fuel ops (snd (constructor E cryptoLib opts clientMeta w0)).

End Vocabulary.

(** ** Scenarios

    A dApp that makes a connector for a bridge in a browser with empty
    storage, and the worlds it comes to. *)

Module Scenario.

Import Concrete.

Definition opts : IWalletConnectOptions.t :=
  {| IWalletConnectOptions.bridge := Some "https://b.example";
     IWalletConnectOptions.uri := None;
     IWalletConnectOptions.session := None |}.

(** [new Connector(lib, { bridge })] *)
Definition made : World := snd (constructor env (Some lib) opts VUndefined browser).

(** ... then [createSession()], then the socket opens. *)
Definition requested : World := snd (createSession env made).

Definition opened : World := snd (socket_onopen env requested).

(** A response of the wallet's to call [7]. *)
Definition answer : Value :=
  VObj [("id", VNum 7); ("result", VStr "0xdeadbeef")].

End Scenario.


(** ** Relations every method keeps *)

(** [m] keeps [R]: the world [m] leaves is related to the world it
    started in, whatever its outcome. *)
Definition keeps (R : World -> World -> Prop) {A} (m : M A) : Prop :=
  forall w, R w (snd (m w)).

(** What no method undoes: a handshake topic, once set, stays set; so does
    [clientId]; listeners stay where they belong and the listener for
    [wc_sessionUpdate] stays installed. *)
Definition grows (c c' : Connector) : Prop :=
  (nonempty (_handshakeTopic c) = true -> nonempty (_handshakeTopic c') = true)
  /\ (nonempty (_clientId c) = true -> nonempty (_clientId c') = true)
  /\ (emitters_ok c -> emitters_ok c')
  /\ (In sessionUpdate_listener (_eventEmitters c) ->
      In sessionUpdate_listener (_eventEmitters c')).

Definition evolves (w w' : World) : Prop := grows (this w) (this w').


(** [m] ensures [Q]: when [m] returns, [Q] holds of the world it leaves. *)
Definition ensures (Q : World -> Prop) {A} (m : M A) : Prop :=
  forall w a w', m w = (Ret a, w') -> Q w'.


(** The listeners [_triggerEvents] calls for the event [name]: those
    registered under [name], or failing any, those under ["call_request"]. *)
Definition listeners (name : string) (c : Connector) : list IEventEmitter :=
  match List.filter (fun e => String.eqb (event e) name) (_eventEmitters c) with
  | [] => List.filter (fun e => String.eqb (event e) "call_request") (_eventEmitters c)
  | l => l
  end.

Definition is_user (e : IEventEmitter) : Prop := exists tag, callback e = CbUser tag.

(** An event name under which the class itself puts no listener. *)
Definition free_name (name : string) : bool :=
  negb (String.prefix "response:" name)
  && negb (String.eqb name "wc_sessionRequest")
  && negb (String.eqb name "wc_sessionUpdate")
  && negb (String.eqb name "wc_exchangeKey").

(** The session is over: not connected, nothing stored. *)
Definition ended (w : World) : Prop := connected w = false /\ slot w = None.

(** A request [wc_sessionUpdate] whose first parameter is not approved. *)
Definition negative_update (payload : Value) : Prop :=
  in_op "method" payload = inr true
  /\ get_prop payload "method" = inr (VStr "wc_sessionUpdate")
  /\ exists params sessionParams approved,
       get_prop payload "params" = inr params
       /\ get_first params = inr sessionParams
       /\ get_prop sessionParams "approved" = inr approved
       /\ truthy approved = false.


Module Session.

Import Concrete Scenario.

(** The key [createSession] generates, and a frame that carries [payload]
    to [topic] under [key]. *)
Definition session_key : ArrayBuffer := generateKey lib 0.

Definition frame_to (topic : string) (key : ArrayBuffer) (payload : Value) : string :=
  stringify_string env
    (socketMessage (VStr topic) "pub" (stringify_value env (encrypt lib payload key))).

(** The wallet approves the session request. *)
Definition approval : Value :=
  VObj [("id", VNum 1002); ("jsonrpc", VStr "2.0");
        ("result", VObj [("approved", VBool true); ("chainId", VNum 1);
                         ("accounts", VArr [VStr "0xabc"])])].

Definition handshake : list Op :=
  [OpCreateSession; OpSocketOpen; OpSocketMessage (frame_to "uuid-1" session_key approval)].

Definition in_session : World := run env 2 handshake made.

(** The dApp listens for requests nobody else handles and calls
    [sendTransaction]; the request gets the id 1005 and the promise 0. *)
Definition calling : World :=
  run env 2 [OpOn "call_request" 9;
             OpSendTransaction (VObj [("to", VStr "0x1"); ("value", VStr "0x0")])]
    in_session.

(** Three answers of the wallet to call 1005. *)
Definition error_response : Value :=
  VObj [("id", VNum 1005); ("jsonrpc", VStr "2.0");
        ("error", VObj [("code", VNum (-32000)); ("message", VStr "User rejected")])].

Definition result_response : Value :=
  VObj [("id", VNum 1005); ("jsonrpc", VStr "2.0"); ("result", VStr "0xdeadbeef")].

Definition false_response : Value :=
  VObj [("id", VNum 1005); ("jsonrpc", VStr "2.0"); ("result", VBool false)].

Definition receive (payload : Value) (w : World) : World :=
  snd (_socketReceive env 2 (frame_to "uuid-1" session_key payload) w).

(** A request of the peer's to rotate the key to [2222]. *)
Definition next_key : ArrayBuffer := [Byte.x22; Byte.x22].

Definition exchange : Value :=
  VObj [("id", VNum 77); ("jsonrpc", VStr "2.0"); ("method", VStr "wc_exchangeKey");
        ("params", VArr [VObj [("peerId", VStr "wallet-1"); ("peerMeta", VNull);
                               ("nextKey", VStr "2222")]])].

(** The peer ends the session. *)
Definition goodbye : Value :=
  VObj [("id", VNum 5); ("jsonrpc", VStr "2.0"); ("method", VStr "wc_sessionUpdate");
        ("params", VArr [VObj [("approved", VBool false); ("chainId", VNull);
                               ("accounts", VNull); ("message", VStr "bye")]])].

(** A connector with a key exchange in flight. *)
Definition staged : World := snd (_exchangeKey env made).

(** A handshake URI of version 2. *)
Definition uri_v2 : string := "wc:abc123@2?bridge=https%3A%2F%2Fb.example&key=deadbeef".

End Session.


(** A frame of type [pub]. *)
Definition is_pub (frame : Value) : Prop :=
  exists topic payload, frame = socketMessage topic "pub" payload.

(** What [_decrypt] answers for [envelope] in [w], and the world it
    leaves. *)
Definition unsealed (envelope : Value) (w : World) : Value :=
  match cryptoLib (this w), _key (this w) with
  | Some lib, Some key => decrypt lib envelope key
  | _, _ => VNull
  end.

Definition heard (envelope : Value) (w : World) : World :=
  match cryptoLib (this w), _key (this w) with
  | Some _, Some _ => log [ODecrypt envelope] w
  | _, _ => w
  end.


(** What no method takes back: the listeners registered stay, in their
    order, in front of those registered later; a promise stays in the
    table and, once settled, keeps its outcome; the crypto library, the
    protocol and the version stay what the constructor made them. *)
Definition lasts (w w' : World) : Prop :=
  (exists l, _eventEmitters (this w') = _eventEmitters (this w) ++ l)
  /\ (forall p pr, promises w !! p = Some pr ->
        exists pr', promises w' !! p = Some pr'
                    /\ (settled pr <> Pending -> settled pr' = settled pr))
  /\ cryptoLib (this w') = cryptoLib (this w)
  /\ protocol (this w') = protocol (this w)
  /\ version (this w') = version (this w).


(** A payload no listener of its own waits for: it is no request, and it
    is either a response under whose id nothing is registered, or neither
    a response nor an event, as a response that carries an [error] and no
    [result]. *)
Definition unclaimed (payload : Value) (c : Connector) : Prop :=
  in_op "method" payload = inr false
  /\ ((in_op "result" payload = inr true
       /\ exists id, get_prop payload "id" = inr id
                     /\ List.filter (fun e => String.eqb (event e) ("response:" +:+ ToString id))
                          (_eventEmitters c) = [])
      \/ (in_op "result" payload = inr false /\ in_op "event" payload = inr false)).

(** The listeners registered under [call_request]. *)
Definition call_request_listeners (c : Connector) : list IEventEmitter :=
  List.filter (fun e => String.eqb (event e) "call_request") (_eventEmitters c).


(** The three calls of the application that wait for an answer of the
    peer. *)
Inductive Call : Type :=
| SendTransaction (tx : Value)
| SignMessage (params : Value)
| SignTypedData (params : Value).

Definition call (E : Env) (c : Call) : M nat :=
  match c with
  | SendTransaction tx => sendTransaction E tx
  | SignMessage params => signMessage E params
  | SignTypedData params => signTypedData E params
  end.

(** The request a call sends, before [_formatRequest] gives it an id. *)
Definition request_of (c : Call) : Value :=
  match c with
  | SendTransaction tx => VObj [("method", VStr "eth_sendTransaction"); ("params", VArr [tx])]
  | SignMessage params => VObj [("method", VStr "eth_sign"); ("params", params)]
  | SignTypedData params => VObj [("method", VStr "eth_signTypedData"); ("params", params)]
  end.

(** The listeners registered under [name]. *)
Definition registered (name : string) (c : Connector) : list IEventEmitter :=
  List.filter (fun e => String.eqb (event e) name) (_eventEmitters c).

(** A response to the request [id] that carries [result]. *)
Definition answers (response id result : Value) : Prop :=
  in_op "method" response = inr false
  /\ in_op "result" response = inr true
  /\ get_prop response "id" = inr id
  /\ get_prop response "result" = inr result.

(** What the promise of a call settles to on a response with [result]. *)
Definition outcome_of (result : Value) : PromiseState :=
  if truthy result then Resolved result
  else Rejected (JsError "Invalid JSON RPC response format received").


(** The hexadecimal form the getter [key] gives a key. *)
Definition hex_of (E : Env) (key : option ArrayBuffer) : string :=
  match key with
  | Some k => convertArrayBufferToHex E k
  | None => ""
  end.

(** The value of the getter [session] on a connector. *)
Definition snapshot (E : Env) (c : Connector) : Value :=
  VObj [("connected", VBool (_connected c));
        ("accounts", _accounts c);
        ("chainId", _chainId c);
        ("bridge", VStr (_bridge c));
        ("key", VStr (hex_of E (_key c)));
        ("clientId", VStr (_clientId c));
        ("clientMeta", _clientMeta c);
        ("peerId", _peerId c);
        ("peerMeta", _peerMeta c);
        ("handshakeId", _handshakeId c);
        ("handshakeTopic", VStr (_handshakeTopic c))].

(** The world once the getters [clientId] and [clientMeta] have been
    read: each fills its field in when it is empty. *)
Definition filled (E : Env) (w : World) : World :=
  let w1 := if nonempty (_clientId (this w)) then w
            else with_this (put_clientId (uuid E (entropy w)) (this w))
                   (with_entropy (S (entropy w)) w) in
  if truthy (_clientMeta (this w1)) then w1
  else with_this (put_clientMeta (getMeta E) (this w1)) w1.

(** The world with the snapshot of the connector written to the slot. *)
Definition stored (E : Env) (w : World) : World :=
  match storage w with
  | Some items =>
      with_storage (Some (<[storageId := stringify_string E (snapshot E (this w))]> items)) w
  | None => w
  end.

(** Two connectors that differ in [clientId] and [clientMeta] at most. *)
Definition same_session (c c' : Connector) : Prop :=
  cryptoLib c' = cryptoLib c /\ _bridge c' = _bridge c /\ _key c' = _key c
  /\ _nextKey c' = _nextKey c /\ _peerId c' = _peerId c /\ _peerMeta c' = _peerMeta c
  /\ _handshakeId c' = _handshakeId c /\ _handshakeTopic c' = _handshakeTopic c
  /\ _accounts c' = _accounts c /\ _chainId c' = _chainId c
  /\ _socket c' = _socket c /\ _queue c' = _queue c
  /\ _eventEmitters c' = _eventEmitters c /\ _connected c' = _connected c.


(** The connector once approved session parameters have been taken in:
    connected, with the chain and the accounts of the parameters where
    these are truthy. *)
Definition approved_into (chainId accounts : Value) (c : Connector) : Connector :=
  let c1 := if _connected c then c else put_connected true c in
  let c2 := if truthy chainId then put_chainId chainId c1 else c1 in
  if truthy accounts then put_accounts accounts c2 else c2.

(** The event that tells the application of approved session parameters:
    [connect] when the session was not connected, [session_update] when it
    was. *)
Definition approval_name (was_connected : bool) : string :=
  if was_connected then "session_update" else "connect".

Definition approval_event (was_connected : bool) (c : Connector) : Value :=
  if was_connected
  then internalEvent "session_update"
         (VObj [("chainId", _chainId c); ("accounts", _accounts c)])
  else internalEvent "connect"
         (VObj [("peerId", _peerId c); ("peerMeta", _peerMeta c);
                ("chainId", _chainId c); ("accounts", _accounts c)]).

(** Session parameters that approve. *)
Definition approves (sessionParams chainId accounts : Value) : Prop :=
  exists approved,
    get_prop sessionParams "approved" = inr approved
    /\ truthy approved = true
    /\ get_prop sessionParams "chainId" = inr chainId
    /\ get_prop sessionParams "accounts" = inr accounts.

(** A request [wc_sessionUpdate] with the session parameters [sessionParams]. *)
Definition update_request (payload sessionParams : Value) : Prop :=
  in_op "method" payload = inr true
  /\ get_prop payload "method" = inr (VStr "wc_sessionUpdate")
  /\ exists params,
       get_prop payload "params" = inr params
       /\ get_first params = inr sessionParams.


(** [sessionError ? sessionError.message : null], as a value. *)
Definition message_in (sessionError : Value) : Value :=
  if truthy sessionError then prop_of sessionError "message" else VNull.

(** The world with the slot of the session removed. *)
Definition erased (w : World) : World :=
  match storage w with
  | Some items => with_storage (Some (delete storageId items)) w
  | None => w
  end.

(** Session parameters that do not approve, with their [message]. *)
Definition declines (sessionParams message : Value) : Prop :=
  exists approved,
    get_prop sessionParams "approved" = inr approved
    /\ truthy approved = false
    /\ get_prop sessionParams "message" = inr message.


(** The id of the request that [createSession] or [_exchangeKey] makes in
    [w]: the key and, when there is none yet, the client id are drawn
    before it. *)
Definition next_id (E : Env) (w : World) : Value :=
  VNum (payloadId E
          ((if present (cryptoLib (this w)) then 1 else 0)
           + ((if nonempty (_clientId (this w)) then 0 else 1) + entropy w))).


(** What the exchange of keys, the registration of listeners and the
    opening of the socket leave alone: the session of the connector, but
    for the client id where there was none, and the storage. *)
Definition kept (w w' : World) : Prop :=
  _connected (this w') = _connected (this w)
  /\ _accounts (this w') = _accounts (this w)
  /\ _chainId (this w') = _chainId (this w)
  /\ _bridge (this w') = _bridge (this w)
  /\ _key (this w') = _key (this w)
  /\ (nonempty (_clientId (this w)) = true -> _clientId (this w') = _clientId (this w))
  /\ _peerId (this w') = _peerId (this w)
  /\ _peerMeta (this w') = _peerMeta (this w)
  /\ _handshakeId (this w') = _handshakeId (this w)
  /\ _handshakeTopic (this w') = _handshakeTopic (this w)
  /\ storage w' = storage w.

(** The session as the interface [IWalletConnectSession] has it, read off
    a connector. *)
Definition session_of (E : Env) (c : Connector) : IWalletConnectSession.t :=
  {| IWalletConnectSession.connected := _connected c;
     IWalletConnectSession.accounts := _accounts c;
     IWalletConnectSession.chainId := _chainId c;
     IWalletConnectSession.bridge := _bridge c;
     IWalletConnectSession.key := hex_of E (_key c);
     IWalletConnectSession.clientId := _clientId c;
     IWalletConnectSession.clientMeta := _clientMeta c;
     IWalletConnectSession.peerId := _peerId c;
     IWalletConnectSession.peerMeta := _peerMeta c;
     IWalletConnectSession.handshakeId := _handshakeId c;
     IWalletConnectSession.handshakeTopic := _handshakeTopic c |}.


(** What the constructor does once the session is in place. *)
Definition constructor_rest (E : Env) : M unit :=
  (detach (_exchangeKey E) ;;
   handshakeId <- get_handshakeId ;;
   when (truthy handshakeId)
        (_subscribeToSessionResponse handshakeId "Session request rejected") ;;
   _subscribeToInternalEvents ;;
   _socketOpen)%conn.



(** A request [wc_sessionRequest] of the peer [peerId] under the id [id]. *)
Definition session_request (payload id peerId peerMeta : Value) : Prop :=
  in_op "method" payload = inr true
  /\ get_prop payload "method" = inr (VStr "wc_sessionRequest")
  /\ get_prop payload "id" = inr id
  /\ exists params first,
       get_prop payload "params" = inr params
       /\ get_first params = inr first
       /\ get_prop first "peerId" = inr peerId
       /\ get_prop first "peerMeta" = inr peerMeta.


(** ** Further cases *)

Module Cases.

Import Concrete Scenario Session.

(** Chain and accounts the wallet announces. *)
Definition status : Value :=
  VObj [("chainId", VNum 5); ("accounts", VArr [VStr "0xdef"])].

Definition tx : Value := VObj [("to", VStr "0x1"); ("value", VStr "0x0")].

(** A request of the peer's that the connector does not handle itself. *)
Definition sign_request : Value :=
  VObj [("id", VNum 31); ("jsonrpc", VStr "2.0"); ("method", VStr "eth_sign");
        ("params", VArr [VStr "0xabc"; VStr "0x00"])].

(** The wallet's answer to the call the session above makes next. *)
Definition call_answer : Value :=
  VObj [("id", VNum 1005); ("jsonrpc", VStr "2.0"); ("result", VStr "0xdeadbeef")].

(** The wallet refuses the session request. *)
Definition refusal : Value :=
  VObj [("id", VNum 1002); ("jsonrpc", VStr "2.0");
        ("result", VObj [("approved", VBool false); ("chainId", VNull);
                         ("accounts", VNull); ("message", VStr "no")])].

(** The wallet moves the session to chain 5. *)
Definition move : Value :=
  VObj [("id", VNum 6); ("jsonrpc", VStr "2.0"); ("method", VStr "wc_sessionUpdate");
        ("params", VArr [VObj [("approved", VBool true); ("chainId", VNum 5);
                               ("accounts", VArr [VStr "0xdef"]);
                               ("message", VNull)]])].

(** The peer takes the key proposed in the session above. *)
Definition taken : Value :=
  VObj [("id", VNum 1006); ("jsonrpc", VStr "2.0"); ("result", VBool true)].

(** The page is loaded again: a new world over the storage of the session. *)
Definition reloaded : World :=
  {| this := new_Connector None;
     storage := storage in_session;
     websocket := None;
     sent := [];
     promises := [];
     console := [];
     entropy := 0 |}.

Definition stored_text : string := default "" (slot in_session).

Definition stored_json : Value := default VNull (parse_json stored_text).

(** The wallet's connector, made from the URI of a handshake. *)
Definition wallet_uri : string :=
  "wc:uuid-3@1?bridge=https%3A%2F%2Fb.example&key=11".

Definition wallet_opts : IWalletConnectOptions.t :=
  {| IWalletConnectOptions.bridge := None;
     IWalletConnectOptions.uri := Some wallet_uri;
     IWalletConnectOptions.session := None |}.

Definition wallet : World :=
  snd (socket_onopen env (snd (constructor env (Some lib) wallet_opts VUndefined browser))).

(** The dapp's request for a session, as it reaches the wallet. *)
Definition asking : Value :=
  VObj [("id", VNum 1002); ("jsonrpc", VStr "2.0"); ("method", VStr "wc_sessionRequest");
        ("params", VArr [VObj [("peerId", VStr "uuid-1"); ("peerMeta", meta)]])].

(** Frames for the session above: one sealed under another key, one whose
    payload is no JSON text. *)
Definition sealed_otherwise : string := frame_to "uuid-1" next_key call_answer.

Definition garbled : string :=
  stringify_string env (socketMessage (VStr "uuid-1") "pub" (VStr "{")).

Definition envelope_of (payload : Value) (key : ArrayBuffer) : Value :=
  encrypt lib payload key.

End Cases.


(** ** Properties *)

Section Properties.

Variable E : Env.

(** *** Running the monad *)

Lemma bind_Ret {A B} (m : M A) (f : A -> M B) (w w' : World) (a : A) :
  m w = (Ret a, w') -> bind m f w = f a w'.
Proof. intros H. unfold bind. now rewrite H. Qed.

Lemma bind_Throw {A B} (m : M A) (f : A -> M B) (w w' : World) (e : Error) :
  m w = (Throw e, w') -> bind m f w = (Throw e, w').
Proof. intros H. unfold bind. now rewrite H. Qed.

Lemma world_eta (w : World) :
  {| this := this w; storage := storage w; websocket := websocket w; sent := sent w;
     promises := promises w; console := console w; entropy := entropy w |} = w.
Proof. now destruct w. Qed.

Lemma log_nil (w : World) : log [] w = w.
Proof. unfold log, with_console. rewrite app_nil_r. apply world_eta. Qed.

Lemma log_log (o1 o2 : list Obs) (w : World) : log o2 (log o1 w) = log (o1 ++ o2) w.
Proof. unfold log, with_console. simpl. now rewrite app_assoc. Qed.

(** *** Sending *)

Lemma _encrypt_eq (data : Value) (w : World) :
  _encrypt data w = (Ret (sealed data w), noted data w).
Proof.
  unfold _encrypt, sealed, noted, bind, read, gets, observe, modify, log, ret.
  destruct (_key (this w)) as [k|], (cryptoLib (this w)) as [l|]; reflexivity.
Qed.

Lemma this_noted (data : Value) (w : World) : this (noted data w) = this w.
Proof.
  unfold noted. destruct (cryptoLib (this w)), (_key (this w)); reflexivity.
Qed.

Lemma _sendResponse_eq (response : Value) (w : World) :
  _sendResponse E response w =
  (Ret tt, emit E (socketMessage (_peerId (this w)) "pub"
                     (stringify_value E (sealed response w)))
                  (noted response w)).
Proof.
  unfold _sendResponse. rewrite (bind_Ret _ _ _ _ _ (_encrypt_eq response w)).
  cbv [bind get_peerId read gets emit _socketSend _setToQueue upd modify ret present].
  rewrite !this_noted.
  destruct (_socket (this w)) as [s|] eqn:Hs; cbv beta iota;
    rewrite ?this_noted, ?Hs; reflexivity.
Qed.

Lemma _sendRequest_eq (request _topic : Value) (w : World) :
  let callRequest :=
    VObj (spread [("id", VNum (payloadId E (entropy w))); ("jsonrpc", VStr "2.0")] request) in
  let w1 := with_entropy (S (entropy w)) w in
  _sendRequest E request _topic w =
  (Ret tt, emit E (socketMessage (or_else _topic (_peerId (this w))) "pub"
                     (stringify_value E (sealed callRequest w1)))
                  (noted callRequest w1)).
Proof.
  intros callRequest w1. unfold _sendRequest, _formatRequest.
  unfold bind at 1. unfold bind at 1. unfold fresh at 1. cbv beta iota.
  fold w1. unfold ret at 1. fold callRequest.
  rewrite (bind_Ret _ _ _ _ _ (_encrypt_eq callRequest w1)).
  cbv [bind get_peerId read gets emit _socketSend _setToQueue upd modify ret present].
  assert (Hw1 : this w1 = this w) by reflexivity.
  rewrite !this_noted, !Hw1.
  destruct (_socket (this w)) as [s|] eqn:Hs; cbv beta iota;
    rewrite ?this_noted, ?Hw1, ?Hs; reflexivity.
Qed.

Lemma emit_emitted (frame : Value) (w : World) : emitted E w (emit E frame w) [frame].
Proof.
  unfold emitted, emit. destruct (_socket (this w)); simpl; auto.
Qed.


Lemma emitted_after (frame : Value) (w w1 : World) :
  this w1 = this w -> sent w1 = sent w -> emitted E w (emit E frame w1) [frame].
Proof.
  intros Ht Hs. unfold emitted, emit. rewrite Ht.
  destruct (_socket (this w)); simpl; rewrite ?Ht, ?Hs; auto.
Qed.

Lemma sent_noted (data : Value) (w : World) : sent (noted data w) = sent w.
Proof.
  unfold noted. destruct (cryptoLib (this w)), (_key (this w)); reflexivity.
Qed.

(** C1, as amended.  When the key is absent, [_encrypt] answers [null]
    and changes nothing, and both send paths still emit one [pub] frame,
    whose payload is [JSON.stringify(null)]: onto the socket if it is
    open, into the pre-connect queue otherwise. *)
Theorem encrypt_without_key_still_emits (data request _topic response : Value) (w : World) :
  _key (this w) = None ->
  _encrypt data w = (Ret VNull, w)
  /\ (exists w', _sendResponse E response w = (Ret tt, w')
        /\ emitted E w w'
             [socketMessage (_peerId (this w)) "pub" (stringify_value E VNull)])
  /\ (exists w', _sendRequest E request _topic w = (Ret tt, w')
        /\ emitted E w w'
             [socketMessage (or_else _topic (_peerId (this w))) "pub"
                (stringify_value E VNull)]).
Proof.
  intros Hkey.
  assert (Hsealed : forall d w1, this w1 = this w -> sealed d w1 = VNull).
  { intros d w1 Hw1. unfold sealed. rewrite Hw1, Hkey.
    now destruct (cryptoLib (this w)). }
  assert (Hnoted : forall d w1, this w1 = this w -> noted d w1 = w1).
  { intros d w1 Hw1. unfold noted. rewrite Hw1, Hkey.
    now destruct (cryptoLib (this w)). }
  split; [|split].
  - rewrite _encrypt_eq, Hsealed, Hnoted; reflexivity.
  - eexists. split; [apply _sendResponse_eq|].
    rewrite Hsealed, Hnoted by reflexivity. apply emit_emitted.
  - eexists. split; [apply _sendRequest_eq|].
    rewrite Hsealed, Hnoted by reflexivity. now apply emitted_after.
Qed.

(** C10.  [approveRequest] and [rejectRequest] do the same in every
    world: each formats the response, which puts [jsonrpc: "2.0"] before
    the [id] and [result] it was given, and sends it as a response; the
    frame goes to the peer's topic and nothing else is marked or changed. *)
Theorem approveRequest_rejectRequest_same (response id result : Value) (w : World) :
  approveRequest E response w = rejectRequest E response w
  /\ rejectRequest E response w =
     (Ret tt, emit E (socketMessage (_peerId (this w)) "pub"
                        (stringify_value E (sealed (_formatResponse response) w)))
                     (noted (_formatResponse response) w))
  /\ _formatResponse (VObj [("id", id); ("result", result)]) =
     VObj [("jsonrpc", VStr "2.0"); ("id", id); ("result", result)].
Proof.
  split; [reflexivity|]. split; [|reflexivity].
  unfold rejectRequest, detach. now rewrite _sendResponse_eq.
Qed.


(** *** The pre-connect queue *)

Lemma forEach_socketSend (q : list Value) (w : World) (s : WebSocket) :
  _socket (this w) = Some s ->
  forEach (_socketSend E) q w =
  (Ret tt, with_sent (sent w ++ map (stringify_string E) q) w).
Proof.
  revert w. induction q as [|frame q IH]; intros w Hs; simpl.
  - unfold ret, with_sent. rewrite app_nil_r. now rewrite world_eta.
  - cbv [bind _socketSend read gets modify]. rewrite Hs. cbv beta iota.
    rewrite IH by exact Hs. unfold with_sent. simpl.
    now rewrite <- app_assoc.
Qed.

(** C4, as amended.  When the socket opens, the subscription for
    [clientId] is appended to the queue and the queue is then sent in
    order: the frames queued before the opening leave first, in the order
    of their submission, and the [sub] frame for [clientId] leaves last.
    The queue is empty afterwards. *)
Theorem socket_onopen_sends_queue_then_sub (w : World) (socket : WebSocket) :
  websocket w = Some socket ->
  exists w',
    socket_onopen E w = (Ret tt, w')
    /\ sent w' =
       sent w ++ map (stringify_string E) (_queue (this w))
              ++ [stringify_string E
                    (socketMessage (VStr (_clientId (this w'))) "sub" (VStr ""))]
    /\ _clientId (this w') =
       (if nonempty (_clientId (this w)) then _clientId (this w) else uuid E (entropy w))
    /\ _queue (this w') = [].
Proof.
  intros Hws. unfold socket_onopen, get_clientId, _setToQueue, _dispatchQueue.
  cbv [bind gets read upd modify fresh ret]. rewrite Hws. simpl.
  destruct (nonempty (_clientId (this w))) eqn:Hc; simpl.
  - erewrite forEach_socketSend by reflexivity. simpl.
    eexists. split; [reflexivity|]. simpl.
    rewrite map_app. simpl. auto.
  - erewrite forEach_socketSend by reflexivity. simpl.
    eexists. split; [reflexivity|]. simpl.
    rewrite map_app. simpl. auto.
Qed.

(** *** Receiving *)

Lemma nonempty_true (s : string) : s <> "" -> nonempty s = true.
Proof.
  intros H. unfold nonempty. destruct (String.eqb s "") eqn:Heq; [|reflexivity].
  apply String.eqb_eq in Heq. contradiction.
Qed.

(** C9.  A frame whose topic is neither [clientId] nor [handshakeTopic] is
    dropped: [_socketReceive] returns and the world is the one it started
    in, so no field of the connector changed, no listener ran and the
    crypto library was not called (both would have left an observation).
    Frames arrive on an open socket, and opening the socket has assigned
    [clientId]. *)
Theorem foreign_topic_dropped (fuel : nat) (data : string) (frame topic : Value) (w : World) :
  _clientId (this w) <> "" ->
  JSON_parse E data = Some frame ->
  get_prop frame "topic" = inr topic ->
  includes [_clientId (this w); _handshakeTopic (this w)] topic = false ->
  _socketReceive E fuel data w = (Ret tt, w).
Proof.
  intros Hc Hparse Htopic Hnot.
  unfold _socketReceive, parse, get_clientId, get_handshakeTopic. rewrite Hparse.
  cbv [bind gets read ret]. rewrite (nonempty_true _ Hc). simpl.
  rewrite Htopic. simpl. cbv [bind gets read ret].
  unfold includes in Hnot. unfold includes. rewrite Hnot. reflexivity.
Qed.

Lemma forEach_socketSend_this (q : list Value) (w : World) :
  this (snd (forEach (_socketSend E) q w)) = this w.
Proof.
  revert w. induction q as [|x q IH]; intros w; [reflexivity|].
  simpl. cbv [bind _socketSend read gets modify throw].
  destruct (_socket (this w)); [|reflexivity]. cbv beta iota.
  match goal with |- context [forEach _ q ?w0] => specialize (IH w0) end.
  destruct (forEach _ q _) as [[| |] w1]; exact IH.
Qed.

(** Opening the socket assigns [clientId] when [uuid] gives a name. *)
Lemma socket_onopen_assigns_clientId (w : World) :
  uuid E (entropy w) <> "" ->
  _clientId (this (snd (socket_onopen E w))) <> "".
Proof.
  intros Hu. unfold socket_onopen, get_clientId, _setToQueue, _dispatchQueue.
  cbv [bind gets read upd modify fresh ret]. simpl.
  destruct (nonempty (_clientId (this w))) eqn:Hc; simpl;
    match goal with
    | |- context [forEach ?f ?q ?w0] =>
        pose proof (forEach_socketSend_this q w0) as Hkeep;
        destruct (forEach f q w0) as [[| |] w1]
    end; simpl in *; rewrite Hkeep; simpl; auto;
    intros Heq; rewrite Heq in Hc; discriminate.
Qed.


(** *** Key exchange *)

(** C3, as amended.  Nothing guards [_exchangeKey]: in every world, also
    when a [nextKey] is staged, it returns, replaces the staged key by a
    freshly generated one and emits a [wc_exchangeKey] request. *)
Theorem exchangeKey_restages (w : World) :
  exists w' request,
    _exchangeKey E w = (Ret tt, w')
    /\ _nextKey (this w') =
       match cryptoLib (this w) with
       | Some lib => Some (generateKey lib (entropy w))
       | None => None
       end
    /\ get_prop request "method" = inr (VStr "wc_exchangeKey")
    /\ emitted E w w'
         [socketMessage (_peerId (this w)) "pub"
            (stringify_value E (sealed request w))].
Proof.
  unfold _exchangeKey, _generateKey, get_clientId, get_clientMeta, get_nextKey,
    _formatRequest, _sendCallRequest, _subscribeToCallResponse, new_promise, on_, detach.
  cbv [bind gets read upd modify fresh ret observe lift throw].
  destruct (cryptoLib (this w)) as [lib|] eqn:Hlib;
  destruct (nonempty (_clientId (this w))) eqn:Hc;
  destruct (truthy (_clientMeta (this w))) eqn:Hm; simpl;
  rewrite ?Hc, ?Hm; simpl; rewrite ?Hm; simpl;
  rewrite _sendRequest_eq; simpl;
  unfold emit, noted, sealed, emitted, or_else; simpl; rewrite ?Hlib;
  destruct (_key (this w)) as [k|] eqn:Hk; simpl;
  destruct (_socket (this w)) as [s|] eqn:Hs; simpl; rewrite ?Hs; simpl;
  (eexists; eexists; split; [reflexivity|]); simpl;
  (split; [reflexivity|]);
  first [ solve [apply and_comm; split; [split; reflexivity | reflexivity]]
        | split;
          [ exact (eq_refl : get_prop (VObj [("method", VStr "wc_exchangeKey")]) "method"
                             = inr (VStr "wc_exchangeKey"))
          | split; reflexivity ] ].
Qed.


Lemma emitted_trans (w w1 w2 : World) (l1 l2 : list Value) :
  _socket (this w1) = _socket (this w) ->
  emitted E w w1 l1 -> emitted E w1 w2 l2 -> emitted E w w2 (l1 ++ l2).
Proof.
  unfold emitted. intros Hs. rewrite Hs.
  destruct (_socket (this w)); intros [H1 H2] [H3 H4].
  - split; [|congruence]. rewrite H3, H1, map_app. now rewrite <- app_assoc.
  - split; [|congruence]. rewrite H3, H1. now rewrite <- app_assoc.
Qed.

Lemma emit_fields (frame : Value) (w : World) :
  cryptoLib (this (emit E frame w)) = cryptoLib (this w)
  /\ _key (this (emit E frame w)) = _key (this w)
  /\ _nextKey (this (emit E frame w)) = _nextKey (this w)
  /\ _socket (this (emit E frame w)) = _socket (this w).
Proof. unfold emit. destruct (_socket (this w)) eqn:Hs; simpl; auto. Qed.

(** Whatever is sent while the key is [key] is encrypted under [key]. *)
Lemma sends_encrypted (lib : ICryptoLib) (key : ArrayBuffer) (l : list Send) (w : World) :
  cryptoLib (this w) = Some lib ->
  _key (this w) = Some key ->
  exists w' frames,
    forEach (send E) l w = (Ret tt, w')
    /\ emitted E w w' frames
    /\ Forall (encrypted_under E lib key) frames
    /\ length frames = length l
    /\ cryptoLib (this w') = Some lib /\ _key (this w') = Some key
    /\ _socket (this w') = _socket (this w).
Proof.
  revert w. induction l as [|s l IH]; intros w Hlib Hkey.
  - exists w, []. simpl. repeat split; auto.
    unfold emitted. destruct (_socket (this w)); simpl; rewrite ?app_nil_r; auto.
  - simpl.
    assert (Hstep : exists frame w1,
               send E s w = (Ret tt, emit E frame w1)
               /\ this w1 = this w /\ sent w1 = sent w
               /\ encrypted_under E lib key frame).
    { destruct s as [request _topic|response]; simpl.
      - eexists. eexists. split; [apply _sendRequest_eq|].
        rewrite this_noted, sent_noted. simpl. repeat split.
        unfold sealed. simpl. rewrite Hlib, Hkey. eexists. eexists. reflexivity.
      - eexists. eexists. split; [apply _sendResponse_eq|].
        rewrite this_noted, sent_noted. repeat split.
        unfold sealed. rewrite Hlib, Hkey. eexists. eexists. reflexivity. }
    destruct Hstep as (frame & w1 & Hsend & Hthis & Hsent & Henc).
    destruct (emit_fields frame w1) as (Hl & Hk & _ & Hs).
    rewrite Hthis in Hl, Hk, Hs.
    destruct (IH (emit E frame w1)) as (w' & frames & Hrun & Hem & Hall & Hlen & Hl' & Hk' & Hs');
      [congruence | congruence |].
    exists w', (frame :: frames).
    rewrite (bind_Ret _ _ _ _ _ Hsend).
    repeat split; auto; try congruence.
    + change (frame :: frames) with ([frame] ++ frames).
      eapply emitted_trans; [exact Hs | now apply emitted_after | exact Hem].
    + simpl. now rewrite Hlen.
Qed.


Lemma emitted_nil (w w' : World) :
  sent w' = sent w -> _queue (this w') = _queue (this w) -> emitted E w w' [].
Proof.
  intros Hs Hq. unfold emitted.
  destruct (_socket (this w)); simpl; rewrite ?app_nil_r; auto.
Qed.

Lemma _swapKey_spec (w : World) :
  exists w',
    _swapKey E w = (Ret tt, w')
    /\ _key (this w') = _nextKey (this w)
    /\ _nextKey (this w') = None
    /\ cryptoLib (this w') = cryptoLib (this w)
    /\ _socket (this w') = _socket (this w)
    /\ _connected (this w') = _connected (this w)
    /\ sent w' = sent w
    /\ _queue (this w') = _queue (this w).
Proof.
  unfold _swapKey, _setStorageSession, get_session, get_connected, get_accounts,
    get_chainId, get_bridge, get_key, get_clientId, get_clientMeta, get_peerId,
    get_peerMeta, get_handshakeId, get_handshakeTopic.
  cbv [bind gets read upd modify fresh ret]. simpl.
  destruct (_nextKey (this w)) as [k|]; simpl;
  destruct (nonempty (_clientId (this w))) eqn:Hc; simpl;
  destruct (truthy (_clientMeta (this w))) eqn:Hm; simpl;
  destruct (storage w) as [items|]; simpl;
  (eexists; split; [reflexivity|]); simpl; repeat split; reflexivity.
Qed.




(** *** What every method keeps *)

Section Keeps.

Variable R : World -> World -> Prop.
Hypothesis R_refl : forall w, R w w.
Hypothesis R_trans : forall a b c, R a b -> R b c -> R a c.
Hypothesis R_log : forall w obs, R w (log obs w).

Lemma keeps_ret {A} (a : A) : keeps R (ret a).
Proof. intros w. apply R_refl. Qed.

Lemma keeps_throw {A} (e : Error) : keeps R (@throw A e).
Proof. intros w. apply R_refl. Qed.

Lemma keeps_stuck {A} : keeps R (fun w => (@OutOfFuel A, w)).
Proof. intros w. apply R_refl. Qed.

Lemma keeps_gets {A} (f : World -> A) : keeps R (gets f).
Proof. intros w. apply R_refl. Qed.

Lemma keeps_read {A} (f : Connector -> A) : keeps R (read f).
Proof. intros w. apply R_refl. Qed.

Lemma keeps_lift {A} (r : Error + A) : keeps R (lift r).
Proof. destruct r; intros w; apply R_refl. Qed.

Lemma keeps_bind {A B} (m : M A) (f : A -> M B) :
  keeps R m -> (forall a, keeps R (f a)) -> keeps R (bind m f).
Proof.
  intros Hm Hf w. unfold bind. specialize (Hm w).
  destruct (m w) as [[a|e|] w1]; simpl in *; auto.
  eapply R_trans; [exact Hm | apply Hf].
Qed.

Lemma keeps_observe (o : Obs) : keeps R (observe o).
Proof. intros w. apply (R_log w [o]). Qed.

Lemma keeps_detach {A} (m : M A) : keeps R m -> keeps R (detach m).
Proof.
  intros Hm w. unfold detach. specialize (Hm w).
  destruct (m w) as [[a|e|] w1]; simpl in *; auto.
  eapply R_trans; [exact Hm | apply (R_log w1 [OUnhandled e])].
Qed.

Lemma keeps_when (b : bool) (m : M unit) : keeps R m -> keeps R (when b m).
Proof. intros Hm. destruct b; simpl; [exact Hm | apply keeps_ret]. Qed.

Lemma keeps_void {A} (m : M A) : keeps R m -> keeps R (void m).
Proof. intros Hm. apply keeps_bind; [exact Hm | intros a; apply keeps_ret]. Qed.

Lemma keeps_forEach {A} (f : A -> M unit) (xs : list A) :
  (forall x, keeps R (f x)) -> keeps R (forEach f xs).
Proof.
  intros Hf. induction xs as [|x xs IH]; simpl.
  - apply keeps_ret.
  - apply keeps_bind; auto.
Qed.

End Keeps.

Lemma grows_refl (c : Connector) : grows c c.
Proof. unfold grows. tauto. Qed.

Lemma grows_trans (a b c : Connector) : grows a b -> grows b c -> grows a c.
Proof. unfold grows. tauto. Qed.

Lemma evolves_refl (w : World) : evolves w w.
Proof. apply grows_refl. Qed.

Lemma evolves_trans (a b c : World) : evolves a b -> evolves b c -> evolves a c.
Proof. apply grows_trans. Qed.

Lemma evolves_log (w : World) (obs : list Obs) : evolves w (log obs w).
Proof. apply grows_refl. Qed.

(** A change outside the connector's fields. *)
Lemma keeps_modify_around (f : World -> World) :
  (forall w, this (f w) = this w) -> keeps evolves (modify f).
Proof. intros Hf w. unfold evolves. simpl. rewrite Hf. apply grows_refl. Qed.

Lemma keeps_upd (f : Connector -> Connector) :
  (forall c, grows c (f c)) -> keeps evolves (upd f).
Proof. intros Hf w. unfold evolves. simpl. apply Hf. Qed.

Lemma keeps_fresh : keeps evolves fresh.
Proof. intros w. apply grows_refl. Qed.

Lemma keeps_new_promise : keeps evolves new_promise.
Proof. intros w. apply grows_refl. Qed.

Lemma well_placed_app (c : Connector) (e : IEventEmitter) :
  well_placed e = true ->
  grows c (put_eventEmitters (_eventEmitters c ++ [e]) c).
Proof.
  intros He. unfold grows, emitters_ok. simpl. repeat split; auto.
  - intros H. apply Forall_app. split; auto.
  - intros H. apply in_or_app. now left.
Qed.

Lemma response_prefix (s : string) : String.prefix "response:" ("response:" +:+ s) = true.
Proof. destruct s; reflexivity. Qed.

Lemma well_placed_session_response (id : Value) (errorMsg : string) :
  well_placed {| event := "response:" +:+ ToString id;
                 callback := CbSessionResponse errorMsg |} = true.
Proof. apply response_prefix. Qed.

Lemma well_placed_call_response (id : Value) (p : nat) :
  well_placed {| event := "response:" +:+ ToString id; callback := CbCallResponse p |} = true.
Proof. apply response_prefix. Qed.

Lemma keeps_on_ (name : string) (cb : Callback) :
  well_placed {| event := name; callback := cb |} = true ->
  keeps evolves (on_ name cb).
Proof.
  intros He w. unfold on_, bind, read, gets, upd, modify, evolves. simpl.
  now apply well_placed_app.
Qed.

Lemma keeps_get_clientId : keeps evolves (get_clientId E).
Proof.
  intros w. unfold get_clientId. cbv [bind read gets upd modify fresh ret evolves].
  destruct (nonempty (_clientId (this w))) eqn:Hc; simpl.
  - apply grows_refl.
  - unfold grows. simpl. rewrite Hc. repeat split; auto; discriminate.
Qed.

Ltac grows_tac :=
  let c := fresh "c" in
  intros c; unfold grows; simpl; tauto.

Ltac keeps_step :=
  match goal with
  | |- keeps _ (bind _ _) =>
      apply (keeps_bind _ evolves_trans); [ | intros ]
  | |- keeps _ (ret _) => apply (keeps_ret _ evolves_refl)
  | |- keeps _ (throw _) => apply (keeps_throw _ evolves_refl)
  | |- keeps _ (lift _) => apply (keeps_lift _ evolves_refl)
  | |- keeps _ (gets _) => apply (keeps_gets _ evolves_refl)
  | |- keeps _ (read _) => apply (keeps_read _ evolves_refl)
  | |- keeps _ (observe _) => apply (keeps_observe _ evolves_log)
  | |- keeps _ (when _ _) => apply (keeps_when _ evolves_refl)
  | |- keeps _ (void _) => apply (keeps_void _ evolves_refl evolves_trans)
  | |- keeps _ (detach _) => apply (keeps_detach _ evolves_trans evolves_log)
  | |- keeps _ (forEach _ _) =>
      apply (keeps_forEach _ evolves_refl evolves_trans); intros
  | |- keeps _ (fun w => (OutOfFuel, w)) => apply (keeps_stuck _ evolves_refl)
  | |- keeps _ fresh => apply keeps_fresh
  | |- keeps _ new_promise => apply keeps_new_promise
  | |- keeps _ (get_clientId _) => apply keeps_get_clientId
  | |- keeps _ (on_ _ _) =>
      apply keeps_on_;
      first [ reflexivity
            | apply well_placed_session_response
            | apply well_placed_call_response ]
  | |- keeps _ (upd _) => apply keeps_upd; grows_tac
  | |- keeps _ (modify _) => apply keeps_modify_around; intros; reflexivity
  | |- keeps _ (if ?b then _ else _) => destruct b
  | |- keeps _ (match ?x with _ => _ end) => destruct x
  end.

Ltac keeps_tac := repeat keeps_step; auto.

Lemma keeps_set_handshakeTopic (value : string) : keeps evolves (set_handshakeTopic value).
Proof.
  unfold set_handshakeTopic. destruct (nonempty value) eqn:Hv; simpl.
  - apply keeps_upd. intros c. unfold grows. simpl. tauto.
  - apply (keeps_ret _ evolves_refl).
Qed.

Lemma keeps_set_clientId (value : string) : keeps evolves (set_clientId value).
Proof.
  unfold set_clientId. destruct (nonempty value) eqn:Hv; simpl.
  - apply keeps_upd. intros c. unfold grows. simpl. tauto.
  - apply (keeps_ret _ evolves_refl).
Qed.


Create HintDb keeps.

#[local] Hint Resolve keeps_set_handshakeTopic keeps_set_clientId keeps_get_clientId : keeps.

Ltac keeps_more :=
  match goal with
  | |- keeps _ (let _ := _ in _) => cbv zeta
  | |- keeps _ (modify _) =>
      apply keeps_modify_around;
      let w := fresh "w" in
      intros w; try reflexivity; destruct (storage w); reflexivity
  | |- keeps _ _ => keeps_step
  | |- keeps _ _ => solve [auto with keeps]
  end.

Ltac keeps_tac ::= repeat keeps_more.

Lemma keeps_parse (s : string) : keeps evolves (parse E s).
Proof. unfold parse. keeps_tac. Qed.
#[local] Hint Resolve keeps_parse : keeps.

Lemma keeps_set_bridge (value : string) : keeps evolves (set_bridge value).
Proof. unfold set_bridge. keeps_tac. Qed.
#[local] Hint Resolve keeps_set_bridge : keeps.

Lemma keeps_set_key (value : string) : keeps evolves (set_key E value).
Proof. unfold set_key. keeps_tac. Qed.
#[local] Hint Resolve keeps_set_key : keeps.

Lemma keeps_set_nextKey (value : Value) : keeps evolves (set_nextKey E value).
Proof. unfold set_nextKey. keeps_tac. Qed.
#[local] Hint Resolve keeps_set_nextKey : keeps.

Lemma keeps_set_peerId (value : Value) : keeps evolves (set_peerId value).
Proof. unfold set_peerId. keeps_tac. Qed.
#[local] Hint Resolve keeps_set_peerId : keeps.

Lemma keeps_set_peerMeta (value : Value) : keeps evolves (set_peerMeta value).
Proof. unfold set_peerMeta. keeps_tac. Qed.
#[local] Hint Resolve keeps_set_peerMeta : keeps.

Lemma keeps_set_handshakeId (value : Value) : keeps evolves (set_handshakeId value).
Proof. unfold set_handshakeId. keeps_tac. Qed.
#[local] Hint Resolve keeps_set_handshakeId : keeps.

Lemma keeps_set_chainId (value : Value) : keeps evolves (set_chainId value).
Proof. unfold set_chainId. keeps_tac. Qed.
#[local] Hint Resolve keeps_set_chainId : keeps.

Lemma keeps_set_accounts (value : Value) : keeps evolves (set_accounts value).
Proof. unfold set_accounts. keeps_tac. Qed.
#[local] Hint Resolve keeps_set_accounts : keeps.

Lemma keeps_set_clientMeta (value : Value) : keeps evolves (set_clientMeta value).
Proof. unfold set_clientMeta. keeps_tac. Qed.
#[local] Hint Resolve keeps_set_clientMeta : keeps.

Lemma keeps_get_key : keeps evolves (get_key E).
Proof. unfold get_key. keeps_tac. Qed.
#[local] Hint Resolve keeps_get_key : keeps.

Lemma keeps_get_nextKey : keeps evolves (get_nextKey E).
Proof. unfold get_nextKey. keeps_tac. Qed.
#[local] Hint Resolve keeps_get_nextKey : keeps.

Lemma keeps_get_clientMeta : keeps evolves (get_clientMeta E).
Proof. unfold get_clientMeta. keeps_tac. Qed.
#[local] Hint Resolve keeps_get_clientMeta : keeps.

Lemma keeps_get_pending : keeps evolves (get_pending).
Proof. unfold get_pending. keeps_tac. Qed.
#[local] Hint Resolve keeps_get_pending : keeps.

Lemma keeps__formatUri : keeps evolves (_formatUri E).
Proof. unfold _formatUri. keeps_tac. Qed.
#[local] Hint Resolve keeps__formatUri : keeps.

Lemma keeps__parseUri (uri : string) : keeps evolves (_parseUri E uri).
Proof. unfold _parseUri. keeps_tac. Qed.
#[local] Hint Resolve keeps__parseUri : keeps.

Lemma keeps_set_uri (value : string) : keeps evolves (set_uri E value).
Proof. unfold set_uri. keeps_tac. Qed.
#[local] Hint Resolve keeps_set_uri : keeps.

Lemma keeps_get_session : keeps evolves (get_session E).
Proof. unfold get_session. keeps_tac. Qed.
#[local] Hint Resolve keeps_get_session : keeps.

Lemma keeps_set_session (value : IWalletConnectSession.t) : keeps evolves (set_session E value).
Proof. unfold set_session. keeps_tac. Qed.
#[local] Hint Resolve keeps_set_session : keeps.

Lemma keeps__getStorageSession : keeps evolves (_getStorageSession E).
Proof. unfold _getStorageSession. keeps_tac. Qed.
#[local] Hint Resolve keeps__getStorageSession : keeps.

Lemma keeps__setStorageSession : keeps evolves (_setStorageSession E).
Proof. unfold _setStorageSession. keeps_tac. Qed.
#[local] Hint Resolve keeps__setStorageSession : keeps.

Lemma keeps__removeStorageSession : keeps evolves (_removeStorageSession).
Proof. unfold _removeStorageSession. keeps_tac. Qed.
#[local] Hint Resolve keeps__removeStorageSession : keeps.

Lemma keeps__generateKey : keeps evolves (_generateKey).
Proof. unfold _generateKey. keeps_tac. Qed.
#[local] Hint Resolve keeps__generateKey : keeps.

Lemma keeps__encrypt (data : Value) : keeps evolves (_encrypt data).
Proof. unfold _encrypt. keeps_tac. Qed.
#[local] Hint Resolve keeps__encrypt : keeps.

Lemma keeps__decrypt (payload : Value) : keeps evolves (_decrypt payload).
Proof. unfold _decrypt. keeps_tac. Qed.
#[local] Hint Resolve keeps__decrypt : keeps.

Lemma keeps__socketOpen : keeps evolves (_socketOpen).
Proof. unfold _socketOpen. keeps_tac. Qed.
#[local] Hint Resolve keeps__socketOpen : keeps.

Lemma keeps__socketSend (frame : Value) : keeps evolves (_socketSend E frame).
Proof. unfold _socketSend. keeps_tac. Qed.
#[local] Hint Resolve keeps__socketSend : keeps.

Lemma keeps__setToQueue (frame : Value) : keeps evolves (_setToQueue frame).
Proof. unfold _setToQueue. keeps_tac. Qed.
#[local] Hint Resolve keeps__setToQueue : keeps.

Lemma keeps__dispatchQueue : keeps evolves (_dispatchQueue E).
Proof. unfold _dispatchQueue. keeps_tac. Qed.
#[local] Hint Resolve keeps__dispatchQueue : keeps.

Lemma keeps_socket_onopen : keeps evolves (socket_onopen E).
Proof. unfold socket_onopen. keeps_tac. Qed.
#[local] Hint Resolve keeps_socket_onopen : keeps.

Lemma keeps__formatRequest (request : Value) : keeps evolves (_formatRequest E request).
Proof. unfold _formatRequest. keeps_tac. Qed.
#[local] Hint Resolve keeps__formatRequest : keeps.

Lemma keeps__sendRequest (request _topic : Value) : keeps evolves (_sendRequest E request _topic).
Proof. unfold _sendRequest. keeps_tac. Qed.
#[local] Hint Resolve keeps__sendRequest : keeps.

Lemma keeps__sendResponse (response : Value) : keeps evolves (_sendResponse E response).
Proof. unfold _sendResponse. keeps_tac. Qed.
#[local] Hint Resolve keeps__sendResponse : keeps.

Lemma keeps_on (name : string) (tag : nat) : keeps evolves (on name tag).
Proof. unfold on. keeps_tac. Qed.
#[local] Hint Resolve keeps_on : keeps.

Lemma keeps__subscribeToSessionRequest : keeps evolves (_subscribeToSessionRequest).
Proof. unfold _subscribeToSessionRequest. keeps_tac. Qed.
#[local] Hint Resolve keeps__subscribeToSessionRequest : keeps.

Lemma keeps__subscribeToSessionResponse (id : Value) (errorMsg : string) : keeps evolves (_subscribeToSessionResponse id errorMsg).
Proof. unfold _subscribeToSessionResponse. keeps_tac. Qed.
#[local] Hint Resolve keeps__subscribeToSessionResponse : keeps.

Lemma keeps__subscribeToCallResponse (id : Value) : keeps evolves (_subscribeToCallResponse id).
Proof. unfold _subscribeToCallResponse. keeps_tac. Qed.
#[local] Hint Resolve keeps__subscribeToCallResponse : keeps.

Lemma keeps__subscribeToInternalEvents : keeps evolves (_subscribeToInternalEvents).
Proof. unfold _subscribeToInternalEvents. keeps_tac. Qed.
#[local] Hint Resolve keeps__subscribeToInternalEvents : keeps.

Lemma keeps__sendSessionRequest (request : Value) (errorMsg : string) (_topic : Value) : keeps evolves (_sendSessionRequest E request errorMsg _topic).
Proof. unfold _sendSessionRequest. keeps_tac. Qed.
#[local] Hint Resolve keeps__sendSessionRequest : keeps.

Lemma keeps__sendCallRequest (request : Value) : keeps evolves (_sendCallRequest E request).
Proof. unfold _sendCallRequest. keeps_tac. Qed.
#[local] Hint Resolve keeps__sendCallRequest : keeps.

Lemma keeps__swapKey : keeps evolves (_swapKey E).
Proof. unfold _swapKey. keeps_tac. Qed.
#[local] Hint Resolve keeps__swapKey : keeps.

Lemma keeps__exchangeKey : keeps evolves (_exchangeKey E).
Proof. unfold _exchangeKey. keeps_tac. Qed.
#[local] Hint Resolve keeps__exchangeKey : keeps.

Lemma keeps__handleExchangeKeyRequest (payload : Value) : keeps evolves (_handleExchangeKeyRequest E payload).
Proof. unfold _handleExchangeKeyRequest. keeps_tac. Qed.
#[local] Hint Resolve keeps__handleExchangeKeyRequest : keeps.

Lemma keeps_resolve (p : nat) (v : Value) : keeps evolves (resolve E p v).
Proof. unfold resolve. keeps_tac. Qed.
#[local] Hint Resolve keeps_resolve : keeps.

Lemma keeps_reject (p : nat) (e : Error) : keeps evolves (reject p e).
Proof. unfold reject. keeps_tac. Qed.
#[local] Hint Resolve keeps_reject : keeps.



Lemma keeps__triggerEvents_with (call : Callback -> Value -> M unit) (payload : Value) :
  (forall cb p, keeps evolves (call cb p)) ->
  keeps evolves (_triggerEvents_with call payload).
Proof. intros Hcall. unfold _triggerEvents_with. keeps_tac. Qed.

Lemma keeps__handleSessionResponse_with (trigger : Value -> M unit)
    (sessionParams : Value) (errorMsg : string) :
  (forall p, keeps evolves (trigger p)) ->
  keeps evolves (_handleSessionResponse_with E trigger sessionParams errorMsg).
Proof. intros Htrigger. unfold _handleSessionResponse_with. keeps_tac. Qed.

Lemma keeps_invoke (fuel : nat) (cb : Callback) (payload : Value) :
  keeps evolves (invoke E fuel cb payload).
Proof.
  revert cb payload. induction fuel as [|fuel IH]; intros cb payload; simpl.
  - apply (keeps_stuck _ evolves_refl).
  - assert (Htrigger : forall p, keeps evolves (_triggerEvents_with (invoke E fuel) p)).
    { intros p. now apply keeps__triggerEvents_with. }
    destruct cb; keeps_tac; now apply keeps__handleSessionResponse_with.
Qed.
#[local] Hint Resolve keeps_invoke : keeps.

Lemma keeps__triggerEvents (fuel : nat) (payload : Value) :
  keeps evolves (_triggerEvents E fuel payload).
Proof. apply keeps__triggerEvents_with. intros. apply keeps_invoke. Qed.
#[local] Hint Resolve keeps__triggerEvents : keeps.

Lemma keeps_createSession : keeps evolves (createSession E).
Proof. unfold createSession. keeps_tac. Qed.

Lemma keeps_message_of (sessionError : Value) : keeps evolves (message_of sessionError).
Proof. unfold message_of. keeps_tac. Qed.
#[local] Hint Resolve keeps_message_of : keeps.

Lemma keeps_approveSession (fuel : nat) (s : Value) : keeps evolves (approveSession E fuel s).
Proof. unfold approveSession. keeps_tac. Qed.

Lemma keeps_rejectSession (fuel : nat) (e : Value) : keeps evolves (rejectSession E fuel e).
Proof. unfold rejectSession. keeps_tac. Qed.

Lemma keeps_updateSession (fuel : nat) (s : Value) : keeps evolves (updateSession E fuel s).
Proof. unfold updateSession. keeps_tac. Qed.

Lemma keeps_killSession (fuel : nat) (e : Value) : keeps evolves (killSession E fuel e).
Proof. unfold killSession. keeps_tac. Qed.

Lemma keeps_sendTransaction (tx : Value) : keeps evolves (sendTransaction E tx).
Proof. unfold sendTransaction. keeps_tac. Qed.

Lemma keeps_signMessage (params : Value) : keeps evolves (signMessage E params).
Proof. unfold signMessage. keeps_tac. Qed.

Lemma keeps_signTypedData (params : Value) : keeps evolves (signTypedData E params).
Proof. unfold signTypedData. keeps_tac. Qed.
#[local] Hint Resolve keeps_sendTransaction keeps_signMessage keeps_signTypedData : keeps.

Lemma keeps_approveRequest (r : Value) : keeps evolves (approveRequest E r).
Proof. unfold approveRequest. keeps_tac. Qed.

Lemma keeps_rejectRequest (r : Value) : keeps evolves (rejectRequest E r).
Proof. unfold rejectRequest. keeps_tac. Qed.

Lemma keeps__socketReceive (fuel : nat) (data : string) :
  keeps evolves (_socketReceive E fuel data).
Proof. unfold _socketReceive. keeps_tac. Qed.

#[local] Hint Resolve keeps_createSession keeps_approveSession keeps_rejectSession
  keeps_updateSession keeps_killSession keeps_approveRequest keeps_rejectRequest
  keeps__socketReceive : keeps.

Lemma keeps_step (fuel : nat) (op : Op) : keeps evolves (step E fuel op).
Proof.
  destruct op; simpl; unfold get_uri; keeps_tac.
Qed.

Lemma run_evolves (fuel : nat) (ops : list Op) (w : World) :
  evolves w (run E fuel ops w).
Proof.
  revert w. induction ops as [|op ops IH]; intros w; simpl.
  - apply evolves_refl.
  - eapply evolves_trans; [apply keeps_step | apply IH].
Qed.

(** Once assigned, [clientId] stays assigned. *)
Lemma clientId_stays (fuel : nat) (ops : list Op) (w : World) :
  _clientId (this w) <> "" -> _clientId (this (run E fuel ops w)) <> "".
Proof.
  intros Hc. destruct (run_evolves fuel ops w) as (_ & Hid & _).
  specialize (Hid (nonempty_true _ Hc)). intros Heq. rewrite Heq in Hid. discriminate.
Qed.

(** C5, as amended.  [pending] is the handshake topic being non-empty and
    nothing else, and no call on the connector empties the handshake
    topic: once [pending] holds it holds after every sequence of calls,
    whatever these do to [connected]. *)
Theorem pending_persists (fuel : nat) (ops : list Op) (w : World) :
  pending w = true ->
  pending (run E fuel ops w) = true
  /\ (pending (run E fuel ops w) = true <->
      _handshakeTopic (this (run E fuel ops w)) <> "").
Proof.
  intros Hp. split.
  - now apply (run_evolves fuel ops w).
  - unfold pending, nonempty. split.
    + intros H Heq. rewrite Heq in H. discriminate.
    + intros H. destruct (String.eqb _ "") eqn:Heq; [|reflexivity].
      apply String.eqb_eq in Heq. contradiction.
Qed.


(** *** The worlds a connector can be in *)

Lemma ensures_bind {A B} (Q : World -> Prop) (m : M A) (f : A -> M B) :
  (forall a, ensures Q (f a)) -> ensures Q (bind m f).
Proof.
  intros Hf w b w'. unfold bind.
  destruct (m w) as [[a|e|] w1]; [apply Hf | discriminate | discriminate].
Qed.

Lemma ensures_throw {A} (Q : World -> Prop) (e : Error) : ensures Q (@throw A e).
Proof. intros w a w'. discriminate. Qed.

Lemma constructor_installs (cryptoLib : option ICryptoLib) (opts : IWalletConnectOptions.t)
    (clientMeta : Value) :
  ensures (fun w => In sessionUpdate_listener (_eventEmitters (this w)))
    (constructor E cryptoLib opts clientMeta).
Proof.
  unfold constructor.
  apply ensures_bind; intros _. apply ensures_bind; intros _.
  destruct (_ && _); [apply ensures_throw|].
  do 6 (apply ensures_bind; intros ?).
  intros w u w'. unfold _subscribeToInternalEvents, on_, _socketOpen, get_bridge.
  cbv [bind read gets upd modify ret]. intros H. injection H as _ <-. simpl.
  apply in_or_app. left. apply in_or_app. right. now left.
Qed.

Lemma constructor_grows (cryptoLib : option ICryptoLib) (opts : IWalletConnectOptions.t)
    (clientMeta : Value) (w0 : World) :
  grows (new_Connector cryptoLib) (this (snd (constructor E cryptoLib opts clientMeta w0))).
Proof.
  unfold constructor. unfold bind at 1. unfold modify at 1.
  match goal with
  | |- grows _ (this (snd (?rest ?w1))) =>
      change (evolves w1 (snd (rest w1))); generalize w1;
      change (keeps evolves rest)
  end.
  keeps_tac.
Qed.

(** In every world a connector can be in, the listeners of the class sit
    under their own event names and the one for [wc_sessionUpdate] is
    installed. *)
Lemma reachable_listeners (fuel : nat) (w : World) :
  reachable E fuel w ->
  emitters_ok (this w) /\ In sessionUpdate_listener (_eventEmitters (this w)).
Proof.
  intros (lib & opts & meta & w0 & ops & Hret & ->).
  destruct (constructor E lib opts meta w0) as [r w1] eqn:Hc. simpl in Hret. subst r.
  pose proof (constructor_installs lib opts meta w0 tt w1 Hc) as Hin.
  pose proof (constructor_grows lib opts meta w0) as Hg. rewrite Hc in Hg. simpl in *.
  destruct (run_evolves fuel ops w1) as (_ & _ & Hok & Hinst).
  destruct Hg as (_ & _ & Hok1 & _).
  split.
  - apply Hok, Hok1. unfold emitters_ok. simpl. constructor.
  - now apply Hinst.
Qed.


(** *** Listeners *)

Lemma invoke_user (fuel : nat) (tag : nat) (payload : Value) (w : World) :
  invoke E (S fuel) (CbUser tag) payload w = (Ret tt, log [OCallback tag payload] w).
Proof. reflexivity. Qed.

Lemma forEach_users (fuel : nat) (payload : Value) (l : list IEventEmitter) (w : World) :
  Forall is_user l ->
  forEach (fun e => invoke E (S fuel) (callback e) payload) l w =
  (Ret tt, log (calls l payload) w).
Proof.
  revert w. induction l as [|e l IH]; intros w Hl.
  - simpl. now rewrite log_nil.
  - inversion Hl as [|? ? [tag Htag] Hl']; subst.
    cbn [forEach]. unfold bind. rewrite Htag, invoke_user.
    rewrite IH by assumption. rewrite log_log.
    unfold calls. cbn [omap list_omap]. now rewrite Htag.
Qed.

Lemma filter_placed (name : string) (l : list IEventEmitter) :
  Forall (fun e => well_placed e = true) l ->
  free_name name = true ->
  Forall is_user (List.filter (fun e => String.eqb (event e) name) l).
Proof.
  intros Hl Hname. induction Hl as [|e l He Hl IH]; simpl; [constructor|].
  destruct (String.eqb (event e) name) eqn:Heq; [|exact IH].
  constructor; [|exact IH].
  apply String.eqb_eq in Heq. unfold well_placed in He. rewrite Heq in He.
  unfold free_name in Hname.
  destruct (callback e) as [msg|p| | | |tag] eqn:Hcb;
    try (rewrite He in Hname; simpl in Hname; rewrite ?andb_false_r in Hname; discriminate).
  now exists tag.
Qed.

Lemma listeners_users (name : string) (c : Connector) :
  emitters_ok c -> free_name name = true -> Forall is_user (listeners name c).
Proof.
  intros Hc Hname. unfold listeners.
  pose proof (filter_placed name _ Hc Hname) as H1.
  pose proof (filter_placed "call_request" _ Hc eq_refl) as H2.
  destruct (List.filter _ _); assumption.
Qed.

(** An event of the connector's own making reaches the callbacks of the
    application only. *)
Lemma _triggerEvents_internal (fuel : nat) (name : string) (params : Value) (w : World) :
  emitters_ok (this w) ->
  free_name name = true ->
  name <> "" ->
  _triggerEvents E (S fuel) (internalEvent name params) w =
  (Ret tt, log (calls (listeners name (this w)) (internalEvent name params)) w).
Proof.
  intros Hok Hfree Hne.
  unfold _triggerEvents. remember (invoke E (S fuel)) as call eqn:Hcall.
  unfold _triggerEvents_with, internalEvent. simpl.
  cbv [bind read gets ret]. simpl.
  pose proof (nonempty_true _ Hne) as Hn. unfold nonempty in Hn. rewrite Hn.
  pose proof (listeners_users name (this w) Hok Hfree) as Hu. unfold listeners in Hu.
  unfold listeners. subst call.
  destruct (List.filter (fun e => String.eqb (event e) name) _) as [|e l] eqn:Hf;
    now rewrite forEach_users.
Qed.


(** *** The end of a session *)

Lemma _removeStorageSession_spec (w : World) :
  exists w',
    _removeStorageSession w = (Ret tt, w') /\ this w' = this w /\ slot w' = None.
Proof.
  unfold _removeStorageSession, modify, slot.
  destruct (storage w) as [items|] eqn:Hs; eexists; (split; [reflexivity|]); simpl.
  - split; [reflexivity|]. apply lookup_delete_eq.
  - now rewrite Hs.
Qed.

Lemma get_prop_total (v x : Value) (k k' : string) :
  get_prop v k = inr x -> exists y, get_prop v k' = inr y.
Proof. destruct v; simpl; intros H; try discriminate; eauto. Qed.

Lemma get_prop_truthy (v : Value) (k : string) :
  truthy v = true -> exists y, get_prop v k = inr y.
Proof. destruct v; simpl; intros H; try discriminate; eauto. Qed.

Lemma message_of_returns (sessionError : Value) (w : World) :
  exists message, message_of sessionError w = (Ret message, w).
Proof.
  unfold message_of. destruct (truthy sessionError) eqn:Ht.
  - destruct (get_prop_truthy sessionError "message" Ht) as [y Hy].
    rewrite Hy. now exists y.
  - now exists VNull.
Qed.

(** Sending a session request returns and leaves storage and the
    connected flag alone. *)
Lemma detach_sendSessionRequest (props : list (string * Value)) (errorMsg : string)
    (_topic : Value) (w : World) :
  exists w1,
    detach (_sendSessionRequest E (VObj props) errorMsg _topic) w = (Ret tt, w1)
    /\ storage w1 = storage w
    /\ _connected (this w1) = _connected (this w)
    /\ evolves w w1.
Proof.
  assert (Heq : exists w1,
             detach (_sendSessionRequest E (VObj props) errorMsg _topic) w = (Ret tt, w1)
             /\ storage w1 = storage w
             /\ _connected (this w1) = _connected (this w)).
  { unfold _sendSessionRequest, detach at 1.
    unfold bind at 1. unfold detach at 1. rewrite _sendRequest_eq.
    unfold _subscribeToSessionResponse, on_. simpl.
    cbv [bind read gets upd modify ret]. simpl.
    unfold emit, noted. simpl.
    destruct (cryptoLib (this w)) eqn:Hl, (_key (this w)) eqn:Hk,
      (_socket (this w)) eqn:Hs; simpl; rewrite ?Hs; simpl;
      eexists; (split; [reflexivity|]); simpl; auto. }
  destruct Heq as (w1 & Heq & Hst & Hcon).
  exists w1. split; [exact Heq|]. split; [exact Hst|]. split; [exact Hcon|].
  pose proof (keeps_detach _ evolves_trans evolves_log _
                (keeps__sendSessionRequest (VObj props) errorMsg _topic) w) as Hev.
  rewrite Heq in Hev. exact Hev.
Qed.

Lemma killSession_ends (fuel : nat) (sessionError : Value) (w : World) :
  emitters_ok (this w) ->
  connected w = true ->
  exists w', killSession E (S fuel) sessionError w = (Ret tt, w') /\ ended w'.
Proof.
  intros Hok Hc. unfold killSession.
  unfold bind at 1. unfold read at 1, gets at 1. unfold connected in Hc. rewrite Hc. simpl.
  destruct (message_of_returns sessionError w) as [message Hm].
  rewrite (bind_Ret _ _ _ _ _ Hm).
  unfold bind at 1. unfold _formatRequest at 1. unfold bind at 1, fresh at 1, ret at 1.
  simpl spread.
  match goal with
  | |- context [bind (detach (_sendSessionRequest E (VObj ?props) ?msg ?t)) _ ?w0] =>
      destruct (detach_sendSessionRequest props msg t w0) as (w1 & Hsend & Hst & Hcon & Hev)
  end.
  rewrite (bind_Ret _ _ _ _ _ Hsend).
  unfold bind at 1. unfold upd at 1, modify at 1.
  set (w2 := with_this (put_connected false (this w1)) w1).
  assert (Hok2 : emitters_ok (this w2)) by (apply Hev; exact Hok).
  rewrite (bind_Ret _ _ _ _ _
             (_triggerEvents_internal fuel "disconnect" _ w2 Hok2 eq_refl ltac:(discriminate))).
  match goal with
  | |- context [_removeStorageSession ?w3] =>
      destruct (_removeStorageSession_spec w3) as (w' & Hrm & Hthis & Hslot)
  end.
  exists w'. split; [exact Hrm|]. split; [|exact Hslot].
  unfold connected. now rewrite Hthis.
Qed.


Lemma ended_log (obs : list Obs) (w : World) : ended w -> ended (log obs w).
Proof. auto. Qed.

Lemma invoke_sessionUpdate (fuel : nat) (payload : Value) :
  invoke E (S fuel) CbWcSessionUpdate payload =
  (params <- lift (get_prop payload "params") ;;
   first <- lift (get_first params) ;;
   _handleSessionResponse E fuel first "Session disconnected").
Proof. reflexivity. Qed.

Lemma update_handler_ends (fuel : nat) (payload : Value) (w : World) :
  negative_update payload ->
  emitters_ok (this w) ->
  exists w',
    invoke E (S (S fuel)) CbWcSessionUpdate payload w = (Ret tt, w')
    /\ _eventEmitters (this w') = _eventEmitters (this w)
    /\ ended w'.
Proof.
  intros (_ & _ & params & sessionParams & approved & Hparams & Hfirst & Happroved & Hfalse) Hok.
  rewrite invoke_sessionUpdate. rewrite Hparams. simpl lift. unfold bind at 1. unfold ret at 1.
  rewrite Hfirst. simpl lift. unfold bind at 1. unfold ret at 1.
  unfold _handleSessionResponse, _handleSessionResponse_with. rewrite Happroved. simpl lift.
  unfold bind at 1. unfold ret at 1. rewrite Hfalse.
  unfold bind at 1. unfold upd at 1, modify at 1.
  destruct (get_prop_total sessionParams approved "approved" "message" Happroved) as [m Hm].
  rewrite Hm. simpl lift. unfold bind at 1. unfold ret at 1.
  set (w1 := with_this (put_connected false (this w)) w).
  assert (Hok1 : emitters_ok (this w1)) by exact Hok.
  rewrite (bind_Ret _ _ _ _ _
             (_triggerEvents_internal fuel "disconnect" _ w1 Hok1 eq_refl ltac:(discriminate))).
  unfold bind at 1. unfold observe at 1, modify at 1.
  match goal with
  | |- context [_removeStorageSession ?w3] =>
      destruct (_removeStorageSession_spec w3) as (w' & Hrm & Hthis & Hslot)
  end.
  exists w'. split; [exact Hrm|]. rewrite Hthis. simpl. split; [reflexivity|].
  split; [|exact Hslot]. unfold connected. now rewrite Hthis.
Qed.

Lemma update_listeners_run (fuel : nat) (payload : Value) (l : list IEventEmitter) (w : World) :
  negative_update payload ->
  Forall (fun e => callback e = CbWcSessionUpdate \/ is_user e) l ->
  emitters_ok (this w) ->
  exists w',
    forEach (fun e => invoke E (S (S fuel)) (callback e) payload) l w = (Ret tt, w')
    /\ _eventEmitters (this w') = _eventEmitters (this w)
    /\ (ended w \/ Exists (fun e => callback e = CbWcSessionUpdate) l -> ended w').
Proof.
  intros Hneg Hl. revert w. induction Hl as [|e l He Hl IH]; intros w Hok.
  - exists w. simpl. split; [reflexivity|]. split; [reflexivity|].
    intros [Hw|Hw]; [exact Hw|inversion Hw].
  - cbn [forEach].
    assert (Hhead : exists w1,
               invoke E (S (S fuel)) (callback e) payload w = (Ret tt, w1)
               /\ _eventEmitters (this w1) = _eventEmitters (this w)
               /\ (ended w \/ callback e = CbWcSessionUpdate -> ended w1)).
    { destruct He as [He|[tag He]]; rewrite He.
      - destruct (update_handler_ends fuel payload w Hneg Hok) as (w1 & H1 & H2 & H3).
        exists w1. auto.
      - eexists. split; [apply invoke_user|]. split; [reflexivity|].
        intros [Hw|Hw]; [now apply ended_log | discriminate]. }
    destruct Hhead as (w1 & Hrun & Hems & Hend).
    rewrite (bind_Ret _ _ _ _ _ Hrun).
    assert (Hok1 : emitters_ok (this w1)) by (unfold emitters_ok; now rewrite Hems).
    destruct (IH w1 Hok1) as (w' & Hrest & Hems' & Hend').
    exists w'. split; [exact Hrest|]. split; [congruence|].
    intros [Hw|Hw].
    + apply Hend'. left. apply Hend. now left.
    + apply Hend'. inversion Hw as [? ? Hx|? ? Hx]; subst.
      * left. apply Hend. now right.
      * now right.
Qed.

Lemma filter_sessionUpdate (l : list IEventEmitter) :
  Forall (fun e => well_placed e = true) l ->
  Forall (fun e => callback e = CbWcSessionUpdate \/ is_user e)
    (List.filter (fun e => String.eqb (event e) "wc_sessionUpdate") l).
Proof.
  intros Hl. induction Hl as [|e l He Hl IH]; simpl; [constructor|].
  destruct (String.eqb (event e) "wc_sessionUpdate") eqn:Heq; [|exact IH].
  constructor; [|exact IH].
  apply String.eqb_eq in Heq. unfold well_placed in He. rewrite Heq in He.
  destruct (callback e) as [msg|p| | | |tag] eqn:Hcb; try discriminate; auto.
  right. now exists tag.
Qed.

Lemma negative_update_ends (fuel : nat) (payload : Value) (w : World) :
  negative_update payload ->
  emitters_ok (this w) ->
  In sessionUpdate_listener (_eventEmitters (this w)) ->
  exists w', _triggerEvents E (S (S fuel)) payload w = (Ret tt, w') /\ ended w'.
Proof.
  intros Hneg Hok Hin.
  pose proof Hneg as (Hmethod & Hname & _).
  unfold _triggerEvents. remember (invoke E (S (S fuel))) as call eqn:Hcall.
  unfold _triggerEvents_with, isRpcRequest. rewrite Hmethod. simpl lift.
  unfold bind at 1. unfold ret at 1. rewrite Hname. simpl lift.
  cbv [bind read gets ret]. simpl truthy. cbv beta iota. unfold strict_eq_string.
  assert (Hf : In sessionUpdate_listener
                 (List.filter (fun e => String.eqb (event e) "wc_sessionUpdate")
                    (_eventEmitters (this w)))).
  { apply filter_In. split; [exact Hin | reflexivity]. }
  pose proof (filter_sessionUpdate _ Hok) as Hall.
  destruct (List.filter _ (_eventEmitters (this w))) as [|e l] eqn:Hfilter; [inversion Hf|].
  subst call.
  destruct (update_listeners_run fuel payload (e :: l) w Hneg Hall Hok) as (w' & Hrun & _ & Hend).
  exists w'. split; [exact Hrun|]. apply Hend. right.
  apply Exists_exists. exists sessionUpdate_listener. split; [|reflexivity].
  apply list_elem_of_In. exact Hf.
Qed.

(** C8.  In every world a connector can be in: [killSession], called on a
    connected session, returns and leaves the session not connected and
    the storage slot empty; so does the processing of an inbound
    [wc_sessionUpdate] request that is not approved. *)
Theorem session_end_erases (fuel : nat) (sessionError payload : Value) (w : World) :
  2 <= fuel ->
  reachable E fuel w ->
  (connected w = true ->
   exists w', killSession E fuel sessionError w = (Ret tt, w')
              /\ connected w' = false /\ slot w' = None)
  /\ (negative_update payload ->
      exists w', _triggerEvents E fuel payload w = (Ret tt, w')
                 /\ connected w' = false /\ slot w' = None).
Proof.
  intros Hfuel Hreach.
  destruct (reachable_listeners fuel w Hreach) as [Hok Hin].
  destruct fuel as [|[|fuel]]; [lia | lia |].
  split.
  - intros Hc. now apply killSession_ends.
  - intros Hneg. now apply negative_update_ends.
Qed.


(** *** Calls in the wrong state *)

(** X1.  On a connected session [createSession], [approveSession] and
    [rejectSession] throw "Session currently connected" and leave the
    world as it was: no key is generated, nothing is sent or stored. *)
Theorem connected_refuses (fuel : nat) (v : Value) (w : World) :
  connected w = true ->
  createSession E w = (Throw (JsError "Session currently connected"), w)
  /\ approveSession E fuel v w = (Throw (JsError "Session currently connected"), w)
  /\ rejectSession E fuel v w = (Throw (JsError "Session currently connected"), w).
Proof.
  unfold connected. intros Hc.
  unfold createSession, approveSession, rejectSession.
  cbv [bind read gets]. rewrite Hc. auto.
Qed.

(** X2.  On a session that is not connected [updateSession],
    [killSession], [sendTransaction], [signMessage] and [signTypedData]
    throw "Session currently disconnected" and leave the world as it was:
    no id is drawn, no listener registered, nothing sent. *)
Theorem disconnected_refuses (fuel : nat) (v : Value) (w : World) :
  connected w = false ->
  updateSession E fuel v w = (Throw (JsError "Session currently disconnected"), w)
  /\ killSession E fuel v w = (Throw (JsError "Session currently disconnected"), w)
  /\ sendTransaction E v w = (Throw (JsError "Session currently disconnected"), w)
  /\ signMessage E v w = (Throw (JsError "Session currently disconnected"), w)
  /\ signTypedData E v w = (Throw (JsError "Session currently disconnected"), w).
Proof.
  unfold connected. intros Hc.
  unfold updateSession, killSession, sendTransaction, signMessage, signTypedData.
  cbv [bind read gets]. rewrite Hc. simpl. auto.
Qed.

(** While a handshake is pending, [createSession] on a session that
    is not connected returns at once: it generates no key, draws no id and
    sends nothing, so calling it again does not start a second handshake. *)
Lemma createSession_pending_returns (w : World) :
  connected w = false ->
  pending w = true ->
  createSession E w = (Ret tt, w).
Proof.
  unfold connected, pending. intros Hc Hp.
  unfold createSession, get_pending. cbv [bind read gets ret]. rewrite Hc, Hp. reflexivity.
Qed.

(** *** The constructor *)

(** X3.  Without a bridge, a uri or a session in its options the
    constructor throws, also when a session waits in storage: storage is
    looked up only after the test. *)
Theorem constructor_requires_input (cryptoLib : option ICryptoLib)
    (opts : IWalletConnectOptions.t) (clientMeta : Value) (w : World) :
  truthy_string (IWalletConnectOptions.bridge opts) = false ->
  truthy_string (IWalletConnectOptions.uri opts) = false ->
  IWalletConnectOptions.session opts = None ->
  constructor E cryptoLib opts clientMeta w =
  (Throw (JsError "Missing one of two required parameters: bridge / uri / session"),
   with_this (new_Connector cryptoLib) w).
Proof.
  intros Hb Hu Hs. unfold constructor. rewrite Hb, Hu, Hs.
  cbv [bind modify when set_clientMeta ret throw present negb andb].
  destruct (truthy clientMeta); reflexivity.
Qed.

(** X4.  With a bridge alone and nothing in storage the constructor
    returns a connector that is neither connected nor pending, has the
    bridge, no key and an empty queue, listens for the three requests of
    the protocol and for nothing else, and has made its socket; it has
    drawn no entropy and written nothing. *)
Theorem constructor_with_bridge (cryptoLib : option ICryptoLib) (bridge : string)
    (clientMeta : Value) (w : World) :
  nonempty bridge = true ->
  slot w = None ->
  exists w' socket,
    constructor E cryptoLib
      {| IWalletConnectOptions.bridge := Some bridge;
         IWalletConnectOptions.uri := None;
         IWalletConnectOptions.session := None |} clientMeta w = (Ret tt, w')
    /\ this w' =
       put_eventEmitters
         [{| event := "wc_sessionRequest"; callback := CbWcSessionRequest |};
          {| event := "wc_sessionUpdate"; callback := CbWcSessionUpdate |};
          {| event := "wc_exchangeKey"; callback := CbWcExchangeKey |}]
         (put_bridge bridge (new_Connector cryptoLib))
    /\ connected w' = false /\ pending w' = false
    /\ websocket w' = Some socket
    /\ storage w' = storage w /\ sent w' = sent w /\ entropy w' = entropy w.
Proof.
  intros Hb Hslot. unfold constructor. simpl. rewrite Hb. simpl.
  unfold set_bridge, _getStorageSession, get_handshakeId, _subscribeToInternalEvents,
    on_, _socketOpen, get_bridge.
  rewrite Hb. unfold slot in Hslot.
  cbv [bind modify gets read upd when set_clientMeta ret].
  destruct (truthy clientMeta); simpl;
    (destruct (storage w) as [items|] eqn:Hst; simpl; rewrite ?Hst, ?Hslot; simpl;
     eexists; eexists; (split; [reflexivity|]); simpl; rewrite ?Hst; auto 10).
Qed.

(** *** The address of the socket *)

Lemma substring_all (s : string) : String.substring 0 (String.length s) s = s.
Proof. induction s as [|c s IH]; simpl; [reflexivity | now rewrite IH]. Qed.

Lemma prefix_weaken (a b s : string) :
  String.prefix (a +:+ b) s = true -> String.prefix a s = true.
Proof.
  revert s. induction a as [|x a IH]; intros s H.
  - destruct s; reflexivity.
  - change (String x a +:+ b) with (String x (a +:+ b)) in H.
    destruct s as [|c s]; cbn [String.prefix] in *; [discriminate|].
    destruct (ascii_dec x c); [now apply IH | discriminate].
Qed.

Lemma prefix_https (rest : string) : String.prefix "https" ("https" +:+ rest) = true.
Proof. destruct rest; reflexivity. Qed.

Lemma prefix_http (rest : string) : String.prefix "http" ("http" +:+ rest) = true.
Proof. destruct rest; reflexivity. Qed.

(** X5.  [_socketOpen] makes the socket for the bridge with [https] turned
    into [wss] and [http] into [ws]; a bridge of another scheme is taken
    as it is. *)
Theorem socketOpen_url (rest rest' other : string) (w : World) :
  String.prefix "https" ("http" +:+ rest') = false ->
  String.prefix "http" other = false ->
  let at_bridge b := with_this (put_bridge b (this w)) w in
  websocket (snd (_socketOpen (at_bridge ("https" +:+ rest))))
    = Some {| url := "wss" +:+ rest |}
  /\ websocket (snd (_socketOpen (at_bridge ("http" +:+ rest'))))
    = Some {| url := "ws" +:+ rest' |}
  /\ websocket (snd (_socketOpen (at_bridge other))) = Some {| url := other |}.
Proof.
  intros Hs Ho at_bridge. unfold _socketOpen, get_bridge, at_bridge.
  cbv [bind read gets modify]. simpl this. simpl _bridge.
  split; [|split].
  - rewrite prefix_https. unfold drop_chars. simpl.
    now rewrite Nat.sub_0_r, substring_all.
  - rewrite Hs, prefix_http. unfold drop_chars. simpl.
    now rewrite Nat.sub_0_r, substring_all.
  - assert (Hos : String.prefix "https" other = false).
    { destruct (String.prefix "https" other) eqn:Hp; [|reflexivity].
      rewrite (prefix_weaken "http" "s" other Hp) in Ho. discriminate. }
    now rewrite Hos, Ho.
Qed.


(** *** Frames in order *)

(** What the opening of the socket sends. *)
Lemma socket_onopen_spec (w : World) (socket : WebSocket) :
  websocket w = Some socket ->
  exists w',
    socket_onopen E w = (Ret tt, w')
    /\ sent w' =
       sent w ++ map (stringify_string E) (_queue (this w))
              ++ [stringify_string E
                    (socketMessage (VStr (_clientId (this w'))) "sub" (VStr ""))]
    /\ _clientId (this w') =
       (if nonempty (_clientId (this w)) then _clientId (this w) else uuid E (entropy w))
    /\ _queue (this w') = [].
Proof.
  intros Hws. unfold socket_onopen, get_clientId, _setToQueue, _dispatchQueue.
  cbv [bind gets read upd modify fresh ret]. rewrite Hws. simpl.
  destruct (nonempty (_clientId (this w))) eqn:Hc; simpl;
    erewrite forEach_socketSend by reflexivity; simpl;
    eexists; (split; [reflexivity|]); simpl;
    rewrite map_app; simpl; auto.
Qed.


Lemma websocket_noted (data : Value) (w : World) : websocket (noted data w) = websocket w.
Proof. unfold noted. destruct (cryptoLib (this w)), (_key (this w)); reflexivity. Qed.

Lemma send_step (s : Send) (w : World) :
  exists frame w1,
    send E s w = (Ret tt, emit E frame w1)
    /\ this w1 = this w /\ sent w1 = sent w /\ websocket w1 = websocket w
    /\ is_pub frame.
Proof.
  destruct s as [request _topic|response]; simpl.
  - eexists. eexists. split; [apply _sendRequest_eq|].
    rewrite this_noted, sent_noted, websocket_noted. simpl. repeat split.
    eexists. eexists. reflexivity.
  - eexists. eexists. split; [apply _sendResponse_eq|].
    rewrite this_noted, sent_noted, websocket_noted. repeat split.
    eexists. eexists. reflexivity.
Qed.

Lemma emit_around (frame : Value) (w : World) :
  websocket (emit E frame w) = websocket w
  /\ _clientId (this (emit E frame w)) = _clientId (this w).
Proof. unfold emit. destruct (_socket (this w)); simpl; auto. Qed.

(** X6.  Whatever is sent, request or response, with or without a key,
    leaves the connector as one [pub] frame each, in the order of the
    calls: onto the socket while it is open, to the end of the
    pre-connect queue while it is not; the other of the two is left
    alone. *)
Theorem sends_emit_in_order (l : list Send) (w : World) :
  exists w' frames,
    forEach (send E) l w = (Ret tt, w')
    /\ emitted E w w' frames
    /\ length frames = length l
    /\ Forall is_pub frames
    /\ _socket (this w') = _socket (this w)
    /\ websocket w' = websocket w
    /\ _clientId (this w') = _clientId (this w).
Proof.
  revert w. induction l as [|s l IH]; intros w.
  - exists w, []. simpl. repeat split; auto. now apply emitted_nil.
  - simpl.
    destruct (send_step s w) as (frame & w1 & Hsend & Hthis & Hsent & Hws & Hpub).
    destruct (emit_fields frame w1) as (_ & _ & _ & Hs).
    destruct (emit_around frame w1) as (Hws1 & Hc1).
    rewrite Hthis in Hs, Hc1.
    destruct (IH (emit E frame w1)) as (w' & frames & Hrun & Hem & Hlen & Hall & Hs' & Hws' & Hc').
    exists w', (frame :: frames).
    rewrite (bind_Ret _ _ _ _ _ Hsend).
    split; [exact Hrun|]. split.
    { change (frame :: frames) with ([frame] ++ frames).
      eapply emitted_trans; [exact Hs | now apply emitted_after | exact Hem]. }
    split; [simpl; now rewrite Hlen|].
    split; [now constructor|].
    repeat split; congruence.
Qed.

(** X7.  What is sent before the socket opens is not lost and not
    reordered: the frames wait in the queue behind those already there,
    nothing reaches the socket, and when the socket opens all of them are
    sent in that order, the subscription for [clientId] after them, and
    the queue is empty. *)
Theorem queued_frames_delivered_on_open (l : list Send) (w : World) (socket : WebSocket) :
  _socket (this w) = None ->
  websocket w = Some socket ->
  exists w1 w2 frames,
    forEach (send E) l w = (Ret tt, w1)
    /\ length frames = length l
    /\ sent w1 = sent w
    /\ _queue (this w1) = _queue (this w) ++ frames
    /\ socket_onopen E w1 = (Ret tt, w2)
    /\ sent w2 =
       sent w ++ map (stringify_string E) (_queue (this w) ++ frames)
              ++ [stringify_string E
                    (socketMessage (VStr (_clientId (this w2))) "sub" (VStr ""))]
    /\ _queue (this w2) = [].
Proof.
  intros Hs Hws.
  destruct (sends_emit_in_order l w) as (w1 & frames & Hrun & Hem & Hlen & _ & _ & Hws1 & _).
  unfold emitted in Hem. rewrite Hs in Hem. destruct Hem as [Hq Hsent].
  rewrite Hws in Hws1.
  destruct (socket_onopen_spec w1 socket Hws1) as (w2 & Hopen & Hsent2 & _ & Hq2).
  exists w1, w2, frames. rewrite Hsent, Hq in Hsent2. auto 10.
Qed.

(** *** Frames that are not dispatched *)

Lemma _decrypt_eq (envelope : Value) (w : World) :
  _decrypt envelope w = (Ret (unsealed envelope w), heard envelope w).
Proof.
  unfold _decrypt, unsealed, heard, bind, read, gets, observe, modify, log, ret.
  destruct (_key (this w)) as [k|], (cryptoLib (this w)) as [l|]; reflexivity.
Qed.

(** The part of [_socketReceive] behind the topic filter. *)
Lemma _socketReceive_active (fuel : nat) (data : string) (frame topic payload : Value)
    (w : World) :
  _clientId (this w) <> "" ->
  JSON_parse E data = Some frame ->
  get_prop frame "topic" = inr topic ->
  includes [_clientId (this w); _handshakeTopic (this w)] topic = true ->
  get_prop frame "payload" = inr payload ->
  _socketReceive E fuel data w =
  (envelope <- parse E (ToString payload) ;;
   payload <- _decrypt envelope ;;
   if truthy payload then _triggerEvents E fuel payload else ret tt) w.
Proof.
  intros Hc Hparse Htopic Hin Hpayload.
  unfold _socketReceive, get_clientId, get_handshakeTopic.
  unfold parse at 1. rewrite Hparse.
  unfold bind at 1. unfold ret at 1.
  unfold bind at 1. unfold bind at 1. unfold read at 1, gets at 1.
  rewrite (nonempty_true _ Hc). cbn [negb]. unfold bind at 1. unfold ret at 1.
  unfold read at 1, gets at 1.
  unfold bind at 1. unfold read at 1, gets at 1.
  rewrite Htopic. cbn [lift]. unfold bind at 1. unfold ret at 1.
  rewrite Hin. cbn [negb]. rewrite Hpayload. cbn [lift].
  unfold bind at 1. unfold ret at 1. reflexivity.
Qed.

(** X8.  A frame on an active topic whose envelope cannot be opened,
    because the connector has no key or no crypto library or because
    [decrypt] answers [null], is dropped: [_socketReceive] returns, no
    field of the connector, no promise and no storage changes, and no
    listener is called; the only trace is the call of [decrypt], if there
    was one. *)
Theorem undecryptable_frame_dropped (fuel : nat) (data : string)
    (frame topic payload envelope : Value) (w : World) :
  _clientId (this w) <> "" ->
  JSON_parse E data = Some frame ->
  get_prop frame "topic" = inr topic ->
  includes [_clientId (this w); _handshakeTopic (this w)] topic = true ->
  get_prop frame "payload" = inr payload ->
  JSON_parse E (ToString payload) = Some envelope ->
  truthy (unsealed envelope w) = false ->
  _socketReceive E fuel data w = (Ret tt, heard envelope w)
  /\ this (heard envelope w) = this w
  /\ storage (heard envelope w) = storage w
  /\ sent (heard envelope w) = sent w
  /\ promises (heard envelope w) = promises w
  /\ (console (heard envelope w) = console w
      \/ console (heard envelope w) = console w ++ [ODecrypt envelope])
  /\ (_key (this w) = None -> heard envelope w = w).
Proof.
  intros Hc Hparse Htopic Hin Hpayload Henv Hnull.
  rewrite (_socketReceive_active fuel data frame topic payload w Hc Hparse Htopic Hin Hpayload).
  unfold parse. rewrite Henv. unfold bind at 1. unfold ret at 1.
  rewrite (bind_Ret _ _ _ _ _ (_decrypt_eq envelope w)). rewrite Hnull.
  split; [reflexivity|].
  unfold heard. destruct (cryptoLib (this w)), (_key (this w)); simpl; repeat split; auto;
    discriminate.
Qed.

(** X9.  What [_socketReceive] does with text that is not a frame: text
    that is not JSON throws a syntax error; the JSON text [null] throws a
    type error at the read of its topic; a frame on an active topic whose
    payload is not JSON throws a syntax error.  In each case the world is
    as it was and nothing is dispatched. *)
Theorem malformed_frame_throws (fuel : nat) (junk nothing data : string)
    (frame topic payload : Value) (w : World) :
  _clientId (this w) <> "" ->
  JSON_parse E junk = None ->
  JSON_parse E nothing = Some VNull ->
  JSON_parse E data = Some frame ->
  get_prop frame "topic" = inr topic ->
  includes [_clientId (this w); _handshakeTopic (this w)] topic = true ->
  get_prop frame "payload" = inr payload ->
  JSON_parse E (ToString payload) = None ->
  _socketReceive E fuel junk w = (Throw SyntaxError, w)
  /\ _socketReceive E fuel nothing w = (Throw TypeError, w)
  /\ _socketReceive E fuel data w = (Throw SyntaxError, w).
Proof.
  intros Hc Hjunk Hnull Hparse Htopic Hin Hpayload Henv.
  split; [|split].
  - unfold _socketReceive, parse. now rewrite Hjunk.
  - unfold _socketReceive, parse, get_clientId, get_handshakeTopic. rewrite Hnull.
    cbv [bind read gets ret]. rewrite (nonempty_true _ Hc). reflexivity.
  - rewrite (_socketReceive_active fuel data frame topic payload w Hc Hparse Htopic Hin Hpayload).
    unfold parse. now rewrite Henv.
Qed.


(** *** What every method lets last *)

Lemma lasts_refl (w : World) : lasts w w.
Proof.
  unfold lasts. repeat split; auto.
  - exists []. now rewrite app_nil_r.
  - intros p pr H. exists pr. auto.
Qed.

Lemma lasts_trans (a b c : World) : lasts a b -> lasts b c -> lasts a c.
Proof.
  intros ([l1 H1] & Hp1 & Hl1 & Hr1 & Hv1) ([l2 H2] & Hp2 & Hl2 & Hr2 & Hv2).
  unfold lasts. repeat split; try congruence.
  - exists (l1 ++ l2). rewrite H2, H1. now rewrite <- app_assoc.
  - intros p pr Hp. destruct (Hp1 p pr Hp) as (pr1 & Hpr1 & Hs1).
    destruct (Hp2 p pr1 Hpr1) as (pr2 & Hpr2 & Hs2).
    exists pr2. split; [exact Hpr2|]. intros Hset.
    rewrite Hs2; [now apply Hs1 | rewrite (Hs1 Hset); exact Hset].
Qed.

Lemma lasts_around (w w' : World) :
  this w' = this w -> promises w' = promises w -> lasts w w'.
Proof.
  intros Ht Hp. unfold lasts. rewrite Ht, Hp. apply (lasts_refl w).
Qed.

Lemma lasts_log (w : World) (obs : list Obs) : lasts w (log obs w).
Proof. now apply lasts_around. Qed.

Lemma lasts_modify_around (f : World -> World) :
  (forall w, this (f w) = this w /\ promises (f w) = promises w) ->
  keeps lasts (modify f).
Proof. intros Hf w. simpl. destruct (Hf w). now apply lasts_around. Qed.

Lemma lasts_upd (f : Connector -> Connector) :
  (forall c, _eventEmitters (f c) = _eventEmitters c
             /\ cryptoLib (f c) = cryptoLib c
             /\ protocol (f c) = protocol c
             /\ version (f c) = version c) ->
  keeps lasts (upd f).
Proof.
  intros Hf w. simpl. destruct (Hf (this w)) as (He & Hl & Hr & Hv).
  unfold lasts. simpl. rewrite He. repeat split; auto.
  - exists []. now rewrite app_nil_r.
  - intros p pr H. exists pr. auto.
Qed.

Lemma lasts_fresh : keeps lasts fresh.
Proof. intros w. now apply lasts_around. Qed.

Lemma lasts_new_promise : keeps lasts new_promise.
Proof.
  intros w. unfold lasts. simpl. repeat split; auto.
  - exists []. now rewrite app_nil_r.
  - intros p pr H. exists pr. split; [|auto]. now apply lookup_app_l_Some.
Qed.

Lemma lasts_on_ (name : string) (cb : Callback) : keeps lasts (on_ name cb).
Proof.
  intros w. unfold on_, bind, read, gets, upd, modify, lasts. simpl.
  repeat split; auto.
  - eexists. reflexivity.
  - intros p pr H. exists pr. auto.
Qed.

Lemma lasts_await (p : nat) (k : Continuation) :
  keeps lasts (modify (fun w => with_promises (await_with p k (promises w)) w)).
Proof.
  intros w. unfold lasts. simpl. repeat split; auto.
  - exists []. now rewrite app_nil_r.
  - intros q pr H. unfold await_with.
    destruct (promises w !! p) as [pr0|] eqn:Hp; [|exists pr; auto].
    destruct (decide (p = q)) as [->|Hne].
    + rewrite H in Hp. injection Hp as <-.
      eexists. split; [apply list_lookup_insert_eq; now apply lookup_lt_Some in H|].
      reflexivity.
    + exists pr. split; [|auto]. now rewrite list_lookup_insert_ne.
Qed.

(** Settling a pending promise touches no settled one. *)
Lemma lasts_settle (p : nat) (st : PromiseState) (k : Continuation) (w : World) :
  promises w !! p = Some {| settled := Pending; awaiting := k |} ->
  lasts w (with_promises (settle p st (promises w)) w).
Proof.
  intros Hp. unfold lasts. simpl. repeat split; auto.
  - exists []. now rewrite app_nil_r.
  - intros q pr H. unfold settle. rewrite Hp.
    destruct (decide (p = q)) as [->|Hne].
    + rewrite H in Hp. injection Hp as ->.
      eexists. split; [apply list_lookup_insert_eq; now apply lookup_lt_Some in H|].
      simpl. intros Hset. now contradiction Hset.
    + exists pr. split; [|auto]. now rewrite list_lookup_insert_ne.
Qed.

Ltac lasts_upd_tac :=
  let c := fresh "c" in
  intros c; simpl; auto.

Ltac lasts_step :=
  match goal with
  | |- keeps _ (let _ := _ in _) => cbv zeta
  | |- keeps _ (bind _ _) => apply (keeps_bind _ lasts_trans); [ | intros ]
  | |- keeps _ (ret _) => apply (keeps_ret _ lasts_refl)
  | |- keeps _ (throw _) => apply (keeps_throw _ lasts_refl)
  | |- keeps _ (lift _) => apply (keeps_lift _ lasts_refl)
  | |- keeps _ (gets _) => apply (keeps_gets _ lasts_refl)
  | |- keeps _ (read _) => apply (keeps_read _ lasts_refl)
  | |- keeps _ (observe _) => apply (keeps_observe _ lasts_log)
  | |- keeps _ (when _ _) => apply (keeps_when _ lasts_refl)
  | |- keeps _ (void _) => apply (keeps_void _ lasts_refl lasts_trans)
  | |- keeps _ (detach _) => apply (keeps_detach _ lasts_trans lasts_log)
  | |- keeps _ (forEach _ _) =>
      apply (keeps_forEach _ lasts_refl lasts_trans); intros
  | |- keeps _ (fun w => (OutOfFuel, w)) => apply (keeps_stuck _ lasts_refl)
  | |- keeps _ fresh => apply lasts_fresh
  | |- keeps _ new_promise => apply lasts_new_promise
  | |- keeps _ (on_ _ _) => apply lasts_on_
  | |- keeps _ (upd _) => apply lasts_upd; lasts_upd_tac
  | |- keeps _ (modify (fun w => with_promises (await_with _ _ (promises w)) w)) =>
      apply lasts_await
  | |- keeps _ (modify _) =>
      apply lasts_modify_around;
      let w := fresh "w" in
      intros w; try (split; reflexivity); destruct (storage w); split; reflexivity
  | |- keeps _ (if ?b then _ else _) => destruct b
  | |- keeps _ (match ?x with _ => _ end) => destruct x
  | |- keeps _ _ => solve [auto with lasts]
  end.

Ltac lasts_tac := repeat lasts_step.

Create HintDb lasts.

Lemma lasts_parse (s : string) : keeps lasts (parse E s).
Proof. unfold parse. lasts_tac. Qed.
#[local] Hint Resolve lasts_parse : lasts.

Lemma lasts_set_bridge (value : string) : keeps lasts (set_bridge value).
Proof. unfold set_bridge. lasts_tac. Qed.
#[local] Hint Resolve lasts_set_bridge : lasts.

Lemma lasts_set_key (value : string) : keeps lasts (set_key E value).
Proof. unfold set_key. lasts_tac. Qed.
#[local] Hint Resolve lasts_set_key : lasts.

Lemma lasts_set_nextKey (value : Value) : keeps lasts (set_nextKey E value).
Proof. unfold set_nextKey. lasts_tac. Qed.
#[local] Hint Resolve lasts_set_nextKey : lasts.

Lemma lasts_set_clientId (value : string) : keeps lasts (set_clientId value).
Proof. unfold set_clientId. lasts_tac. Qed.
#[local] Hint Resolve lasts_set_clientId : lasts.

Lemma lasts_get_clientId : keeps lasts (get_clientId E).
Proof. unfold get_clientId. lasts_tac. Qed.
#[local] Hint Resolve lasts_get_clientId : lasts.

Lemma lasts_set_peerId (value : Value) : keeps lasts (set_peerId value).
Proof. unfold set_peerId. lasts_tac. Qed.
#[local] Hint Resolve lasts_set_peerId : lasts.

Lemma lasts_set_peerMeta (value : Value) : keeps lasts (set_peerMeta value).
Proof. unfold set_peerMeta. lasts_tac. Qed.
#[local] Hint Resolve lasts_set_peerMeta : lasts.

Lemma lasts_set_handshakeTopic (value : string) : keeps lasts (set_handshakeTopic value).
Proof. unfold set_handshakeTopic. lasts_tac. Qed.
#[local] Hint Resolve lasts_set_handshakeTopic : lasts.

Lemma lasts_set_handshakeId (value : Value) : keeps lasts (set_handshakeId value).
Proof. unfold set_handshakeId. lasts_tac. Qed.
#[local] Hint Resolve lasts_set_handshakeId : lasts.

Lemma lasts_set_chainId (value : Value) : keeps lasts (set_chainId value).
Proof. unfold set_chainId. lasts_tac. Qed.
#[local] Hint Resolve lasts_set_chainId : lasts.

Lemma lasts_set_accounts (value : Value) : keeps lasts (set_accounts value).
Proof. unfold set_accounts. lasts_tac. Qed.
#[local] Hint Resolve lasts_set_accounts : lasts.

Lemma lasts_set_clientMeta (value : Value) : keeps lasts (set_clientMeta value).
Proof. unfold set_clientMeta. lasts_tac. Qed.
#[local] Hint Resolve lasts_set_clientMeta : lasts.

Lemma lasts_get_key : keeps lasts (get_key E).
Proof. unfold get_key. lasts_tac. Qed.
#[local] Hint Resolve lasts_get_key : lasts.

Lemma lasts_get_nextKey : keeps lasts (get_nextKey E).
Proof. unfold get_nextKey. lasts_tac. Qed.
#[local] Hint Resolve lasts_get_nextKey : lasts.

Lemma lasts_get_clientMeta : keeps lasts (get_clientMeta E).
Proof. unfold get_clientMeta. lasts_tac. Qed.
#[local] Hint Resolve lasts_get_clientMeta : lasts.

Lemma lasts_get_pending : keeps lasts (get_pending).
Proof. unfold get_pending. lasts_tac. Qed.
#[local] Hint Resolve lasts_get_pending : lasts.

Lemma lasts__formatUri : keeps lasts (_formatUri E).
Proof. unfold _formatUri. lasts_tac. Qed.
#[local] Hint Resolve lasts__formatUri : lasts.

Lemma lasts__parseUri (uri : string) : keeps lasts (_parseUri E uri).
Proof. unfold _parseUri. lasts_tac. Qed.
#[local] Hint Resolve lasts__parseUri : lasts.

Lemma lasts_set_uri (value : string) : keeps lasts (set_uri E value).
Proof. unfold set_uri. lasts_tac. Qed.
#[local] Hint Resolve lasts_set_uri : lasts.

Lemma lasts_get_session : keeps lasts (get_session E).
Proof. unfold get_session. lasts_tac. Qed.
#[local] Hint Resolve lasts_get_session : lasts.

Lemma lasts_set_session (value : IWalletConnectSession.t) : keeps lasts (set_session E value).
Proof. unfold set_session. lasts_tac. Qed.
#[local] Hint Resolve lasts_set_session : lasts.

Lemma lasts__getStorageSession : keeps lasts (_getStorageSession E).
Proof. unfold _getStorageSession. lasts_tac. Qed.
#[local] Hint Resolve lasts__getStorageSession : lasts.

Lemma lasts__setStorageSession : keeps lasts (_setStorageSession E).
Proof. unfold _setStorageSession. lasts_tac. Qed.
#[local] Hint Resolve lasts__setStorageSession : lasts.

Lemma lasts__removeStorageSession : keeps lasts (_removeStorageSession).
Proof. unfold _removeStorageSession. lasts_tac. Qed.
#[local] Hint Resolve lasts__removeStorageSession : lasts.

Lemma lasts__generateKey : keeps lasts (_generateKey).
Proof. unfold _generateKey. lasts_tac. Qed.
#[local] Hint Resolve lasts__generateKey : lasts.

Lemma lasts__encrypt (data : Value) : keeps lasts (_encrypt data).
Proof. unfold _encrypt. lasts_tac. Qed.
#[local] Hint Resolve lasts__encrypt : lasts.

Lemma lasts__decrypt (payload : Value) : keeps lasts (_decrypt payload).
Proof. unfold _decrypt. lasts_tac. Qed.
#[local] Hint Resolve lasts__decrypt : lasts.

Lemma lasts__socketOpen : keeps lasts (_socketOpen).
Proof. unfold _socketOpen. lasts_tac. Qed.
#[local] Hint Resolve lasts__socketOpen : lasts.

Lemma lasts__socketSend (frame : Value) : keeps lasts (_socketSend E frame).
Proof. unfold _socketSend. lasts_tac. Qed.
#[local] Hint Resolve lasts__socketSend : lasts.

Lemma lasts__setToQueue (frame : Value) : keeps lasts (_setToQueue frame).
Proof. unfold _setToQueue. lasts_tac. Qed.
#[local] Hint Resolve lasts__setToQueue : lasts.

Lemma lasts__dispatchQueue : keeps lasts (_dispatchQueue E).
Proof. unfold _dispatchQueue. lasts_tac. Qed.
#[local] Hint Resolve lasts__dispatchQueue : lasts.

Lemma lasts_socket_onopen : keeps lasts (socket_onopen E).
Proof. unfold socket_onopen. lasts_tac. Qed.
#[local] Hint Resolve lasts_socket_onopen : lasts.

Lemma lasts__formatRequest (request : Value) : keeps lasts (_formatRequest E request).
Proof. unfold _formatRequest. lasts_tac. Qed.
#[local] Hint Resolve lasts__formatRequest : lasts.

Lemma lasts__sendRequest (request _topic : Value) : keeps lasts (_sendRequest E request _topic).
Proof. unfold _sendRequest. lasts_tac. Qed.
#[local] Hint Resolve lasts__sendRequest : lasts.

Lemma lasts__sendResponse (response : Value) : keeps lasts (_sendResponse E response).
Proof. unfold _sendResponse. lasts_tac. Qed.
#[local] Hint Resolve lasts__sendResponse : lasts.

Lemma lasts_on (name : string) (tag : nat) : keeps lasts (on name tag).
Proof. unfold on. lasts_tac. Qed.
#[local] Hint Resolve lasts_on : lasts.

Lemma lasts__subscribeToSessionRequest : keeps lasts (_subscribeToSessionRequest).
Proof. unfold _subscribeToSessionRequest. lasts_tac. Qed.
#[local] Hint Resolve lasts__subscribeToSessionRequest : lasts.

Lemma lasts__subscribeToSessionResponse (id : Value) (errorMsg : string) : keeps lasts (_subscribeToSessionResponse id errorMsg).
Proof. unfold _subscribeToSessionResponse. lasts_tac. Qed.
#[local] Hint Resolve lasts__subscribeToSessionResponse : lasts.

Lemma lasts__subscribeToCallResponse (id : Value) : keeps lasts (_subscribeToCallResponse id).
Proof. unfold _subscribeToCallResponse. lasts_tac. Qed.
#[local] Hint Resolve lasts__subscribeToCallResponse : lasts.

Lemma lasts__subscribeToInternalEvents : keeps lasts (_subscribeToInternalEvents).
Proof. unfold _subscribeToInternalEvents. lasts_tac. Qed.
#[local] Hint Resolve lasts__subscribeToInternalEvents : lasts.

Lemma lasts__sendSessionRequest (request : Value) (errorMsg : string) (_topic : Value) : keeps lasts (_sendSessionRequest E request errorMsg _topic).
Proof. unfold _sendSessionRequest. lasts_tac. Qed.
#[local] Hint Resolve lasts__sendSessionRequest : lasts.

Lemma lasts__sendCallRequest (request : Value) : keeps lasts (_sendCallRequest E request).
Proof. unfold _sendCallRequest. lasts_tac. Qed.
#[local] Hint Resolve lasts__sendCallRequest : lasts.

Lemma lasts__swapKey : keeps lasts (_swapKey E).
Proof. unfold _swapKey. lasts_tac. Qed.
#[local] Hint Resolve lasts__swapKey : lasts.

Lemma lasts__exchangeKey : keeps lasts (_exchangeKey E).
Proof. unfold _exchangeKey. lasts_tac. Qed.
#[local] Hint Resolve lasts__exchangeKey : lasts.

Lemma lasts__handleExchangeKeyRequest (payload : Value) : keeps lasts (_handleExchangeKeyRequest E payload).
Proof. unfold _handleExchangeKeyRequest. lasts_tac. Qed.
#[local] Hint Resolve lasts__handleExchangeKeyRequest : lasts.


Lemma lasts_resolve (p : nat) (v : Value) : keeps lasts (resolve E p v).
Proof.
  intros w. unfold resolve. cbv [bind gets].
  destruct (promises w !! p) as [[[| |] k]|] eqn:Hp; try apply lasts_refl.
  unfold modify at 1. cbv beta iota.
  eapply lasts_trans; [apply (lasts_settle p (Resolved v) k w Hp)|].
  destruct k; [apply lasts_refl | apply lasts__swapKey].
Qed.

Lemma lasts_reject (p : nat) (e : Error) : keeps lasts (reject p e).
Proof.
  intros w. unfold reject. cbv [bind gets].
  destruct (promises w !! p) as [[[| |] k]|] eqn:Hp; try apply lasts_refl.
  unfold modify at 1. cbv beta iota.
  eapply lasts_trans; [apply (lasts_settle p (Rejected e) k w Hp)|].
  destruct k; [apply lasts_refl | apply (keeps_observe _ lasts_log)].
Qed.
#[local] Hint Resolve lasts_resolve lasts_reject : lasts.

Lemma lasts__triggerEvents_with (call : Callback -> Value -> M unit) (payload : Value) :
  (forall cb p, keeps lasts (call cb p)) ->
  keeps lasts (_triggerEvents_with call payload).
Proof. intros Hcall. unfold _triggerEvents_with. lasts_tac. Qed.

Lemma lasts__handleSessionResponse_with (trigger : Value -> M unit)
    (sessionParams : Value) (errorMsg : string) :
  (forall p, keeps lasts (trigger p)) ->
  keeps lasts (_handleSessionResponse_with E trigger sessionParams errorMsg).
Proof. intros Htrigger. unfold _handleSessionResponse_with. lasts_tac. Qed.

Lemma lasts_invoke (fuel : nat) (cb : Callback) (payload : Value) :
  keeps lasts (invoke E fuel cb payload).
Proof.
  revert cb payload. induction fuel as [|fuel IH]; intros cb payload; simpl.
  - apply (keeps_stuck _ lasts_refl).
  - assert (Htrigger : forall p, keeps lasts (_triggerEvents_with (invoke E fuel) p)).
    { intros p. now apply lasts__triggerEvents_with. }
    destruct cb; lasts_tac; now apply lasts__handleSessionResponse_with.
Qed.
#[local] Hint Resolve lasts_invoke : lasts.

Lemma lasts__triggerEvents (fuel : nat) (payload : Value) :
  keeps lasts (_triggerEvents E fuel payload).
Proof. apply lasts__triggerEvents_with. intros. apply lasts_invoke. Qed.
#[local] Hint Resolve lasts__triggerEvents : lasts.

Lemma lasts_message_of (sessionError : Value) : keeps lasts (message_of sessionError).
Proof. unfold message_of. lasts_tac. Qed.
#[local] Hint Resolve lasts_message_of : lasts.

Lemma lasts_step_op (fuel : nat) (op : Op) : keeps lasts (step E fuel op).
Proof.
  destruct op; simpl;
    unfold get_uri, createSession, approveSession, rejectSession, updateSession,
      killSession, sendTransaction, signMessage, signTypedData, approveRequest,
      rejectRequest, _socketReceive;
    lasts_tac.
Qed.

Lemma run_lasts (fuel : nat) (ops : list Op) (w : World) : lasts w (run E fuel ops w).
Proof.
  revert w. induction ops as [|op ops IH]; intros w; simpl.
  - apply lasts_refl.
  - eapply lasts_trans; [apply lasts_step_op | apply IH].
Qed.

(** X10.  Listeners are never removed: after any sequence of calls on the
    connector the listeners registered before are still registered, in
    the same order, in front of those registered since. *)
Theorem listeners_never_removed (fuel : nat) (ops : list Op) (w : World) :
  exists l,
    _eventEmitters (this (run E fuel ops w)) = _eventEmitters (this w) ++ l.
Proof. exact (proj1 (run_lasts fuel ops w)). Qed.

(** X11.  The promise of a call settles once: a promise that is resolved
    or rejected keeps that outcome through every later call and every
    later frame, also a second response to the same id. *)
Theorem settled_promise_final (fuel : nat) (ops : list Op) (w : World)
    (p : nat) (pr : Promise) :
  promises w !! p = Some pr ->
  settled pr <> Pending ->
  exists pr',
    promises (run E fuel ops w) !! p = Some pr' /\ settled pr' = settled pr.
Proof.
  intros Hp Hset. destruct (run_lasts fuel ops w) as (_ & Hpr & _).
  destruct (Hpr p pr Hp) as (pr' & Hp' & Hs). exists pr'. auto.
Qed.


(** *** Who hears a payload *)

(** X12.  A request of the peer whose method the connector does not handle
    itself goes to the callbacks the application registered under that
    method, each once per registration and in the order of registration,
    and to those under [call_request] when there is none; nothing else
    changes. *)
Theorem request_reaches_listeners (fuel : nat) (method : string) (payload : Value)
    (w : World) :
  emitters_ok (this w) ->
  free_name method = true ->
  method <> "" ->
  in_op "method" payload = inr true ->
  get_prop payload "method" = inr (VStr method) ->
  _triggerEvents E (S fuel) payload w =
  (Ret tt, log (calls (listeners method (this w)) payload) w).
Proof.
  intros Hok Hfree Hne Hin Hget.
  unfold _triggerEvents. remember (invoke E (S fuel)) as call eqn:Hcall.
  unfold _triggerEvents_with, isRpcRequest.
  cbv [bind read gets ret lift]. rewrite Hin, Hget. simpl.
  pose proof (nonempty_true _ Hne) as Hn. unfold nonempty in Hn. rewrite Hn.
  pose proof (listeners_users method (this w) Hok Hfree) as Hu. unfold listeners in Hu.
  unfold listeners. subst call.
  destruct (List.filter (fun e => String.eqb (event e) method) _) as [|e l] eqn:Hf;
    now rewrite forEach_users.
Qed.

(** X13.  A payload that nothing waits for is handed to the [call_request]
    callbacks of the application: a response under whose id no listener
    is registered, and a payload that is neither request, response nor
    event, as an error response without [result]. *)
Theorem unclaimed_payload_reaches_call_request (fuel : nat) (payload : Value)
    (w : World) :
  emitters_ok (this w) ->
  unclaimed payload (this w) ->
  _triggerEvents E (S fuel) payload w =
  (Ret tt, log (calls (call_request_listeners (this w)) payload) w).
Proof.
  intros Hok (Hm & Hcase).
  pose proof (filter_placed "call_request" _ Hok eq_refl) as Hu.
  unfold _triggerEvents. remember (invoke E (S fuel)) as call eqn:Hcall.
  unfold _triggerEvents_with, isRpcRequest, isRpcResponse, isInternalEvent,
    call_request_listeners.
  cbv [bind read gets ret lift]. rewrite Hm.
  destruct Hcase as [(Hr & id & Hid & Hnone) | (Hr & He)].
  - rewrite Hr, Hid. cbn [truthy strict_eq_string].
    destruct (nonempty ("response:" +:+ ToString id)) eqn:Hn.
    + unfold nonempty in Hn. rewrite Hn. rewrite Hnone. subst call.
      now rewrite forEach_users.
    + unfold nonempty in Hn. rewrite Hn. subst call. now rewrite forEach_users.
  - rewrite Hr, He. simpl. subst call. now rewrite forEach_users.
Qed.


(** *** A call and its answer *)

Lemma filter_none_app (name : string) (l : list IEventEmitter) (e : IEventEmitter) :
  List.filter (fun x => String.eqb (event x) name) l = [] ->
  event e = name ->
  List.filter (fun x => String.eqb (event x) name) (l ++ [e]) = [e].
Proof.
  intros Hl He. rewrite List.filter_app, Hl. simpl.
  rewrite He, String.eqb_refl. reflexivity.
Qed.

Lemma _sendCallRequest_spec (props : list (string * Value)) (id : Value) (w : World) :
  get_prop (VObj props) "id" = inr id ->
  exists w1 payload,
    _sendCallRequest E (VObj props) w = (Ret (length (promises w)), w1)
    /\ promises w1 = promises w ++ [{| settled := Pending; awaiting := KReturn |}]
    /\ _eventEmitters (this w1) =
       _eventEmitters (this w) ++
       [{| event := "response:" +:+ ToString id;
           callback := CbCallResponse (length (promises w)) |}]
    /\ emitted E w w1 [socketMessage (_peerId (this w)) "pub" payload]
    /\ _connected (this w1) = _connected (this w)
    /\ _key (this w1) = _key (this w)
    /\ storage w1 = storage w
    /\ _nextKey (this w1) = _nextKey (this w)
    /\ sent w1 = sent w ++ match _socket (this w) with
                           | Some _ => [stringify_string E
                                          (socketMessage (_peerId (this w)) "pub" payload)]
                           | None => []
                           end
    /\ exists obs, console w1 = console w ++ obs.
Proof.
  intros Hid. unfold _sendCallRequest.
  unfold bind at 1. unfold detach at 1. rewrite _sendRequest_eq.
  cbv beta iota. rewrite Hid. cbn [lift].
  unfold _subscribeToCallResponse, new_promise, on_.
  cbv [bind read gets upd modify ret]. cbn [fst snd].
  unfold emitted, emit, noted, sealed. simpl.
  destruct (cryptoLib (this w)) eqn:Hl, (_key (this w)) eqn:Hk,
    (_socket (this w)) eqn:Hs; simpl;
    rewrite ?Hs; simpl; eexists; eexists; repeat split;
    first [ reflexivity | exact Hk | symmetry; apply app_nil_r
          | eexists; reflexivity | exists []; symmetry; apply app_nil_r ].
Qed.

Lemma call_eq (c : Call) (w : World) :
  connected w = true ->
  call E c w =
  _sendCallRequest E
    (VObj (spread [("id", VNum (payloadId E (entropy w))); ("jsonrpc", VStr "2.0")]
             (request_of c)))
    (with_entropy (S (entropy w)) w).
Proof.
  unfold connected. intros Hc.
  destruct c; simpl; unfold sendTransaction, signMessage, signTypedData, _formatRequest;
    cbv [bind read gets fresh ret]; rewrite Hc; reflexivity.
Qed.

Lemma spread_id (id : Value) (c : Call) :
  get_prop (VObj (spread [("id", id); ("jsonrpc", VStr "2.0")] (request_of c))) "id"
  = inr id.
Proof. destruct c; reflexivity. Qed.

Lemma invoke_callResponse (fuel : nat) (p : nat) (payload result : Value) (w : World) :
  get_prop payload "result" = inr result ->
  promises w !! p = Some {| settled := Pending; awaiting := KReturn |} ->
  invoke E (S fuel) (CbCallResponse p) payload w =
  (Ret tt, with_promises (settle p (outcome_of result) (promises w)) w).
Proof.
  intros Hr Hp. cbn [invoke]. rewrite Hr. cbn [lift].
  unfold bind at 1. unfold ret at 1. unfold outcome_of.
  destruct (truthy result); unfold resolve, reject; cbv [bind gets modify ret];
    rewrite Hp; reflexivity.
Qed.

(** X14.  A call and its answer.  While connected, [sendTransaction],
    [signMessage] and [signTypedData] send one frame to the peer and
    return a pending promise; when the response with the id of the request
    comes in, the promise resolves to its [result], or is rejected with
    "Invalid JSON RPC response format received" when the result is falsy.
    No other listener may wait under that id. *)
Theorem call_round_trip (fuel : nat) (c : Call) (response result : Value) (w : World) :
  let id := VNum (payloadId E (entropy w)) in
  connected w = true ->
  registered ("response:" +:+ ToString id) (this w) = [] ->
  answers response id result ->
  exists p w1 w2 payload,
    call E c w = (Ret p, w1)
    /\ promises w1 !! p = Some {| settled := Pending; awaiting := KReturn |}
    /\ emitted E w w1 [socketMessage (_peerId (this w)) "pub" payload]
    /\ _triggerEvents E (S fuel) response w1 = (Ret tt, w2)
    /\ promises w2 !! p = Some {| settled := outcome_of result; awaiting := KReturn |}
    /\ this w2 = this w1.
Proof.
  intros id Hc Hnone (Hm & Hr & Hid & Hres).
  rewrite (call_eq c w Hc).
  destruct (_sendCallRequest_spec _ id (with_entropy (S (entropy w)) w) (spread_id id c))
    as (w1 & payload & Hsend & Hp & He & Hem & _).
  cbn [promises this with_entropy] in Hsend, Hp, He.
  assert (Hlook : promises w1 !! length (promises w)
                  = Some {| settled := Pending; awaiting := KReturn |}).
  { rewrite Hp. apply list_lookup_middle. reflexivity. }
  exists (length (promises w)), w1,
    (with_promises (settle (length (promises w)) (outcome_of result) (promises w1)) w1),
    payload.
  split; [exact Hsend|]. split; [exact Hlook|]. split; [exact Hem|].
  split; [|split; [|reflexivity]].
  - unfold _triggerEvents. remember (invoke E (S fuel)) as run_cb eqn:Hrun.
    unfold _triggerEvents_with, isRpcRequest, isRpcResponse.
    cbv [bind read gets ret lift]. rewrite Hm, Hr, Hid.
    cbn [truthy]. fold id.
    assert (Hn : String.eqb ("response:" +:+ ToString id) "" = false) by reflexivity.
    rewrite Hn. cbn [negb strict_eq_string].
    unfold registered in Hnone. rewrite He.
    erewrite filter_none_app; [ | exact Hnone | reflexivity ].
    cbn [forEach callback]. subst run_cb. unfold bind.
    rewrite (invoke_callResponse fuel _ response result w1 Hres Hlook). reflexivity.
  - cbn [promises with_promises]. unfold settle. rewrite Hlook.
    rewrite list_lookup_insert_eq; [reflexivity|].
    rewrite Hp, length_app. simpl. lia.
Qed.


(** *** The snapshot of the session *)

Lemma get_session_eq (w : World) :
  get_session E w = (Ret (snapshot E (this (filled E w))), filled E w).
Proof.
  unfold get_session, get_connected, get_accounts, get_chainId, get_bridge, get_key,
    get_clientId, get_clientMeta, get_peerId, get_peerMeta, get_handshakeId,
    get_handshakeTopic, filled, snapshot, hex_of.
  cbv [bind gets read upd modify fresh ret].
  destruct (_key (this w)) eqn:Hk, (nonempty (_clientId (this w))) eqn:Hc,
    (truthy (_clientMeta (this w))) eqn:Hm;
    simpl; rewrite ?Hc; simpl; rewrite ?Hm; simpl; rewrite ?Hk; reflexivity.
Qed.

Lemma _setStorageSession_eq (w : World) :
  _setStorageSession E w = (Ret (snapshot E (this (filled E w))), stored E (filled E w)).
Proof.
  unfold _setStorageSession. rewrite (bind_Ret _ _ _ _ _ (get_session_eq w)).
  unfold stored. cbv [bind modify ret]. destruct (storage (filled E w)); reflexivity.
Qed.

Lemma filled_same (w : World) :
  same_session (this w) (this (filled E w))
  /\ storage (filled E w) = storage w /\ sent (filled E w) = sent w
  /\ console (filled E w) = console w /\ promises (filled E w) = promises w
  /\ websocket (filled E w) = websocket w.
Proof.
  unfold filled, same_session.
  destruct (nonempty (_clientId (this w))); cbn;
    destruct (truthy (_clientMeta (this w))); cbn; repeat split; reflexivity.
Qed.

Lemma stored_same (w : World) :
  this (stored E w) = this w /\ sent (stored E w) = sent w
  /\ console (stored E w) = console w /\ promises (stored E w) = promises w
  /\ websocket (stored E w) = websocket w.
Proof. unfold stored. destruct (storage w); repeat split; reflexivity. Qed.

Lemma slot_stored (w : World) :
  storage w <> None ->
  slot (stored E w) = Some (stringify_string E (snapshot E (this w))).
Proof.
  intros Hs. unfold stored, slot. destruct (storage w) as [items|]; [|contradiction].
  simpl. apply lookup_insert_eq.
Qed.


(** *** The life of a session *)

Lemma put_queue_id (c : Connector) : put_queue (_queue c) c = c.
Proof. destruct c; reflexivity. Qed.

Lemma emit_this (frame : Value) (w : World) :
  exists q, this (emit E frame w) = put_queue q (this w).
Proof.
  unfold emit. destruct (_socket (this w)); simpl.
  - exists (_queue (this w)). now rewrite put_queue_id.
  - eexists. reflexivity.
Qed.

Lemma emit_same (frame : Value) (w : World) :
  storage (emit E frame w) = storage w
  /\ console (emit E frame w) = console w
  /\ promises (emit E frame w) = promises w
  /\ entropy (emit E frame w) = entropy w.
Proof. unfold emit. destruct (_socket (this w)); simpl; auto. Qed.

Lemma noted_same (data : Value) (w : World) :
  storage (noted data w) = storage w /\ promises (noted data w) = promises w
  /\ entropy (noted data w) = entropy w.
Proof. unfold noted. destruct (cryptoLib (this w)), (_key (this w)); auto. Qed.

Lemma approveSession_eq (fuel : nat) (sessionStatus chainId accounts : Value) (w : World) :
  let result := VObj [("approved", VBool true); ("chainId", chainId);
                      ("accounts", accounts); ("message", VNull)] in
  let response := VObj [("id", _handshakeId (this w)); ("jsonrpc", VStr "2.0");
                        ("result", result)] in
  let connect := internalEvent "connect"
                   (VObj [("peerId", _peerId (this w)); ("peerMeta", _peerMeta (this w));
                          ("chainId", chainId); ("accounts", accounts)]) in
  let w0 := with_this (put_accounts accounts (put_chainId chainId (this w))) w in
  let w1 := emit E (socketMessage (_peerId (this w)) "pub"
                      (stringify_value E (sealed response w)))
                 (noted response w0) in
  let w2 := with_this (put_connected true (this w1)) w1 in
  _connected (this w) = false ->
  emitters_ok (this w) ->
  get_prop sessionStatus "chainId" = inr chainId ->
  get_prop sessionStatus "accounts" = inr accounts ->
  approveSession E (S fuel) sessionStatus w =
  (Ret tt, stored E (filled E (log (calls (listeners "connect" (this w)) connect) w2))).
Proof.
  intros result response connect w0 w1 w2 Hc Hok Hch Hacc.
  destruct (emit_this (socketMessage (_peerId (this w)) "pub"
                         (stringify_value E (sealed response w)))
                      (noted response w0)) as [q Hq].
  fold w1 in Hq. rewrite this_noted in Hq. cbn [this w0 with_this] in Hq.
  assert (Ht : _triggerEvents E (S fuel) connect w2
               = (Ret tt, log (calls (listeners "connect" (this w)) connect) w2)).
  { unfold connect. rewrite (_triggerEvents_internal fuel "connect" _ w2); try reflexivity.
    - unfold w2. cbn [this with_this]. rewrite Hq. reflexivity.
    - unfold w2. cbn [this with_this]. rewrite Hq. exact Hok.
    - discriminate. }
  unfold approveSession.
  cbv [bind read gets upd modify ret set_chainId set_accounts get_chainId get_accounts
       get_handshakeId get_peerId get_peerMeta].
  rewrite Hc, Hch, Hacc. cbn [lift ret this with_this].
  unfold detach at 1. rewrite _sendResponse_eq.
  change (emit E _ _) with w1. cbv beta iota.
  change (with_this (put_connected true (this w1)) w1) with w2.
  rewrite Hq. cbn [_peerId _peerMeta _chainId _accounts put_connected put_queue
                   put_accounts put_chainId].
  fold connect. rewrite Ht. rewrite _setStorageSession_eq. reflexivity.
Qed.

(** X15.  The wallet approves.  On a connector that is not connected,
    [approveSession] takes chain and accounts from its argument, sends one
    response to the peer under the id of the handshake with
    [approved: true], turns connected, tells the [connect] listeners
    peer, chain and accounts, and writes the session to the slot; called
    again it throws "Session currently connected" and changes nothing. *)
Theorem approveSession_connects (fuel : nat) (sessionStatus chainId accounts : Value)
    (w : World) :
  let result := VObj [("approved", VBool true); ("chainId", chainId);
                      ("accounts", accounts); ("message", VNull)] in
  let response := VObj [("id", _handshakeId (this w)); ("jsonrpc", VStr "2.0");
                        ("result", result)] in
  let connect := internalEvent "connect"
                   (VObj [("peerId", _peerId (this w)); ("peerMeta", _peerMeta (this w));
                          ("chainId", chainId); ("accounts", accounts)]) in
  connected w = false ->
  emitters_ok (this w) ->
  get_prop sessionStatus "chainId" = inr chainId ->
  get_prop sessionStatus "accounts" = inr accounts ->
  exists w',
    approveSession E (S fuel) sessionStatus w = (Ret tt, w')
    /\ connected w' = true
    /\ _chainId (this w') = chainId
    /\ _accounts (this w') = accounts
    /\ emitted E w w'
         [socketMessage (_peerId (this w)) "pub" (stringify_value E (sealed response w))]
    /\ console w' = console (noted response w) ++ calls (listeners "connect" (this w)) connect
    /\ (storage w <> None -> slot w' = Some (stringify_string E (snapshot E (this w'))))
    /\ approveSession E (S fuel) sessionStatus w'
       = (Throw (JsError "Session currently connected"), w').
Proof.
  intros result response connect Hc Hok Hch Hacc. unfold connected in Hc.
  pose proof (approveSession_eq fuel sessionStatus chainId accounts w Hc Hok Hch Hacc) as Hrun.
  cbv zeta in Hrun. fold result response connect in Hrun.
  set (w0 := with_this (put_accounts accounts (put_chainId chainId (this w))) w) in Hrun.
  set (frame := socketMessage (_peerId (this w)) "pub"
                  (stringify_value E (sealed response w))) in *.
  set (w1 := emit E frame (noted response w0)) in Hrun.
  set (w2 := with_this (put_connected true (this w1)) w1) in Hrun.
  set (w3 := log (calls (listeners "connect" (this w)) connect) w2) in Hrun.
  destruct (emit_this frame (noted response w0)) as [q Hq].
  fold w1 in Hq. rewrite this_noted in Hq. cbn [this w0 with_this] in Hq.
  destruct (filled_same w3) as (Hsame & Hfst & Hfse & Hfco & Hfpr & Hfws).
  destruct (stored_same (filled E w3)) as (Hsth & Hsse & Hsco & Hspr & Hsws).
  destruct Hsame as (Hl & Hb & Hk & Hnk & Hpi & Hpm & Hhi & Hht & Hac & Hci & Hso & Hqu
                     & Hee & Hcn).
  assert (Hthis3 : this w3 = put_connected true (put_queue q
                     (put_accounts accounts (put_chainId chainId (this w))))).
  { unfold w3, w2. cbn [this log with_console with_this]. now rewrite Hq. }
  assert (Hcon : connected (stored E (filled E w3)) = true).
  { unfold connected. rewrite Hsth, Hcn, Hthis3. reflexivity. }
  exists (stored E (filled E w3)). split; [exact Hrun|]. split; [exact Hcon|].
  split; [rewrite Hsth, Hci, Hthis3; reflexivity|].
  split; [rewrite Hsth, Hac, Hthis3; reflexivity|].
  split.
  { unfold emitted. rewrite Hsth, Hqu, Hsse, Hfse.
    unfold w3, w2. cbn [this log with_console with_this sent].
    unfold w1, emit. rewrite this_noted, sent_noted. cbn [this w0 with_this sent].
    change (_socket (put_accounts accounts (put_chainId chainId (this w))))
      with (_socket (this w)).
    destruct (_socket (this w)); cbn; rewrite ?this_noted, ?sent_noted; auto. }
  split.
  { rewrite Hsco, Hfco. unfold w3, w2. cbn [console log with_console with_this].
    destruct (emit_same frame (noted response w0)) as (_ & Hco & _).
    fold w1 in Hco. rewrite Hco. unfold noted. cbn [this w0 with_this].
    change (cryptoLib (put_accounts accounts (put_chainId chainId (this w))))
      with (cryptoLib (this w)).
    change (_key (put_accounts accounts (put_chainId chainId (this w))))
      with (_key (this w)).
    destruct (cryptoLib (this w)), (_key (this w)); reflexivity. }
  split.
  { intros Hst. rewrite Hsth. apply slot_stored. rewrite Hfst.
    unfold w3, w2. cbn [storage log with_console with_this].
    destruct (emit_same frame (noted response w0)) as (Hs & _).
    fold w1 in Hs. rewrite Hs.
    destruct (noted_same response w0) as (Hs' & _). rewrite Hs'. exact Hst. }
  unfold approveSession. unfold bind at 1. unfold read at 1, gets at 1.
  unfold connected in Hcon. rewrite Hcon. reflexivity.
Qed.


Lemma sealed_ext (data : Value) (a b : World) :
  cryptoLib (this a) = cryptoLib (this b) ->
  _key (this a) = _key (this b) ->
  sealed data a = sealed data b.
Proof. unfold sealed. now intros -> ->. Qed.

Lemma _sendSessionRequest_spec (props : list (string * Value)) (id : Value)
    (errorMsg : string) (_topic : Value) (w : World) :
  get_prop (VObj props) "id" = inr id ->
  let callRequest :=
    VObj (spread [("id", VNum (payloadId E (entropy w))); ("jsonrpc", VStr "2.0")]
            (VObj props)) in
  exists w1 q,
    detach (_sendSessionRequest E (VObj props) errorMsg _topic) w = (Ret tt, w1)
    /\ this w1 =
       put_eventEmitters
         (_eventEmitters (this w) ++
          [{| event := "response:" +:+ ToString id;
              callback := CbSessionResponse errorMsg |}])
         (put_queue q (this w))
    /\ emitted E w w1
         [socketMessage (or_else _topic (_peerId (this w))) "pub"
            (stringify_value E (sealed callRequest w))]
    /\ storage w1 = storage w
    /\ promises w1 = promises w
    /\ console w1 = console (noted callRequest w).
Proof.
  intros Hid callRequest. unfold _sendSessionRequest, detach at 1.
  unfold bind at 1. unfold detach at 1. rewrite _sendRequest_eq.
  cbv beta iota. rewrite Hid. cbn [lift].
  unfold _subscribeToSessionResponse, on_.
  cbv [bind read gets upd modify ret]. cbn [fst snd].
  unfold emitted, emit, noted, sealed. simpl.
  destruct (cryptoLib (this w)) eqn:Hl, (_key (this w)) eqn:Hk,
    (_socket (this w)) eqn:Hs; simpl;
    rewrite ?Hs; simpl; eexists; eexists;
    (split; [reflexivity|]); simpl;
    (split; [first [reflexivity | now rewrite put_queue_id]|]);
    repeat split; reflexivity.
Qed.

(** Reduce the projections of updated records. *)
Ltac fields :=
  cbv beta iota;
  cbn [cryptoLib protocol version _bridge _key _nextKey _clientId _clientMeta _peerId
       _peerMeta _handshakeId _handshakeTopic _accounts _chainId _socket _queue
       _eventEmitters _connected
       this storage websocket sent promises console entropy
       put_bridge put_key put_nextKey put_clientId put_clientMeta put_peerId put_peerMeta
       put_handshakeId put_handshakeTopic put_accounts put_chainId put_socket put_queue
       put_eventEmitters put_connected
       with_this with_storage with_websocket with_sent with_promises with_console
       with_entropy negb option_map].

Lemma truthy_id (z : Z) : z <> 0%Z -> truthy (VNum z) = true.
Proof. intros Hz. simpl. now apply negb_true_iff, Z.eqb_neq. Qed.

(** [createSession] up to the sending of the request. *)
Lemma createSession_prefix (w : World) :
  _connected (this w) = false ->
  nonempty (_handshakeTopic (this w)) = false ->
  (forall n, uuid E n <> "") ->
  (forall n, payloadId E n <> 0%Z) ->
  exists w0 n,
    createSession E w =
    (detach (_sendSessionRequest E
               (VObj [("id", VNum (payloadId E n)); ("jsonrpc", VStr "2.0");
                      ("method", VStr "wc_sessionRequest");
                      ("params", VArr [VObj [("peerId", VStr (_clientId (this w0)));
                                             ("peerMeta", _clientMeta (this w0))]])])
               "Session update rejected" (VStr (_handshakeTopic (this w0)))) ;;
     _setStorageSession E ;;
     ret tt)%conn w0
    /\ _handshakeId (this w0) = VNum (payloadId E n)
    /\ nonempty (_handshakeTopic (this w0)) = true
    /\ _key (this w0) = option_map (fun lib => generateKey lib (entropy w)) (cryptoLib (this w))
    /\ cryptoLib (this w0) = cryptoLib (this w)
    /\ _connected (this w0) = false
    /\ _eventEmitters (this w0) = _eventEmitters (this w)
    /\ _socket (this w0) = _socket (this w)
    /\ _queue (this w0) = _queue (this w)
    /\ sent w0 = sent w
    /\ storage w0 = storage w.
Proof.
  intros Hc Hp Huuid Hid.
  assert (Hu : forall n, nonempty (uuid E n) = true) by (intros; now apply nonempty_true).
  assert (Hi : forall n, truthy (VNum (payloadId E n)) = true)
    by (intros; now apply truthy_id).
  unfold createSession, get_pending, _generateKey, get_clientId, get_clientMeta,
    _formatRequest, set_handshakeId, set_handshakeTopic, get_handshakeTopic.
  cbv [bind read gets upd modify ret fresh observe]. rewrite Hc, Hp. cbv beta iota.
  destruct (cryptoLib (this w)) as [lib|] eqn:Hl;
    destruct (nonempty (_clientId (this w))) eqn:Hcl; fields; rewrite ?Hcl; fields;
    destruct (truthy (_clientMeta (this w))) eqn:Hm; fields;
    cbn [spread fold_left set_prop fst snd String.eqb Ascii.eqb Bool.eqb lift get_prop
         assoc default from_option id];
    cbv [ret]; fields; rewrite Hi; fields; rewrite Hu; fields;
    match goal with
    | |- context [detach (_sendSessionRequest E
                            (VObj (("id", VNum (payloadId E ?n)) :: _)) _ _) ?w0] =>
        exists w0, n
    end;
    (split; [unfold bind; reflexivity|]); fields; rewrite ?Hu, ?Hl, ?Hc;
    repeat split; reflexivity.
Qed.

(** X16.  The dapp asks for a session.  On a connector that is neither
    connected nor in a handshake, [createSession] generates a key, takes a
    fresh handshake topic and a fresh id, sends one [wc_sessionRequest]
    under the new key to the handshake topic, waits for the response under
    the id of the request, and writes the session to the slot; called
    again it does nothing. *)
Theorem createSession_requests (w : World) :
  connected w = false ->
  pending w = false ->
  (forall n, uuid E n <> "") ->
  (forall n, payloadId E n <> 0%Z) ->
  exists w' request,
    createSession E w = (Ret tt, w')
    /\ connected w' = false
    /\ pending w' = true
    /\ _key (this w') = option_map (fun lib => generateKey lib (entropy w)) (cryptoLib (this w))
    /\ get_prop request "method" = inr (VStr "wc_sessionRequest")
    /\ get_prop request "id" = inr (_handshakeId (this w'))
    /\ emitted E w w'
         [socketMessage (VStr (_handshakeTopic (this w'))) "pub"
            (stringify_value E (sealed request w'))]
    /\ _eventEmitters (this w') =
       _eventEmitters (this w) ++
       [{| event := "response:" +:+ ToString (_handshakeId (this w'));
           callback := CbSessionResponse "Session update rejected" |}]
    /\ (storage w <> None -> slot w' = Some (stringify_string E (snapshot E (this w'))))
    /\ createSession E w' = (Ret tt, w').
Proof.
  unfold connected, pending. intros Hc Hp Huuid Hid.
  destruct (createSession_prefix w Hc Hp Huuid Hid)
    as (w0 & n & Hrun & Hhi & Hht & Hk & Hl & Hcn & Hee & Hso & Hqu & Hse & Hst).
  match type of Hrun with
  | _ = bind (detach (_sendSessionRequest E (VObj ?props) ?msg ?t)) _ _ =>
      destruct (_sendSessionRequest_spec props (VNum (payloadId E n)) msg t w0 eq_refl)
        as (w1 & q & Hsend & Hthis1 & Hem & Hst1 & _);
      set (request := VObj props) in *
  end.
  rewrite (bind_Ret _ _ _ _ _ Hsend) in Hrun.
  rewrite (bind_Ret _ _ _ _ _ (_setStorageSession_eq w1)) in Hrun.
  unfold ret in Hrun.
  destruct (filled_same w1) as (Hsame & Hfst & Hfse & _).
  destruct (stored_same (filled E w1)) as (Hsth & Hsse & _).
  destruct Hsame as (Hl' & _ & Hk' & _ & _ & _ & Hhi' & Hht' & _ & _ & Hso' & Hqu'
                     & Hee' & Hcn').
  rewrite Hthis1 in Hl', Hk', Hhi', Hht', Hso', Hqu', Hee', Hcn'.
  cbn [cryptoLib _key _handshakeId _handshakeTopic _socket _queue _eventEmitters
       _connected put_eventEmitters put_queue] in Hl', Hk', Hhi', Hht', Hso', Hqu', Hee', Hcn'.
  assert (Hpend : nonempty (_handshakeTopic (this (stored E (filled E w1)))) = true).
  { now rewrite Hsth, Hht'. }
  assert (Hconn : _connected (this (stored E (filled E w1))) = false).
  { now rewrite Hsth, Hcn'. }
  exists (stored E (filled E w1)), request.
  split; [exact Hrun|]. split; [exact Hconn|]. split; [exact Hpend|].
  split; [now rewrite Hsth, Hk'|]. split; [reflexivity|].
  split; [now rewrite Hsth, Hhi', Hhi|].
  split.
  { rewrite Hsth, Hht'.
    rewrite (sealed_ext request (stored E (filled E w1)) w0)
      by (rewrite Hsth; assumption).
    unfold emitted in *. rewrite Hso in Hem. rewrite Hsth, Hqu', Hsse, Hfse.
    change (spread _ request) with
      (match request with VObj props => props | _ => [] end) in Hem.
    change (VObj match request with VObj props => props | _ => [] end)
      with request in Hem.
    unfold or_else in Hem. cbn [truthy] in Hem.
    assert (Hn : String.eqb (_handshakeTopic (this w0)) "" = false).
    { unfold nonempty in Hht. now apply negb_true_iff in Hht. }
    rewrite Hn in Hem. cbn [negb] in Hem.
    assert (Hq : _queue (this w1) = q) by (rewrite Hthis1; reflexivity).
    destruct (_socket (this w)).
    - destruct Hem as [He1 He2]. rewrite He1, Hse. split; [reflexivity|].
      rewrite <- Hq, He2. exact Hqu.
    - destruct Hem as [He1 He2]. split; [|now rewrite He2].
      rewrite <- Hq, He1, Hqu. reflexivity. }
  split; [now rewrite Hsth, Hee', Hee, Hhi', Hhi|].
  split.
  { intros Hs. rewrite Hsth. apply slot_stored. now rewrite Hfst, Hst1, Hst. }
  apply createSession_pending_returns; assumption.
Qed.


Lemma _handleSessionResponse_approved (fuel : nat) (sessionParams chainId accounts : Value)
    (errorMsg : string) (w : World) :
  let c := approved_into chainId accounts (this w) in
  let was := _connected (this w) in
  emitters_ok (this w) ->
  approves sessionParams chainId accounts ->
  _handleSessionResponse E (S fuel) sessionParams errorMsg w =
  (Ret tt,
   stored E (filled E (log (calls (listeners (approval_name was) (this w))
                              (approval_event was c))
                         (with_this c w)))).
Proof.
  intros c was Hok (approved & Ha & Ht & Hch & Hacc). subst c was.
  unfold _handleSessionResponse, _handleSessionResponse_with.
  rewrite Ha. cbn [lift]. unfold bind at 1. unfold ret at 1. rewrite Ht.
  unfold bind at 1. unfold read at 1, gets at 1.
  unfold approved_into, approval_name, approval_event.
  destruct (_connected (this w)) eqn:Hc; cbn [negb];
    rewrite Hch, Hacc;
    cbv [bind read gets upd modify ret lift when set_chainId set_accounts get_chainId
         get_accounts get_peerId get_peerMeta];
    destruct (truthy chainId), (truthy accounts); cbn [this with_this];
    (rewrite _triggerEvents_internal; [ | exact Hok | reflexivity | discriminate ]);
    rewrite _setStorageSession_eq; reflexivity.
Qed.

Lemma approved_into_fields (chainId accounts : Value) (c : Connector) :
  let c' := approved_into chainId accounts c in
  _connected c' = true
  /\ _chainId c' = or_else chainId (_chainId c)
  /\ _accounts c' = or_else accounts (_accounts c)
  /\ _peerId c' = _peerId c /\ _peerMeta c' = _peerMeta c
  /\ _queue c' = _queue c /\ _socket c' = _socket c
  /\ _key c' = _key c /\ _eventEmitters c' = _eventEmitters c.
Proof.
  unfold approved_into, or_else.
  destruct (_connected c) eqn:Hc, (truthy chainId), (truthy accounts); cbn; auto 10.
Qed.

Lemma approval_lands (obs : list Obs) (chainId accounts : Value) (w : World) :
  let w' := stored E (filled E (log obs (with_this (approved_into chainId accounts (this w)) w))) in
  connected w' = true
  /\ _chainId (this w') = or_else chainId (_chainId (this w))
  /\ _accounts (this w') = or_else accounts (_accounts (this w))
  /\ _key (this w') = _key (this w)
  /\ _eventEmitters (this w') = _eventEmitters (this w)
  /\ console w' = console w ++ obs
  /\ sent w' = sent w
  /\ _queue (this w') = _queue (this w)
  /\ (storage w <> None -> slot w' = Some (stringify_string E (snapshot E (this w')))).
Proof.
  intros w'. subst w'.
  set (w1 := log obs (with_this (approved_into chainId accounts (this w)) w)).
  destruct (filled_same w1) as (Hsame & Hfst & Hfse & Hfco & _).
  destruct (stored_same (filled E w1)) as (Hsth & Hsse & Hsco & _).
  destruct Hsame as (_ & _ & Hk & _ & _ & _ & _ & _ & Hac & Hci & _ & Hqu & Hee & Hcn).
  destruct (approved_into_fields chainId accounts (this w))
    as (Hc' & Hci' & Hac' & _ & _ & Hqu' & _ & Hk' & Hee').
  unfold connected. rewrite Hsth, Hcn, Hci, Hac, Hk, Hee, Hqu, Hsco, Hfco, Hsse, Hfse.
  unfold w1. cbn [this log with_console with_this console sent].
  repeat (split; [assumption || reflexivity|]).
  intros Hst. apply slot_stored. fold w1. rewrite Hfst. exact Hst.
Qed.

(** X17.  The wallet's approval reaches the dapp.  When the response to
    the session request comes in with [approved] truthy, the connector
    turns connected, takes the chain and the accounts of the response
    where they are truthy, tells the [connect] listeners, writes the
    session to the slot and sends nothing. *)
Theorem session_response_connects (fuel : nat) (id response result chainId accounts : Value)
    (errorMsg : string) (w : World) :
  let c := approved_into chainId accounts (this w) in
  connected w = false ->
  emitters_ok (this w) ->
  registered ("response:" +:+ ToString id) (this w)
  = [{| event := "response:" +:+ ToString id; callback := CbSessionResponse errorMsg |}] ->
  answers response id result ->
  approves result chainId accounts ->
  exists w',
    _triggerEvents E (S (S fuel)) response w = (Ret tt, w')
    /\ connected w' = true
    /\ _chainId (this w') = or_else chainId (_chainId (this w))
    /\ _accounts (this w') = or_else accounts (_accounts (this w))
    /\ console w' = console w ++ calls (listeners "connect" (this w)) (approval_event false c)
    /\ sent w' = sent w
    /\ _queue (this w') = _queue (this w)
    /\ (storage w <> None -> slot w' = Some (stringify_string E (snapshot E (this w')))).
Proof.
  intros c Hc Hok Hreg (Hm & Hr & Hid & Hres) Happ. unfold connected in Hc.
  pose proof (_handleSessionResponse_approved fuel result chainId accounts errorMsg w
                Hok Happ) as Hh.
  cbv zeta in Hh. rewrite Hc in Hh. cbn [approval_name] in Hh. fold c in Hh.
  eexists. split.
  - unfold _triggerEvents. remember (invoke E (S (S fuel))) as run_cb eqn:Hrun.
    unfold _triggerEvents_with, isRpcRequest, isRpcResponse.
    cbv [bind read gets ret lift]. rewrite Hm, Hr, Hid. cbn [truthy].
    assert (Hn : String.eqb ("response:" +:+ ToString id) "" = false) by reflexivity.
    rewrite Hn. cbn [negb strict_eq_string].
    unfold registered in Hreg. rewrite Hreg.
    cbn [forEach callback]. subst run_cb. unfold bind.
    change (invoke E (S (S fuel)) (CbSessionResponse errorMsg) response)
      with (result <- lift (get_prop response "result") ;;
            _handleSessionResponse E (S fuel) result errorMsg)%conn.
    rewrite Hres. cbn [lift]. unfold bind, ret. rewrite Hh. reflexivity.
  - destruct (approval_lands (calls (listeners "connect" (this w)) (approval_event false c))
                chainId accounts w)
      as (H1 & H2 & H3 & _ & _ & H6 & H7 & H8 & H9).
    fold c in H1, H2, H3, H6, H7, H8, H9. auto 10.
Qed.

(** X18.  The peer moves the session.  When a request
    [wc_sessionUpdate] with [approved] truthy comes in on a connected
    session, the connector takes the chain and the accounts of the request
    where they are truthy, tells the [session_update] listeners, writes
    the session to the slot and stays connected. *)
Theorem session_update_applies (fuel : nat) (payload sessionParams chainId accounts : Value)
    (w : World) :
  let c := approved_into chainId accounts (this w) in
  connected w = true ->
  emitters_ok (this w) ->
  registered "wc_sessionUpdate" (this w) = [sessionUpdate_listener] ->
  update_request payload sessionParams ->
  approves sessionParams chainId accounts ->
  exists w',
    _triggerEvents E (S (S fuel)) payload w = (Ret tt, w')
    /\ connected w' = true
    /\ _chainId (this w') = or_else chainId (_chainId (this w))
    /\ _accounts (this w') = or_else accounts (_accounts (this w))
    /\ console w' = console w ++ calls (listeners "session_update" (this w))
                                   (approval_event true c)
    /\ sent w' = sent w
    /\ _queue (this w') = _queue (this w)
    /\ (storage w <> None -> slot w' = Some (stringify_string E (snapshot E (this w')))).
Proof.
  intros c Hc Hok Hreg (Hm & Hname & params & Hparams & Hfirst) Happ.
  unfold connected in Hc.
  pose proof (_handleSessionResponse_approved fuel sessionParams chainId accounts
                "Session disconnected" w Hok Happ) as Hh.
  cbv zeta in Hh. rewrite Hc in Hh. cbn [approval_name] in Hh. fold c in Hh.
  eexists. split.
  - unfold _triggerEvents. remember (invoke E (S (S fuel))) as run_cb eqn:Hrun.
    unfold _triggerEvents_with, isRpcRequest.
    cbv [bind read gets ret lift]. rewrite Hm, Hname. cbn [truthy String.eqb Ascii.eqb
      Bool.eqb negb strict_eq_string].
    unfold registered in Hreg. rewrite Hreg.
    cbn [forEach callback sessionUpdate_listener]. subst run_cb. unfold bind.
    rewrite invoke_sessionUpdate. rewrite Hparams. cbn [lift]. unfold bind at 1, ret at 1.
    rewrite Hfirst. cbn [lift]. unfold bind at 1, ret at 1. rewrite Hh. reflexivity.
  - destruct (approval_lands (calls (listeners "session_update" (this w))
                                (approval_event true c))
                chainId accounts w)
      as (H1 & H2 & H3 & _ & _ & H6 & H7 & H8 & H9).
    fold c in H1, H2, H3, H6, H7, H8, H9. auto 10.
Qed.


Lemma message_of_eq (sessionError : Value) (w : World) :
  message_of sessionError w = (Ret (message_in sessionError), w).
Proof.
  unfold message_of, message_in, prop_of.
  destruct sessionError; try reflexivity; simpl;
    match goal with
    | |- (if ?b then _ else _) _ = _ => destruct b; reflexivity
    end.
Qed.

Lemma erased_same (w : World) :
  this (erased w) = this w /\ sent (erased w) = sent w
  /\ console (erased w) = console w /\ slot (erased w) = None.
Proof.
  unfold erased, slot. destruct (storage w) as [items|] eqn:Hs; simpl; rewrite ?Hs;
    repeat split; try reflexivity. apply lookup_delete_eq.
Qed.

Lemma rejectSession_eq (fuel : nat) (sessionError : Value) (w : World) :
  let message := message_in sessionError in
  let result := VObj [("approved", VBool false); ("chainId", VNull);
                      ("accounts", VNull); ("message", message)] in
  let response := VObj [("id", _handshakeId (this w)); ("jsonrpc", VStr "2.0");
                        ("result", result)] in
  let w1 := emit E (socketMessage (_peerId (this w)) "pub"
                      (stringify_value E (sealed response w)))
                 (noted response w) in
  let w2 := with_this (put_connected false (this w1)) w1 in
  _connected (this w) = false ->
  emitters_ok (this w) ->
  rejectSession E (S fuel) sessionError w =
  (Ret tt,
   erased (log (calls (listeners "disconnect" (this w))
                  (internalEvent "disconnect" (VObj [("message", message)])))
             w2)).
Proof.
  intros message result response w1 w2 Hc Hok.
  destruct (emit_this (socketMessage (_peerId (this w)) "pub"
                         (stringify_value E (sealed response w)))
                      (noted response w)) as [q Hq].
  fold w1 in Hq. rewrite this_noted in Hq.
  assert (Ht : _triggerEvents E (S fuel)
                 (internalEvent "disconnect" (VObj [("message", message)])) w2
               = (Ret tt, log (calls (listeners "disconnect" (this w))
                                 (internalEvent "disconnect" (VObj [("message", message)])))
                            w2)).
  { rewrite (_triggerEvents_internal fuel "disconnect" _ w2); try reflexivity.
    - unfold w2. cbn [this with_this]. rewrite Hq. reflexivity.
    - unfold w2. cbn [this with_this]. rewrite Hq. exact Hok.
    - discriminate. }
  unfold rejectSession.
  unfold bind at 1. unfold read at 1, gets at 1. rewrite Hc. cbv beta iota.
  rewrite (bind_Ret _ _ _ _ _ (message_of_eq sessionError w)).
  fold message. cbv [bind read gets upd modify ret get_handshakeId].
  unfold detach at 1. rewrite _sendResponse_eq.
  change (emit E _ _) with w1. cbv beta iota.
  change (with_this (put_connected false (this w1)) w1) with w2.
  rewrite Ht. reflexivity.
Qed.

(** X19.  The wallet declines.  On a connector that is not connected,
    [rejectSession] sends one response to the peer under the id of the
    handshake with [approved: false] and the message of its argument,
    tells the [disconnect] listeners that message, and leaves the session
    not connected and the slot empty. *)
Theorem rejectSession_declines (fuel : nat) (sessionError : Value) (w : World) :
  let message := message_in sessionError in
  let result := VObj [("approved", VBool false); ("chainId", VNull);
                      ("accounts", VNull); ("message", message)] in
  let response := VObj [("id", _handshakeId (this w)); ("jsonrpc", VStr "2.0");
                        ("result", result)] in
  connected w = false ->
  emitters_ok (this w) ->
  exists w',
    rejectSession E (S fuel) sessionError w = (Ret tt, w')
    /\ ended w'
    /\ emitted E w w'
         [socketMessage (_peerId (this w)) "pub" (stringify_value E (sealed response w))]
    /\ console w' = console (noted response w)
                    ++ calls (listeners "disconnect" (this w))
                         (internalEvent "disconnect" (VObj [("message", message)])).
Proof.
  intros message result response Hc Hok. unfold connected in Hc.
  pose proof (rejectSession_eq fuel sessionError w Hc Hok) as Hrun.
  cbv zeta in Hrun. fold message result response in Hrun.
  set (frame := socketMessage (_peerId (this w)) "pub"
                  (stringify_value E (sealed response w))) in *.
  set (w1 := emit E frame (noted response w)) in Hrun.
  set (w2 := with_this (put_connected false (this w1)) w1) in Hrun.
  set (w3 := log _ w2) in Hrun.
  destruct (erased_same w3) as (Heth & Hese & Heco & Hesl).
  exists (erased w3). split; [exact Hrun|].
  split; [split; [unfold connected; rewrite Heth; reflexivity | exact Hesl]|].
  split.
  - unfold emitted. rewrite Heth, Hese.
    unfold w3, w2. cbn [this log with_console with_this sent].
    unfold w1, emit. rewrite this_noted, sent_noted.
    destruct (_socket (this w)); cbn; rewrite ?this_noted, ?sent_noted; auto.
  - rewrite Heco. unfold w3, w2. cbn [console log with_console with_this].
    destruct (emit_same frame (noted response w)) as (_ & Hco & _).
    fold w1 in Hco. rewrite Hco. reflexivity.
Qed.

Lemma _handleSessionResponse_declined (fuel : nat) (sessionParams message : Value)
    (errorMsg : string) (w : World) :
  let said := or_else message (VStr errorMsg) in
  emitters_ok (this w) ->
  declines sessionParams message ->
  _handleSessionResponse E (S fuel) sessionParams errorMsg w =
  (Ret tt,
   erased (log (calls (listeners "disconnect" (this w))
                  (internalEvent "disconnect" (VObj [("message", said)]))
                ++ [OConsoleError said])
             (with_this (put_connected false (this w)) w))).
Proof.
  intros said Hok (approved & Ha & Ht & Hm).
  unfold _handleSessionResponse, _handleSessionResponse_with.
  rewrite Ha. cbn [lift]. unfold bind at 1. unfold ret at 1. rewrite Ht.
  unfold bind at 1. unfold upd at 1, modify at 1. rewrite Hm. cbn [lift].
  unfold bind at 1. unfold ret at 1. fold said.
  rewrite (bind_Ret _ _ _ _ _
             (_triggerEvents_internal fuel "disconnect" _
                (with_this (put_connected false (this w)) w) Hok eq_refl
                ltac:(discriminate))).
  unfold bind at 1. unfold observe at 1, modify at 1.
  unfold _removeStorageSession, modify, erased. cbn [this with_this storage log with_console
    console]. rewrite <- app_assoc. reflexivity.
Qed.

(** X20.  The wallet's refusal reaches the dapp.  When the response to the
    session request comes in with [approved] falsy, the connector is left
    not connected, the [disconnect] listeners and [console.error] are told
    the message of the response, or the message of the listener when the
    response has none, the slot is emptied and nothing is sent. *)
Theorem session_response_declined (fuel : nat) (id response result message : Value)
    (errorMsg : string) (w : World) :
  let said := or_else message (VStr errorMsg) in
  emitters_ok (this w) ->
  registered ("response:" +:+ ToString id) (this w)
  = [{| event := "response:" +:+ ToString id; callback := CbSessionResponse errorMsg |}] ->
  answers response id result ->
  declines result message ->
  exists w',
    _triggerEvents E (S (S fuel)) response w = (Ret tt, w')
    /\ ended w'
    /\ console w' = console w
                    ++ calls (listeners "disconnect" (this w))
                         (internalEvent "disconnect" (VObj [("message", said)]))
                    ++ [OConsoleError said]
    /\ sent w' = sent w
    /\ _queue (this w') = _queue (this w).
Proof.
  intros said Hok Hreg (Hm & Hr & Hid & Hres) Hdec.
  pose proof (_handleSessionResponse_declined fuel result message errorMsg w Hok Hdec) as Hh.
  cbv zeta in Hh. fold said in Hh.
  eexists. split.
  - unfold _triggerEvents. remember (invoke E (S (S fuel))) as run_cb eqn:Hrun.
    unfold _triggerEvents_with, isRpcRequest, isRpcResponse.
    cbv [bind read gets ret lift]. rewrite Hm, Hr, Hid. cbn [truthy].
    assert (Hn : String.eqb ("response:" +:+ ToString id) "" = false) by reflexivity.
    rewrite Hn. cbn [negb strict_eq_string].
    unfold registered in Hreg. rewrite Hreg.
    cbn [forEach callback]. subst run_cb. unfold bind.
    change (invoke E (S (S fuel)) (CbSessionResponse errorMsg) response)
      with (result <- lift (get_prop response "result") ;;
            _handleSessionResponse E (S fuel) result errorMsg)%conn.
    rewrite Hres. cbn [lift]. unfold bind, ret. rewrite Hh. reflexivity.
  - match goal with |- ended (erased ?w3) /\ _ => destruct (erased_same w3) as (Heth & Hese & Heco & Hesl) end.
    split; [split; [unfold connected; rewrite Heth; reflexivity | exact Hesl]|].
    rewrite Heco, Hese, Heth. cbn [console log with_console with_this sent this]. auto.
Qed.


(** *** The exchange of keys, on the side that starts it *)

(** [_exchangeKey] up to the sending of the request. *)
Lemma _exchangeKey_prefix (w : World) :
  exists w0 request,
    _exchangeKey E w =
    (p <- _sendCallRequest E (VObj request) ;;
     modify (fun w => with_promises (await_with p KSwapKey (promises w)) w))%conn w0
    /\ get_prop (VObj request) "id" = inr (next_id E w)
    /\ _nextKey (this w0) = option_map (fun lib => generateKey lib (entropy w)) (cryptoLib (this w))
    /\ _key (this w0) = _key (this w)
    /\ cryptoLib (this w0) = cryptoLib (this w)
    /\ _eventEmitters (this w0) = _eventEmitters (this w)
    /\ promises w0 = promises w
    /\ storage w0 = storage w
    /\ _socket (this w0) = _socket (this w)
    /\ _queue (this w0) = _queue (this w)
    /\ _peerId (this w0) = _peerId (this w)
    /\ sent w0 = sent w
    /\ exists obs, console w0 = console w ++ obs.
Proof.
  unfold _exchangeKey, _generateKey, get_clientId, get_clientMeta, get_nextKey,
    _formatRequest, next_id.
  cbv [bind read gets upd modify ret fresh observe].
  destruct (cryptoLib (this w)) as [lib|] eqn:Hl;
    destruct (nonempty (_clientId (this w))) eqn:Hcl; fields; rewrite ?Hcl; fields;
    destruct (truthy (_clientMeta (this w))) eqn:Hm; fields;
    cbn [spread fold_left set_prop fst snd String.eqb Ascii.eqb Bool.eqb];
    match goal with
    | |- context [_sendCallRequest E (VObj ?request) ?w0] => exists w0, request
    end;
    (split; [unfold bind; reflexivity|]); fields; rewrite ?Hl;
    repeat split;
    first [ reflexivity | eexists; reflexivity | exists []; symmetry; apply app_nil_r ].
Qed.

Lemma await_last (ps : list Promise) (k : Continuation) :
  await_with (length ps) k (ps ++ [{| settled := Pending; awaiting := KReturn |}])
  = ps ++ [{| settled := Pending; awaiting := k |}].
Proof.
  unfold await_with. rewrite list_lookup_middle by reflexivity.
  cbn [settled]. replace (length ps) with (length ps + 0) by lia.
  rewrite insert_app_r. reflexivity.
Qed.

Lemma settle_last (ps : list Promise) (k : Continuation) (st : PromiseState) :
  settle (length ps) st (ps ++ [{| settled := Pending; awaiting := k |}])
  = ps ++ [{| settled := st; awaiting := k |}].
Proof.
  unfold settle. rewrite list_lookup_middle by reflexivity.
  cbn [awaiting]. replace (length ps) with (length ps + 0) by lia.
  rewrite insert_app_r. reflexivity.
Qed.

(** X21.  The exchange of keys, on the side that starts it.
    [_exchangeKey] stages a fresh key and asks the peer to take it; the
    key in use stays until the peer answers.  When the response with the
    id of the request comes in with a truthy result, the staged key
    becomes the key in use and nothing is staged any more; with a falsy
    result the promise is rejected, the key in use stays and the staged
    key stays staged. *)
Theorem exchange_completes_on_answer (fuel : nat) (lib : ICryptoLib)
    (response result : Value) (w : World) :
  let id := next_id E w in
  let staged := generateKey lib (entropy w) in
  cryptoLib (this w) = Some lib ->
  registered ("response:" +:+ ToString id) (this w) = [] ->
  answers response id result ->
  exists w1 w2,
    _exchangeKey E w = (Ret tt, w1)
    /\ _key (this w1) = _key (this w)
    /\ _nextKey (this w1) = Some staged
    /\ _triggerEvents E (S fuel) response w1 = (Ret tt, w2)
    /\ (truthy result = true ->
        _key (this w2) = Some staged /\ _nextKey (this w2) = None)
    /\ (truthy result = false ->
        _key (this w2) = _key (this w) /\ _nextKey (this w2) = Some staged
        /\ console w2 = console w1
                        ++ [OUnhandled (JsError "Invalid JSON RPC response format received")]).
Proof.
  intros id staged Hlib Hnone (Hm & Hr & Hid & Hres).
  destruct (_exchangeKey_prefix w)
    as (w0 & request & Hrun & Hrid & Hnk & Hk & Hl & Hee & Hpr & Hst & _).
  fold id in Hrid. rewrite Hlib in Hnk. cbn [option_map] in Hnk. fold staged in Hnk.
  destruct (_sendCallRequest_spec request id w0 Hrid)
    as (wa & payload & Hsend & Hpa & Hea & _ & _ & Hka & _ & Hna & _).
  rewrite (bind_Ret _ _ _ _ _ Hsend) in Hrun. unfold modify in Hrun.
  rewrite Hpa, await_last in Hrun.
  set (p := length (promises w0)) in *.
  set (w1 := with_promises (promises w0 ++ [{| settled := Pending; awaiting := KSwapKey |}]) wa)
    in *.
  assert (Hnka : _nextKey (this wa) = Some staged) by (now rewrite Hna).
  set (w2 := with_promises (promises w0 ++ [{| settled := outcome_of result;
                                                awaiting := KSwapKey |}]) wa).
  assert (Htrig : _triggerEvents E (S fuel) response w1 =
                  invoke E (S fuel) (CbCallResponse p) response w1).
  { unfold _triggerEvents. remember (invoke E (S fuel)) as run_cb eqn:Hrun_cb.
    unfold _triggerEvents_with, isRpcRequest, isRpcResponse.
    cbv [bind read gets ret lift]. rewrite Hm, Hr, Hid. cbn [truthy].
    assert (Hn : String.eqb ("response:" +:+ ToString id) "" = false) by reflexivity.
    rewrite Hn. cbn [negb strict_eq_string].
    unfold registered in Hnone. cbn [this w1 with_promises]. rewrite Hea, Hee.
    erewrite filter_none_app; [ | exact Hnone | reflexivity ].
    cbn [forEach callback].
    unfold bind, ret.
    destruct (run_cb (CbCallResponse p) response w1) as [[[]| |] ?]; reflexivity. }
  assert (Hcall : invoke E (S fuel) (CbCallResponse p) response w1 =
                  (if truthy result then _swapKey E w2
                   else (Ret tt, log [OUnhandled (JsError "Invalid JSON RPC response format received")] w2))).
  { cbn [invoke]. rewrite Hres. cbn [lift]. unfold bind at 1. unfold ret at 1.
    unfold w2, outcome_of.
    destruct (truthy result); unfold resolve, reject; cbv [bind gets modify ret observe];
      unfold w1, p; cbn [promises with_promises];
      rewrite list_lookup_middle by reflexivity; cbv beta iota;
      cbn [promises with_promises]; rewrite settle_last; reflexivity. }
  assert (Hk1 : _key (this w1) = _key (this w)) by (cbn; now rewrite Hka, Hk).
  destruct (truthy result) eqn:Htr.
  - destruct (_swapKey_spec w2) as (w3 & Hswap & Hk3 & Hnk3 & _).
    exists w1, w3. split; [exact Hrun|]. split; [exact Hk1|]. split; [exact Hnka|].
    split; [rewrite Htrig, Hcall; exact Hswap|].
    split; [|discriminate]. intros _. split; [rewrite Hk3; exact Hnka | exact Hnk3].
  - eexists w1, _. split; [exact Hrun|]. split; [exact Hk1|]. split; [exact Hnka|].
    split; [rewrite Htrig, Hcall; reflexivity|].
    split; [discriminate|]. intros _. auto.
Qed.


Lemma listeners_app_other (name : string) (c c' : Connector) (e : IEventEmitter) (q : list Value) :
  c' = put_eventEmitters (_eventEmitters c ++ [e]) (put_queue q c) ->
  String.eqb (event e) name = false ->
  String.eqb (event e) "call_request" = false ->
  listeners name c' = listeners name c.
Proof.
  intros -> H1 H2. unfold listeners. cbn [_eventEmitters put_eventEmitters put_queue].
  rewrite !List.filter_app. cbn [List.filter]. rewrite H1, H2, !app_nil_r. reflexivity.
Qed.

Lemma response_not (s : string) :
  String.eqb ("response:" +:+ s) "session_update" = false
  /\ String.eqb ("response:" +:+ s) "call_request" = false.
Proof. split; reflexivity. Qed.

(** X22.  The wallet changes chain or accounts.  On a connected session
    [updateSession] takes chain and accounts from its argument, sends the
    peer one request [wc_sessionUpdate] that carries them with
    [approved: true], waits for the response under the id of the request,
    tells the [session_update] listeners, writes the session to the slot
    and stays connected. *)
Theorem updateSession_announces (fuel : nat) (sessionStatus chainId accounts : Value)
    (w : World) :
  let sessionParams := VObj [("approved", VBool true); ("chainId", chainId);
                             ("accounts", accounts); ("message", VNull)] in
  let request := VObj [("id", VNum (payloadId E (entropy w))); ("jsonrpc", VStr "2.0");
                       ("method", VStr "wc_sessionUpdate");
                       ("params", VArr [sessionParams])] in
  let update := internalEvent "session_update"
                  (VObj [("chainId", chainId); ("accounts", accounts)]) in
  connected w = true ->
  emitters_ok (this w) ->
  get_prop sessionStatus "chainId" = inr chainId ->
  get_prop sessionStatus "accounts" = inr accounts ->
  exists w',
    updateSession E (S fuel) sessionStatus w = (Ret tt, w')
    /\ connected w' = true
    /\ _chainId (this w') = chainId
    /\ _accounts (this w') = accounts
    /\ emitted E w w'
         [socketMessage (_peerId (this w)) "pub" (stringify_value E (sealed request w))]
    /\ _eventEmitters (this w') =
       _eventEmitters (this w) ++
       [{| event := "response:" +:+ ToString (VNum (payloadId E (entropy w)));
           callback := CbSessionResponse "Session update rejected" |}]
    /\ console w' = console (noted request w)
                    ++ calls (listeners "session_update" (this w)) update
    /\ (storage w <> None -> slot w' = Some (stringify_string E (snapshot E (this w')))).
Proof.
  intros sessionParams request update Hc Hok Hch Hacc. unfold connected in Hc.
  set (c0 := put_accounts accounts (put_chainId chainId (this w))).
  set (w0 := with_entropy (S (entropy w)) (with_this c0 (with_this (put_chainId chainId (this w)) w))).
  destruct (_sendSessionRequest_spec
              [("id", VNum (payloadId E (entropy w))); ("jsonrpc", VStr "2.0");
               ("method", VStr "wc_sessionUpdate"); ("params", VArr [sessionParams])]
              (VNum (payloadId E (entropy w))) "Session update rejected" VUndefined w0 eq_refl)
    as (w1 & q & Hsend & Hthis1 & Hem & Hst1 & _ & Hco1).
  fold request in Hsend, Hem.
  cbn [this w0 with_this with_entropy] in Hthis1.
  pose proof (response_not (ToString (VNum (payloadId E (entropy w))))) as [Hn1 Hn2].
  assert (Hlis : listeners "session_update" (this w1) = listeners "session_update" (this w)).
  { rewrite (listeners_app_other "session_update" c0 (this w1) _ q Hthis1 Hn1 Hn2).
    reflexivity. }
  assert (Hok1 : emitters_ok (this w1)).
  { unfold emitters_ok. rewrite Hthis1. cbn [_eventEmitters put_eventEmitters].
    apply Forall_app. split; [exact Hok|]. constructor; [|constructor].
    apply well_placed_session_response. }
  assert (Hrun : updateSession E (S fuel) sessionStatus w =
                 (Ret tt, stored E (filled E (log (calls (listeners "session_update" (this w))
                                                     update) w1)))).
  { unfold updateSession.
    cbv [bind read gets upd modify ret set_chainId set_accounts get_chainId get_accounts
         _formatRequest fresh].
    rewrite Hc, Hch, Hacc. cbn [negb lift ret]. fields.
    cbn [spread fold_left set_prop fst snd String.eqb Ascii.eqb Bool.eqb].
    fold sessionParams. fold request.
    change (with_entropy _ _) with w0. rewrite Hsend.
    rewrite Hthis1. fields. fold update.
    rewrite (_triggerEvents_internal fuel "session_update" _ w1 Hok1 eq_refl
               ltac:(discriminate)).
    rewrite Hlis. rewrite _setStorageSession_eq. reflexivity. }
  set (w3 := log (calls (listeners "session_update" (this w)) update) w1) in *.
  destruct (filled_same w3) as (Hsame & Hfst & Hfse & Hfco & _).
  destruct (stored_same (filled E w3)) as (Hsth & Hsse & Hsco & _).
  destruct Hsame as (_ & _ & _ & _ & _ & _ & _ & _ & Hac & Hci & _ & Hqu & Hee & Hcn).
  assert (Hthis3 : this w3 = this w1) by reflexivity.
  exists (stored E (filled E w3)). split; [exact Hrun|].
  split; [unfold connected; rewrite Hsth, Hcn, Hthis3, Hthis1; exact Hc|].
  split; [rewrite Hsth, Hci, Hthis3, Hthis1; reflexivity|].
  split; [rewrite Hsth, Hac, Hthis3, Hthis1; reflexivity|].
  split.
  { unfold emitted in *. rewrite Hsth, Hqu, Hsse, Hfse, Hthis3.
    change (sent w3) with (sent w1).
    change (_socket (this w0)) with (_socket (this w)) in Hem.
    change (sent w0) with (sent w) in Hem.
    change (_queue (this w0)) with (_queue (this w)) in Hem.
    change (_peerId (this w0)) with (_peerId (this w)) in Hem.
    change (spread _ request) with
      (match request with VObj props => props | _ => [] end) in Hem.
    change (VObj match request with VObj props => props | _ => [] end)
      with request in Hem.
    rewrite (sealed_ext request w0 w) in Hem by reflexivity.
    exact Hem. }
  split; [rewrite Hsth, Hee, Hthis3, Hthis1; reflexivity|].
  split.
  { rewrite Hsco, Hfco. unfold w3. cbn [console log with_console].
    f_equal. rewrite Hco1. unfold noted, w0, c0. fields.
    destruct (cryptoLib (this w)), (_key (this w)); reflexivity. }
  intros Hs. rewrite Hsth. apply slot_stored. rewrite Hfst.
  change (storage w3) with (storage w1). rewrite Hst1. exact Hs.
Qed.


(** *** The session in storage *)

Lemma as_session_snapshot (c : Connector) :
  as_session (snapshot E c) = session_of E c.
Proof. reflexivity. Qed.

(** X23.  The session survives in storage.  What [_setStorageSession]
    writes, [_getStorageSession] reads back as the session of the
    connector, field by field, provided [JSON.parse] gives back what
    [JSON.stringify] was given; after [_removeStorageSession] it finds
    nothing. *)
Theorem stored_session_read_back (w : World) :
  let c := this (filled E w) in
  let text := stringify_string E (snapshot E c) in
  storage w <> None ->
  text <> "" ->
  JSON_parse E text = Some (snapshot E c) ->
  exists w1 w2,
    _setStorageSession E w = (Ret (snapshot E c), w1)
    /\ this w1 = c
    /\ _getStorageSession E w1 = (Ret (Some (session_of E c)), w1)
    /\ _removeStorageSession w1 = (Ret tt, w2)
    /\ _getStorageSession E w2 = (Ret None, w2).
Proof.
  intros c text Hst Hne Hparse.
  destruct (filled_same w) as (_ & Hfst & _).
  destruct (stored_same (filled E w)) as (Hsth & _).
  assert (Hslot : slot (stored E (filled E w)) = Some text).
  { apply slot_stored. now rewrite Hfst. }
  exists (stored E (filled E w)), (erased (stored E (filled E w))).
  split; [apply _setStorageSession_eq|]. split; [exact Hsth|].
  split; [|split; [reflexivity|]].
  - unfold _getStorageSession. cbv [bind gets]. unfold slot in Hslot. rewrite Hslot.
    rewrite (nonempty_true _ Hne). unfold parse. rewrite Hparse.
    cbv [ret isWalletConnectSession]. reflexivity.
  - destruct (erased_same (stored E (filled E w))) as (_ & _ & _ & Hnone).
    unfold _getStorageSession. cbv [bind gets]. unfold slot in Hnone. rewrite Hnone.
    reflexivity.
Qed.

Lemma kept_refl (w : World) : kept w w.
Proof. unfold kept. auto 15. Qed.

Lemma kept_trans (a b c : World) : kept a b -> kept b c -> kept a c.
Proof.
  unfold kept.
  intros (H1 & H2 & H3 & H4 & H5 & H6 & H7 & H8 & H9 & H10 & H11)
         (G1 & G2 & G3 & G4 & G5 & G6 & G7 & G8 & G9 & G10 & G11).
  repeat split; try congruence.
  intros Hn. rewrite G6; [now apply H6 | rewrite (H6 Hn); exact Hn].
Qed.

Lemma kept_log (w : World) (obs : list Obs) : kept w (log obs w).
Proof. unfold kept. cbn. auto 15. Qed.

Lemma kept_modify_around (f : World -> World) :
  (forall w, this (f w) = this w /\ storage (f w) = storage w) ->
  keeps kept (modify f).
Proof.
  intros Hf w. simpl. destruct (Hf w) as [Ht Hs]. unfold kept. rewrite Ht, Hs. auto 15.
Qed.

Lemma kept_upd (f : Connector -> Connector) :
  (forall c, _connected (f c) = _connected c /\ _accounts (f c) = _accounts c
             /\ _chainId (f c) = _chainId c /\ _bridge (f c) = _bridge c
             /\ _key (f c) = _key c /\ _clientId (f c) = _clientId c
             /\ _peerId (f c) = _peerId c /\ _peerMeta (f c) = _peerMeta c
             /\ _handshakeId (f c) = _handshakeId c
             /\ _handshakeTopic (f c) = _handshakeTopic c) ->
  keeps kept (upd f).
Proof.
  intros Hf w. simpl.
  destruct (Hf (this w)) as (H1 & H2 & H3 & H4 & H5 & H6 & H7 & H8 & H9 & H10).
  unfold kept. cbn [this with_this storage]. auto 15.
Qed.

Lemma kept_fresh : keeps kept fresh.
Proof. intros w. unfold kept. cbn. auto 15. Qed.

Lemma kept_new_promise : keeps kept new_promise.
Proof. intros w. unfold kept. cbn. auto 15. Qed.

Lemma kept_get_clientId : keeps kept (get_clientId E).
Proof.
  intros w. unfold get_clientId. cbv [bind read gets fresh upd modify ret].
  destruct (nonempty (_clientId (this w))) eqn:Hc; cbn.
  - apply kept_refl.
  - unfold kept. cbn. rewrite Hc. repeat split; try reflexivity. discriminate.
Qed.

Ltac kept_step :=
  match goal with
  | |- keeps _ (let _ := _ in _) => cbv zeta
  | |- keeps _ (bind _ _) => apply (keeps_bind _ kept_trans); [ | intros ]
  | |- keeps _ (ret _) => apply (keeps_ret _ kept_refl)
  | |- keeps _ (throw _) => apply (keeps_throw _ kept_refl)
  | |- keeps _ (lift _) => apply (keeps_lift _ kept_refl)
  | |- keeps _ (gets _) => apply (keeps_gets _ kept_refl)
  | |- keeps _ (read _) => apply (keeps_read _ kept_refl)
  | |- keeps _ (observe _) => apply (keeps_observe _ kept_log)
  | |- keeps _ (when _ _) => apply (keeps_when _ kept_refl)
  | |- keeps _ (detach _) => apply (keeps_detach _ kept_trans kept_log)
  | |- keeps _ (forEach _ _) =>
      apply (keeps_forEach _ kept_refl kept_trans); intros
  | |- keeps _ fresh => apply kept_fresh
  | |- keeps _ new_promise => apply kept_new_promise
  | |- keeps _ (get_clientId _) => apply kept_get_clientId
  | |- keeps _ (upd _) =>
      apply kept_upd; let c := fresh "c" in intros c; cbn; auto 15
  | |- keeps _ (modify _) =>
      apply kept_modify_around;
      let w := fresh "w" in
      intros w; split; reflexivity
  | |- keeps _ (if ?b then _ else _) => destruct b
  | |- keeps _ (match ?x with _ => _ end) => destruct x
  | |- keeps _ _ => solve [auto with kept]
  end.

Ltac kept_tac := repeat kept_step.

Create HintDb kept.

Lemma kept__generateKey : keeps kept _generateKey.
Proof. unfold _generateKey. kept_tac. Qed.
#[local] Hint Resolve kept__generateKey : kept.

Lemma kept_get_clientMeta : keeps kept (get_clientMeta E).
Proof. unfold get_clientMeta. kept_tac. Qed.
#[local] Hint Resolve kept_get_clientMeta : kept.

Lemma kept_get_nextKey : keeps kept (get_nextKey E).
Proof. unfold get_nextKey. kept_tac. Qed.
#[local] Hint Resolve kept_get_nextKey : kept.

Lemma kept__formatRequest (request : Value) : keeps kept (_formatRequest E request).
Proof. unfold _formatRequest. kept_tac. Qed.
#[local] Hint Resolve kept__formatRequest : kept.

Lemma kept__encrypt (data : Value) : keeps kept (_encrypt data).
Proof. unfold _encrypt. kept_tac. Qed.
#[local] Hint Resolve kept__encrypt : kept.

Lemma kept__socketSend (frame : Value) : keeps kept (_socketSend E frame).
Proof. unfold _socketSend. kept_tac. Qed.
#[local] Hint Resolve kept__socketSend : kept.

Lemma kept__setToQueue (frame : Value) : keeps kept (_setToQueue frame).
Proof. unfold _setToQueue. kept_tac. Qed.
#[local] Hint Resolve kept__setToQueue : kept.

Lemma kept__sendRequest (request _topic : Value) : keeps kept (_sendRequest E request _topic).
Proof. unfold _sendRequest, get_peerId. kept_tac. Qed.
#[local] Hint Resolve kept__sendRequest : kept.

Lemma kept_on_ (name : string) (cb : Callback) : keeps kept (on_ name cb).
Proof. unfold on_. kept_tac. Qed.
#[local] Hint Resolve kept_on_ : kept.

Lemma kept__sendCallRequest (request : Value) : keeps kept (_sendCallRequest E request).
Proof. unfold _sendCallRequest, _subscribeToCallResponse. kept_tac. Qed.
#[local] Hint Resolve kept__sendCallRequest : kept.

Lemma kept__exchangeKey : keeps kept (_exchangeKey E).
Proof. unfold _exchangeKey. kept_tac. Qed.
#[local] Hint Resolve kept__exchangeKey : kept.

Lemma kept__socketOpen : keeps kept _socketOpen.
Proof. unfold _socketOpen, get_bridge. kept_tac. Qed.
#[local] Hint Resolve kept__socketOpen : kept.

Lemma _exchangeKey_returns (w : World) : exists w1, _exchangeKey E w = (Ret tt, w1).
Proof.
  destruct (_exchangeKey_prefix w) as (w0 & request & Hrun & Hrid & _).
  destruct (_sendCallRequest_spec request _ w0 Hrid) as (wa & payload & Hsend & _).
  rewrite (bind_Ret _ _ _ _ _ Hsend) in Hrun. eexists. exact Hrun.
Qed.

Lemma constructor_rest_spec (w : World) :
  exists w', constructor_rest E w = (Ret tt, w') /\ kept w w'.
Proof.
  assert (Hk : keeps kept (constructor_rest E)).
  { unfold constructor_rest, get_handshakeId, _subscribeToSessionResponse,
      _subscribeToInternalEvents. kept_tac. }
  assert (Hrun : exists w', constructor_rest E w = (Ret tt, w')).
  { destruct (_exchangeKey_returns w) as [w1 H1].
    unfold constructor_rest.
    unfold bind at 1. unfold detach at 1. rewrite H1. cbv beta iota.
    unfold get_handshakeId, _subscribeToSessionResponse, _subscribeToInternalEvents,
      on_, _socketOpen, get_bridge.
    cbv [bind read gets upd modify ret when].
    destruct (truthy (_handshakeId (this w1))); cbv beta iota; eexists; reflexivity. }
  destruct Hrun as [w' Hrun]. exists w'. split; [exact Hrun|].
  specialize (Hk w). rewrite Hrun in Hk. exact Hk.
Qed.

Lemma empty_eq (s : string) : nonempty s = false -> s = "".
Proof. unfold nonempty. intros H. now apply negb_false_iff, String.eqb_eq in H. Qed.

Lemma constructor_stored (cryptoLib : option ICryptoLib) (bridge text : string)
    (json clientMeta : Value) (key : ArrayBuffer) (w : World) :
  let s := as_session json in
  let opts := {| IWalletConnectOptions.bridge := Some bridge;
                 IWalletConnectOptions.uri := None;
                 IWalletConnectOptions.session := None |} in
  nonempty bridge = true ->
  slot w = Some text ->
  text <> "" ->
  JSON_parse E text = Some json ->
  in_op "bridge" json = inr true ->
  nonempty (IWalletConnectSession.key s) = true ->
  convertHexToArrayBuffer E (VStr (IWalletConnectSession.key s)) = inr key ->
  exists w0,
    constructor E cryptoLib opts clientMeta w = constructor_rest E w0
    /\ _connected (this w0) = IWalletConnectSession.connected s
    /\ _accounts (this w0) = IWalletConnectSession.accounts s
    /\ _chainId (this w0) = IWalletConnectSession.chainId s
    /\ _bridge (this w0) = (if nonempty (IWalletConnectSession.bridge s)
                            then IWalletConnectSession.bridge s else bridge)
    /\ _key (this w0) = Some key
    /\ _clientId (this w0) = IWalletConnectSession.clientId s
    /\ _peerId (this w0) = or_else (IWalletConnectSession.peerId s) (VStr "")
    /\ _peerMeta (this w0) = IWalletConnectSession.peerMeta s
    /\ _handshakeId (this w0) = or_else (IWalletConnectSession.handshakeId s) (VNum 0)
    /\ _handshakeTopic (this w0) = IWalletConnectSession.handshakeTopic s
    /\ storage w0 = storage w.
Proof.
  intros s opts Hb Hslot Hne Hparse Hin Hk Hhex.
  unfold constructor, constructor_rest, opts.
  cbn [IWalletConnectOptions.bridge IWalletConnectOptions.uri IWalletConnectOptions.session
       truthy_string present default from_option id].
  rewrite Hb. cbn [negb andb when].
  unfold set_session, set_clientMeta, set_bridge, _getStorageSession, set_accounts,
    set_chainId, set_key, set_clientId, set_peerId, set_peerMeta, set_handshakeId,
    set_handshakeTopic, parse, isWalletConnectSession.
  rewrite Hb. cbn [negb]. unfold slot in Hslot.
  cbv [bind read gets upd modify ret when]. fields.
  destruct (truthy clientMeta); fields; rewrite Hslot; fields;
    rewrite (nonempty_true _ Hne), Hparse; fields; rewrite Hin; cbn [lift]; cbv [ret]; fields;
    fold s; rewrite Hk, Hhex; cbn [lift]; cbv [ret]; fields;
    unfold or_else;
    destruct (nonempty (IWalletConnectSession.bridge s)) eqn:H1; fields;
    destruct (nonempty (IWalletConnectSession.clientId s)) eqn:H2; fields;
    destruct (truthy (IWalletConnectSession.peerId s)) eqn:H3; fields;
    destruct (truthy (IWalletConnectSession.handshakeId s)) eqn:H4; fields;
    destruct (nonempty (IWalletConnectSession.handshakeTopic s)) eqn:H5; fields;
    match goal with
    | |- context [detach (_exchangeKey E) ?w0] => exists w0
    end;
    (split; [unfold bind; reflexivity|]); fields;
    repeat split; try reflexivity;
    symmetry; apply empty_eq; assumption.
Qed.



(** *** The wallet's side of the handshake *)

Lemma _parseUri_accepted (uri : string) (fields : string * string * string) (w : World) :
  acceptable E (protocol (this w)) (parseWalletConnectUri E uri) = Some fields ->
  _parseUri E uri w = (Ret fields, w).
Proof.
  unfold acceptable, _parseUri. cbv [bind read gets ret throw].
  destruct (String.eqb _ _); simpl; [|discriminate].
  destruct (nonempty (IParseURIResult.handshakeTopic _)); simpl; [|discriminate].
  destruct (nonempty (IParseURIResult.bridge _)); simpl; [|discriminate].
  destruct (decodeURIComponent E _); simpl; [|discriminate].
  destruct (nonempty (IParseURIResult.key _)); simpl; [|discriminate].
  now intros [= <-].
Qed.

Lemma acceptable_nonempty (p : string) (r : IParseURIResult.t) (topic bridge key : string) :
  acceptable E p r = Some (topic, bridge, key) ->
  nonempty topic = true /\ nonempty key = true.
Proof.
  unfold acceptable.
  destruct (String.eqb _ _); simpl; [|discriminate].
  destruct (nonempty (IParseURIResult.handshakeTopic _)) eqn:Ht; simpl; [|discriminate].
  destruct (nonempty (IParseURIResult.bridge _)); simpl; [|discriminate].
  destruct (decodeURIComponent E _); simpl; [|discriminate].
  destruct (nonempty (IParseURIResult.key _)) eqn:Hk; simpl; [|discriminate].
  intros [= <- <- <-]. auto.
Qed.

(** X25.  The wallet takes up a handshake.  Constructed with the URI of a
    handshake and nothing in storage, the connector has the topic, the
    bridge and the key of the URI, is pending and not connected, and has
    queued the subscription to the handshake topic; when its socket opens
    it subscribes to the handshake topic first and to its own fresh
    client id second, and has sent nothing else. *)
Theorem constructor_with_uri (cryptoLib : option ICryptoLib) (uri topic bridge key : string)
    (k : ArrayBuffer) (clientMeta : Value) (w : World) :
  let opts := {| IWalletConnectOptions.bridge := None;
                 IWalletConnectOptions.uri := Some uri;
                 IWalletConnectOptions.session := None |} in
  uri <> "" ->
  acceptable E "wc" (parseWalletConnectUri E uri) = Some (topic, bridge, key) ->
  convertHexToArrayBuffer E (VStr key) = inr k ->
  slot w = None ->
  exists w1 w2 socket,
    constructor E cryptoLib opts clientMeta w = (Ret tt, w1)
    /\ _handshakeTopic (this w1) = topic
    /\ _bridge (this w1) = bridge
    /\ _key (this w1) = Some k
    /\ connected w1 = false
    /\ pending w1 = true
    /\ _queue (this w1) = [socketMessage (VStr topic) "sub" (VStr "")]
    /\ websocket w1 = Some socket
    /\ sent w1 = sent w
    /\ socket_onopen E w1 = (Ret tt, w2)
    /\ _clientId (this w2) = uuid E (entropy w)
    /\ sent w2 = sent w ++ map (stringify_string E)
                             [socketMessage (VStr topic) "sub" (VStr "");
                              socketMessage (VStr (uuid E (entropy w))) "sub" (VStr "")].
Proof.
  intros opts Hu Hacc Hhex Hslot.
  destruct (acceptable_nonempty _ _ _ _ _ Hacc) as [Ht Hk].
  pose proof (nonempty_true _ Hu) as Hun.
  assert (Hrun : exists w1 socket,
             constructor E cryptoLib opts clientMeta w = (Ret tt, w1)
             /\ _handshakeTopic (this w1) = topic
             /\ _bridge (this w1) = bridge
             /\ _key (this w1) = Some k
             /\ _connected (this w1) = false
             /\ _queue (this w1) = [socketMessage (VStr topic) "sub" (VStr "")]
             /\ websocket w1 = Some socket
             /\ sent w1 = sent w
             /\ _clientId (this w1) = ""
             /\ entropy w1 = entropy w).
  { unfold constructor, opts.
    cbn [IWalletConnectOptions.bridge IWalletConnectOptions.uri IWalletConnectOptions.session
         truthy_string present default from_option id].
    rewrite Hun. cbn [negb andb when].
    unfold set_uri. rewrite Hun. cbn [negb].
    unfold set_clientMeta, _getStorageSession, get_handshakeId, _subscribeToInternalEvents,
      _subscribeToSessionRequest, get_handshakeTopic, _setToQueue, on_, _socketOpen,
      get_bridge, set_handshakeTopic, set_bridge, set_key.
    unfold slot in Hslot.
    unfold bind at 1. unfold modify at 1.
    assert (Hp : _parseUri E uri (with_this (new_Connector cryptoLib) w)
                 = (Ret (topic, bridge, key), with_this (new_Connector cryptoLib) w)).
    { apply _parseUri_accepted. exact Hacc. }
    destruct (truthy clientMeta); cbv [bind ret when]; rewrite Hp; cbv beta iota;
      rewrite Ht, Hk; cbn [negb];
      cbv [bind modify gets read upd ret]; rewrite Hhex; cbn [lift]; cbv [ret]; fields;
      (destruct (nonempty bridge) eqn:Hb; fields; rewrite Hslot; fields;
       unfold new_Connector; fields; cbn [truthy Z.eqb negb app]; fields;
       match goal with
       | |- exists w1 _, (Ret tt, ?W) = _ /\ _ => exists W
       end;
       eexists; (split; [reflexivity|]); fields;
       (split; [reflexivity|]);
       (split; [first [reflexivity | symmetry; apply empty_eq; exact Hb]|]);
       repeat (split; [reflexivity|]); reflexivity). }
  destruct Hrun as (w1 & socket & Hrun & H1 & H2 & H3 & H4 & H5 & H6 & H7 & H8 & H9).
  destruct (socket_onopen_spec w1 socket H6) as (w2 & Hopen & Hsent & Hcid & _).
  rewrite H8 in Hcid. change (nonempty "") with false in Hcid. cbv iota in Hcid.
  rewrite H9 in Hcid.
  exists w1, w2, socket. unfold connected, pending. rewrite H1.
  repeat (split; [first [assumption | reflexivity]|]).
  rewrite Hsent, H5, H7, Hcid. reflexivity.
Qed.


Lemma _exchangeKey_sends (w : World) :
  exists w1 payload obs,
    _exchangeKey E w = (Ret tt, w1)
    /\ kept w w1
    /\ _nextKey (this w1)
       = option_map (fun lib => generateKey lib (entropy w)) (cryptoLib (this w))
    /\ emitted E w w1 [socketMessage (_peerId (this w)) "pub" payload]
    /\ console w1 = console w ++ obs.
Proof.
  destruct (_exchangeKey_prefix w)
    as (w0 & request & Hrun & Hrid & Hnk & _ & _ & _ & _ & _ & Hso & Hqu & Hpi & Hse
        & obs0 & Hco0).
  destruct (_sendCallRequest_spec request _ w0 Hrid)
    as (wa & payload & Hsend & _ & _ & Hem & _ & _ & _ & Hna & _ & obs1 & Hco1).
  rewrite (bind_Ret _ _ _ _ _ Hsend) in Hrun. unfold modify in Hrun.
  pose proof (kept__exchangeKey w) as Hk. rewrite Hrun in Hk. cbn [snd] in Hk.
  eexists. exists payload, (obs0 ++ obs1). split; [exact Hrun|]. split; [exact Hk|].
  cbn [this with_promises console].
  split; [now rewrite Hna|]. split.
  - unfold emitted in *. cbn [this with_promises sent]. rewrite <- Hso, <- Hpi.
    rewrite Hqu, Hse in Hem. exact Hem.
  - rewrite Hco1, Hco0. now rewrite <- app_assoc.
Qed.



(** *** A frame that is dispatched *)

(** X27.  A frame under one of the two topics of the connector whose
    payload opens under the key in use is handed, opened, to the
    listeners: receiving it is triggering the events of its plain payload,
    and nothing else. *)
Theorem opened_frame_dispatched (fuel : nat) (data : string)
    (frame topic payload envelope : Value) (w : World) :
  _clientId (this w) <> "" ->
  JSON_parse E data = Some frame ->
  get_prop frame "topic" = inr topic ->
  includes [_clientId (this w); _handshakeTopic (this w)] topic = true ->
  get_prop frame "payload" = inr payload ->
  JSON_parse E (ToString payload) = Some envelope ->
  truthy (unsealed envelope w) = true ->
  _socketReceive E fuel data w
  = _triggerEvents E fuel (unsealed envelope w) (heard envelope w).
Proof.
  intros Hc Hparse Htopic Hin Hpayload Henv Hopen.
  rewrite (_socketReceive_active fuel data frame topic payload w Hc Hparse Htopic Hin Hpayload).
  unfold parse. rewrite Henv. unfold bind at 1. unfold ret at 1.
  rewrite (bind_Ret _ _ _ _ _ (_decrypt_eq envelope w)). rewrite Hopen. reflexivity.
Qed.

(** *** The end of a session, on the side that ends it *)

Lemma response_not_disconnect (s : string) :
  String.eqb ("response:" +:+ s) "disconnect" = false.
Proof. reflexivity. Qed.

(** X28.  The session is ended from this side.  On a connected session
    [killSession] sends the peer one request [wc_sessionUpdate] with
    [approved: false] and the message of its argument, waits for the
    response under the id of the request, tells the [disconnect] listeners
    that message, and leaves the session not connected and the slot
    empty. *)
Theorem killSession_announces (fuel : nat) (sessionError : Value) (w : World) :
  let message := message_in sessionError in
  let sessionParams := VObj [("approved", VBool false); ("chainId", VNull);
                             ("accounts", VNull); ("message", message)] in
  let request := VObj [("id", VNum (payloadId E (entropy w))); ("jsonrpc", VStr "2.0");
                       ("method", VStr "wc_sessionUpdate");
                       ("params", VArr [sessionParams])] in
  connected w = true ->
  emitters_ok (this w) ->
  exists w',
    killSession E (S fuel) sessionError w = (Ret tt, w')
    /\ ended w'
    /\ emitted E w w'
         [socketMessage (_peerId (this w)) "pub" (stringify_value E (sealed request w))]
    /\ _eventEmitters (this w') =
       _eventEmitters (this w) ++
       [{| event := "response:" +:+ ToString (VNum (payloadId E (entropy w)));
           callback := CbSessionResponse "Session kill rejected" |}]
    /\ console w' = console (noted request w)
                    ++ calls (listeners "disconnect" (this w))
                         (internalEvent "disconnect" (VObj [("message", message)])).
Proof.
  intros message sessionParams request Hc Hok. unfold connected in Hc.
  set (w0 := with_entropy (S (entropy w)) w).
  destruct (_sendSessionRequest_spec
              [("id", VNum (payloadId E (entropy w))); ("jsonrpc", VStr "2.0");
               ("method", VStr "wc_sessionUpdate"); ("params", VArr [sessionParams])]
              (VNum (payloadId E (entropy w))) "Session kill rejected" VUndefined w0 eq_refl)
    as (w1 & q & Hsend & Hthis1 & Hem & Hst1 & _ & Hco1).
  fold request in Hsend, Hem, Hco1.
  cbn [this w0 with_this with_entropy] in Hthis1.
  set (w2 := with_this (put_connected false (this w1)) w1).
  pose proof (response_not (ToString (VNum (payloadId E (entropy w))))) as [_ Hn2].
  pose proof (response_not_disconnect (ToString (VNum (payloadId E (entropy w))))) as Hn1.
  assert (Hlis : listeners "disconnect" (this w2) = listeners "disconnect" (this w)).
  { unfold w2. cbn [this with_this].
    rewrite <- (listeners_app_other "disconnect" (this w) (this w1) _ q Hthis1 Hn1 Hn2).
    unfold listeners. reflexivity. }
  assert (Hok2 : emitters_ok (this w2)).
  { unfold emitters_ok, w2. cbn [this with_this]. rewrite Hthis1.
    cbn [_eventEmitters put_eventEmitters put_connected].
    apply Forall_app. split; [exact Hok|]. constructor; [|constructor].
    apply well_placed_session_response. }
  set (bye := internalEvent "disconnect" (VObj [("message", message)])).
  assert (Hrun : killSession E (S fuel) sessionError w =
                 (Ret tt, erased (log (calls (listeners "disconnect" (this w)) bye) w2))).
  { unfold killSession.
    unfold bind at 1. unfold read at 1, gets at 1. rewrite Hc. cbn [negb].
    rewrite (bind_Ret _ _ _ _ _ (message_of_eq sessionError w)). fold message.
    cbv [bind read gets upd modify ret _formatRequest fresh].
    cbn [spread fold_left set_prop fst snd String.eqb Ascii.eqb Bool.eqb].
    fold sessionParams. fold request.
    change (with_entropy (S (entropy w)) w) with w0. rewrite Hsend.
    change (with_this (put_connected false (this w1)) w1) with w2.
    rewrite (_triggerEvents_internal fuel "disconnect" _ w2 Hok2 eq_refl
               ltac:(discriminate)).
    rewrite Hlis. reflexivity. }
  set (w3 := log (calls (listeners "disconnect" (this w)) bye) w2) in *.
  destruct (erased_same w3) as (Heth & Hese & Heco & Hesl).
  exists (erased w3). split; [exact Hrun|].
  split; [split; [unfold connected; rewrite Heth; reflexivity | exact Hesl]|].
  split.
  { unfold emitted in *. rewrite Heth, Hese.
    change (sent w3) with (sent w1). change (_queue (this w3)) with (_queue (this w1)).
    change (_socket (this w0)) with (_socket (this w)) in Hem.
    change (sent w0) with (sent w) in Hem.
    change (_queue (this w0)) with (_queue (this w)) in Hem.
    change (_peerId (this w0)) with (_peerId (this w)) in Hem.
    change (spread _ request) with
      (match request with VObj props => props | _ => [] end) in Hem.
    change (VObj match request with VObj props => props | _ => [] end)
      with request in Hem.
    rewrite (sealed_ext request w0 w) in Hem by reflexivity.
    exact Hem. }
  split; [rewrite Heth; unfold w3, w2; cbn [this log with_console with_this];
          rewrite Hthis1; reflexivity|].
  rewrite Heco. unfold w3, w2. cbn [console log with_console with_this].
  f_equal. rewrite Hco1. unfold noted, w0. fields.
  destruct (cryptoLib (this w)), (_key (this w)); reflexivity.
Qed.


(** A check of [emitters_ok] that computes. *)
Lemma emitters_ok_check (c : Connector) :
  forallb well_placed (_eventEmitters c) = true -> emitters_ok c.
Proof.
  unfold emitters_ok. intros H. rewrite forallb_forall in H.
  apply List.Forall_forall. exact H.
Qed.

End Properties.

(** ** The properties on the scenarios *)

Import Concrete Scenario Session.

Ltac run_scenario := vm_compute; reflexivity.

(** C1, counterexample.  A connector made for a bridge has no key yet;
    [approveRequest] on it still appends a frame to the pre-connect queue,
    with the payload ["null"]. *)
Lemma frame_emitted_without_key :
  _key (this made) = None
  /\ _queue (this made) = []
  /\ _queue (this (snd (approveRequest env answer made)))
     = [socketMessage (VStr "") "pub" (VStr "null")].
Proof. split; [|split]; run_scenario. Qed.

(** C1 on the connector just made, which has no key. *)
Lemma encrypt_without_key_witness :
  _key (this made) = None /\ _encrypt answer made = (Ret VNull, made).
Proof.
  assert (Hkey : _key (this made) = None) by run_scenario.
  split; [exact Hkey|].
  exact (proj1 (encrypt_without_key_still_emits env answer answer VUndefined answer made
                  Hkey)).
Defined.


(** C3, counterexample.  With a key staged by a first [_exchangeKey], a
    second one returns all the same and stages another key: two exchanges
    are in flight, each awaiting its response. *)
Lemma exchangeKey_while_staged :
  _nextKey (this staged) = Some (generateKey lib 0)
  /\ fst (_exchangeKey env staged) = Ret tt
  /\ _nextKey (this (snd (_exchangeKey env staged))) = Some (generateKey lib 4)
  /\ generateKey lib 4 <> generateKey lib 0
  /\ promises (snd (_exchangeKey env staged))
     = [{| settled := Pending; awaiting := KSwapKey |};
        {| settled := Pending; awaiting := KSwapKey |}].
Proof. split; [|split; [|split; [|split]]]; try run_scenario. discriminate. Qed.

(** C4, counterexample.  The session request was queued before the socket
    opened; on opening it is sent first and the [sub] frame for
    [clientId] second. *)
Lemma sub_frame_not_first :
  let sub := stringify_string env (socketMessage (VStr "uuid-1") "sub" (VStr "")) in
  length (_queue (this requested)) = 1
  /\ hd "" (sent opened) <> sub
  /\ sent opened = map (stringify_string env) (_queue (this requested)) ++ [sub].
Proof.
  intros sub. split; [run_scenario|]. split; [|run_scenario].
  apply String.eqb_neq. run_scenario.
Qed.

(** C4 on the connector whose session request waits in the queue. *)
Lemma socket_onopen_witness :
  websocket requested = Some {| url := "wss://b.example" |}
  /\ exists w', socket_onopen env requested = (Ret tt, w') /\ _queue (this w') = [].
Proof.
  assert (Hws : websocket requested = Some {| url := "wss://b.example" |}) by run_scenario.
  split; [exact Hws|].
  destruct (socket_onopen_sends_queue_then_sub env requested {| url := "wss://b.example" |}
              Hws) as (w' & Hrun & _ & _ & Hq).
  exists w'. split; [exact Hrun | exact Hq].
Defined.

(** The session above is a world the connector can be in. *)
Lemma in_session_reachable : reachable env 2 in_session.
Proof.
  exists (Some lib), opts, VUndefined, browser, handshake.
  split; [run_scenario | reflexivity].
Defined.

(** C5, counterexample.  After [createSession] and the wallet's approval
    the connector is connected and, its handshake topic being still there,
    pending. *)
Lemma pending_and_connected :
  reachable env 2 in_session
  /\ pending in_session = true
  /\ connected in_session = true.
Proof.
  split; [exact in_session_reachable|]. split; run_scenario.
Qed.

(** C5 on the connector that has asked for a session: it stays pending
    when the socket opens and the session is killed. *)
Lemma pending_persists_witness :
  pending requested = true
  /\ pending (run env 2 [OpSocketOpen; OpKillSession VNull] requested) = true.
Proof.
  assert (Hp : pending requested = true) by run_scenario.
  split; [exact Hp|].
  exact (proj1 (pending_persists env 2 [OpSocketOpen; OpKillSession VNull] requested Hp)).
Defined.


(** C7, at the failing input.  A call is pending under the id 1005.  An
    answer that carries [error] and no [result] is not taken for a
    response: the listener under [response:1005] is not called, the
    promise stays pending, and the payload goes to the listener of
    ["call_request"].  An answer whose result is [false] rejects the
    promise; one whose result is a non-empty string resolves it. *)
Theorem error_response_leaves_call_pending :
  promises calling = [{| settled := Pending; awaiting := KReturn |}]
  /\ promises (receive error_response calling) = promises calling
  /\ In (OCallback 9 error_response) (console (receive error_response calling))
  /\ promises (receive false_response calling)
     = [{| settled := Rejected (JsError "Invalid JSON RPC response format received");
           awaiting := KReturn |}]
  /\ promises (receive result_response calling)
     = [{| settled := Resolved (VStr "0xdeadbeef"); awaiting := KReturn |}].
Proof.
  split; [run_scenario|]. split; [run_scenario|].
  split; [|split; run_scenario].
  vm_compute. do 5 right. now left.
Qed.

(** C8 on the session above: killed by the dApp, or ended by the peer. *)
Lemma session_end_witness :
  2 <= 2
  /\ reachable env 2 in_session
  /\ connected in_session = true
  /\ negative_update goodbye
  /\ (exists w', killSession env 2 (VObj [("message", VStr "bye")]) in_session = (Ret tt, w')
                 /\ connected w' = false /\ slot w' = None)
  /\ (exists w', _triggerEvents env 2 goodbye in_session = (Ret tt, w')
                 /\ connected w' = false /\ slot w' = None).
Proof.
  assert (Hcon : connected in_session = true) by run_scenario.
  assert (Hneg : negative_update goodbye).
  { split; [reflexivity|]. split; [reflexivity|].
    eexists. eexists. eexists. repeat split; reflexivity. }
  destruct (session_end_erases env 2 (VObj [("message", VStr "bye")]) goodbye in_session
              (le_n 2) in_session_reachable) as [Hkill Hupdate].
  split; [exact (le_n 2)|]. split; [exact in_session_reachable|]. split; [exact Hcon|].
  split; [exact Hneg|]. split; [exact (Hkill Hcon) | exact (Hupdate Hneg)].
Defined.

(** C9 on the session above and a frame for another topic. *)
Lemma foreign_topic_witness :
  let frame := socketMessage (VStr "elsewhere") "pub"
                 (stringify_value env (encrypt lib goodbye session_key)) in
  _clientId (this in_session) <> ""
  /\ JSON_parse env (frame_to "elsewhere" session_key goodbye) = Some frame
  /\ includes [_clientId (this in_session); _handshakeTopic (this in_session)]
       (VStr "elsewhere") = false
  /\ _socketReceive env 2 (frame_to "elsewhere" session_key goodbye) in_session
     = (Ret tt, in_session).
Proof.
  intros frame.
  assert (Hc : _clientId (this in_session) <> "").
  { apply String.eqb_neq. run_scenario. }
  assert (Hp : JSON_parse env (frame_to "elsewhere" session_key goodbye) = Some frame)
    by run_scenario.
  assert (Hi : includes [_clientId (this in_session); _handshakeTopic (this in_session)]
                 (VStr "elsewhere") = false) by run_scenario.
  split; [exact Hc|]. split; [exact Hp|]. split; [exact Hi|].
  exact (foreign_topic_dropped env 2 _ frame (VStr "elsewhere") in_session Hc Hp eq_refl Hi).
Defined.

(** ** The further properties on the cases *)

Import Cases.

Ltac placed := apply emitters_ok_check; vm_compute; reflexivity.

(** The calls refused on the session above. *)
Lemma connected_refuses_witness :
  connected in_session = true
  /\ createSession env in_session
     = (Throw (JsError "Session currently connected"), in_session).
Proof.
  assert (Hc : connected in_session = true) by run_scenario.
  split; [exact Hc|].
  exact (proj1 (connected_refuses env 2 status in_session Hc)).
Defined.

(** The calls refused on the connector just made. *)
Lemma disconnected_refuses_witness :
  connected made = false
  /\ sendTransaction env tx made
     = (Throw (JsError "Session currently disconnected"), made).
Proof.
  assert (Hc : connected made = false) by run_scenario.
  split; [exact Hc|].
  exact (proj1 (proj2 (proj2 (disconnected_refuses env 2 tx made Hc)))).
Defined.

(** The constructor without options, in the browser. *)
Lemma constructor_requires_input_witness :
  fst (constructor env (Some lib)
         {| IWalletConnectOptions.bridge := None;
            IWalletConnectOptions.uri := Some "";
            IWalletConnectOptions.session := None |} VNull browser)
  = Throw (JsError "Missing one of two required parameters: bridge / uri / session").
Proof.
  rewrite (constructor_requires_input env (Some lib)
             {| IWalletConnectOptions.bridge := None;
                IWalletConnectOptions.uri := Some "";
                IWalletConnectOptions.session := None |} VNull browser
             eq_refl eq_refl eq_refl).
  reflexivity.
Defined.

(** The constructor with a bridge, in the browser. *)
Lemma constructor_with_bridge_witness :
  nonempty "https://b.example" = true
  /\ slot browser = None
  /\ exists w', constructor env (Some lib) opts VUndefined browser = (Ret tt, w')
                /\ pending w' = false.
Proof.
  assert (Hb : nonempty "https://b.example" = true) by reflexivity.
  assert (Hs : slot browser = None) by run_scenario.
  split; [exact Hb|]. split; [exact Hs|].
  destruct (constructor_with_bridge env (Some lib) "https://b.example" VUndefined browser
              Hb Hs) as (w' & socket & Hrun & _ & _ & Hp & _).
  exists w'. split; [exact Hrun | exact Hp].
Defined.

(** The three kinds of bridge address. *)
Lemma socketOpen_url_witness :
  websocket (snd (_socketOpen (with_this (put_bridge "https://b.example" (this made)) made)))
  = Some {| url := "wss://b.example" |}
  /\ websocket (snd (_socketOpen (with_this (put_bridge "http://b.example" (this made)) made)))
     = Some {| url := "ws://b.example" |}
  /\ websocket (snd (_socketOpen (with_this (put_bridge "wss://b.example" (this made)) made)))
     = Some {| url := "wss://b.example" |}.
Proof.
  exact (socketOpen_url "://b.example" "://b.example" "wss://b.example" made
           eq_refl eq_refl).
Defined.

(** Two payloads sent before the socket of the connector just made opens. *)
Lemma queued_frames_witness :
  _socket (this made) = None
  /\ websocket made = Some {| url := "wss://b.example" |}
  /\ exists w1 w2 (frames : list Value),
       forEach (send env) [SendRequest sign_request VUndefined; SendResponse call_answer] made
       = (Ret tt, w1)
       /\ length frames = 2
       /\ socket_onopen env w1 = (Ret tt, w2)
       /\ _queue (this w2) = [].
Proof.
  assert (Hs : _socket (this made) = None) by run_scenario.
  assert (Hw : websocket made = Some {| url := "wss://b.example" |}) by run_scenario.
  split; [exact Hs|]. split; [exact Hw|].
  destruct (queued_frames_delivered_on_open env
              [SendRequest sign_request VUndefined; SendResponse call_answer] made _ Hs Hw)
    as (w1 & w2 & frames & H1 & H2 & _ & _ & H5 & _ & H7).
  exists w1, w2, frames. split; [exact H1|]. split; [exact H2|]. split; [exact H5 | exact H7].
Defined.

(** A frame for the session above that is sealed under another key. *)
Lemma undecryptable_frame_witness :
  _socketReceive env 2 sealed_otherwise in_session
  = (Ret tt, heard (envelope_of call_answer next_key) in_session).
Proof.
  assert (Hc : _clientId (this in_session) <> "").
  { apply String.eqb_neq. run_scenario. }
  assert (Hp : JSON_parse env sealed_otherwise
               = Some (socketMessage (VStr "uuid-1") "pub"
                         (stringify_value env (envelope_of call_answer next_key))))
    by run_scenario.
  assert (Hi : includes [_clientId (this in_session); _handshakeTopic (this in_session)]
                 (VStr "uuid-1") = true) by run_scenario.
  assert (He : JSON_parse env (ToString (stringify_value env (envelope_of call_answer next_key)))
               = Some (envelope_of call_answer next_key)) by run_scenario.
  assert (Hu : truthy (unsealed (envelope_of call_answer next_key) in_session) = false)
    by run_scenario.
  exact (proj1 (undecryptable_frame_dropped env 2 sealed_otherwise _ (VStr "uuid-1") _
                  (envelope_of call_answer next_key) in_session Hc Hp eq_refl Hi eq_refl
                  He Hu)).
Defined.

(** Three frames for the session above that are no frames. *)
Lemma malformed_frame_witness :
  _socketReceive env 2 "{" in_session = (Throw SyntaxError, in_session)
  /\ _socketReceive env 2 "null" in_session = (Throw TypeError, in_session)
  /\ _socketReceive env 2 garbled in_session = (Throw SyntaxError, in_session).
Proof.
  assert (Hc : _clientId (this in_session) <> "").
  { apply String.eqb_neq. run_scenario. }
  assert (Hj : JSON_parse env "{" = None) by run_scenario.
  assert (Hn : JSON_parse env "null" = Some VNull) by run_scenario.
  assert (Hp : JSON_parse env garbled
               = Some (socketMessage (VStr "uuid-1") "pub" (VStr "{"))) by run_scenario.
  assert (Hi : includes [_clientId (this in_session); _handshakeTopic (this in_session)]
                 (VStr "uuid-1") = true) by run_scenario.
  exact (malformed_frame_throws env 2 "{" "null" garbled _ (VStr "uuid-1") (VStr "{")
           in_session Hc Hj Hn Hp eq_refl Hi eq_refl Hj).
Defined.

(** The call of the session above is answered, and answered again. *)
Lemma settled_promise_witness :
  promises (receive result_response calling) !! 0
  = Some {| settled := Resolved (VStr "0xdeadbeef"); awaiting := KReturn |}
  /\ exists pr',
       promises (run env 2 [OpSocketMessage (frame_to "uuid-1" session_key false_response)]
                   (receive result_response calling)) !! 0 = Some pr'
       /\ settled pr' = Resolved (VStr "0xdeadbeef").
Proof.
  assert (Hp : promises (receive result_response calling) !! 0
               = Some {| settled := Resolved (VStr "0xdeadbeef"); awaiting := KReturn |})
    by run_scenario.
  split; [exact Hp|].
  apply (settled_promise_final env 2
           [OpSocketMessage (frame_to "uuid-1" session_key false_response)]
           (receive result_response calling) 0 _ Hp).
  simpl. discriminate.
Defined.

(** A request to sign reaches the listener for [call_request]. *)
Lemma request_reaches_listeners_witness :
  _triggerEvents env 2 sign_request calling
  = (Ret tt, log [OCallback 9 sign_request] calling).
Proof.
  assert (Hok : emitters_ok (this calling)) by placed.
  assert (Hne : "eth_sign" <> "") by discriminate.
  rewrite (request_reaches_listeners env 1 "eth_sign" sign_request calling Hok eq_refl Hne
             eq_refl eq_refl).
  assert (Hl : calls (listeners "eth_sign" (this calling)) sign_request
               = [OCallback 9 sign_request]) by run_scenario.
  rewrite Hl. reflexivity.
Defined.

(** An error response reaches the listener for [call_request]. *)
Lemma unclaimed_payload_witness :
  unclaimed error_response (this calling)
  /\ _triggerEvents env 2 error_response calling
     = (Ret tt, log (calls (call_request_listeners (this calling)) error_response) calling).
Proof.
  assert (Hok : emitters_ok (this calling)) by placed.
  assert (Hun : unclaimed error_response (this calling)).
  { split; [reflexivity|]. right. split; reflexivity. }
  split; [exact Hun|].
  exact (unclaimed_payload_reaches_call_request env 1 error_response calling Hok Hun).
Defined.

(** A transaction sent on the session above, and the wallet's answer. *)
Lemma call_round_trip_witness :
  connected in_session = true
  /\ answers call_answer (VNum 1005) (VStr "0xdeadbeef")
  /\ exists p w1 w2,
       sendTransaction env tx in_session = (Ret p, w1)
       /\ _triggerEvents env 2 call_answer w1 = (Ret tt, w2)
       /\ promises w2 !! p
          = Some {| settled := Resolved (VStr "0xdeadbeef"); awaiting := KReturn |}.
Proof.
  assert (Hc : connected in_session = true) by run_scenario.
  assert (Hr : registered ("response:" +:+ ToString (VNum (payloadId env (entropy in_session))))
                 (this in_session) = []) by run_scenario.
  assert (Hid : VNum (payloadId env (entropy in_session)) = VNum 1005) by run_scenario.
  assert (Ha : answers call_answer (VNum 1005) (VStr "0xdeadbeef")).
  { split; [reflexivity|]. split; [reflexivity|]. split; reflexivity. }
  split; [exact Hc|]. split; [exact Ha|].
  rewrite <- Hid in Ha.
  destruct (call_round_trip env 1 (SendTransaction tx) call_answer (VStr "0xdeadbeef")
              in_session Hc Hr Ha) as (p & w1 & w2 & payload & H1 & _ & _ & H4 & H5 & _).
  exists p, w1, w2. split; [exact H1|]. split; [exact H4 | exact H5].
Defined.

(** [approveSession] on the connector just made. *)
Lemma approveSession_witness :
  connected made = false
  /\ exists w', approveSession env 2 status made = (Ret tt, w')
                /\ connected w' = true
                /\ _chainId (this w') = VNum 5.
Proof.
  assert (Hc : connected made = false) by run_scenario.
  assert (Hok : emitters_ok (this made)) by placed.
  split; [exact Hc|].
  destruct (approveSession_connects env 1 status (VNum 5) (VArr [VStr "0xdef"]) made
              Hc Hok eq_refl eq_refl) as (w' & H1 & H2 & H3 & _).
  exists w'. split; [exact H1|]. split; [exact H2 | exact H3].
Defined.

Lemma uuid_named (n : nat) : uuid env n <> "".
Proof. intros H. vm_compute in H. discriminate. Qed.

Lemma payloadId_positive (n : nat) : payloadId env n <> 0%Z.
Proof. simpl. lia. Qed.

(** [createSession] on the connector just made. *)
Lemma createSession_witness :
  connected made = false
  /\ pending made = false
  /\ exists w', createSession env made = (Ret tt, w')
                /\ pending w' = true
                /\ _key (this w') = Some session_key.
Proof.
  assert (Hc : connected made = false) by run_scenario.
  assert (Hp : pending made = false) by run_scenario.
  assert (Hl : cryptoLib (this made) = Some lib) by run_scenario.
  assert (He : entropy made = 0) by run_scenario.
  split; [exact Hc|]. split; [exact Hp|].
  destruct (createSession_requests env made Hc Hp uuid_named payloadId_positive)
    as (w' & request & H1 & _ & H3 & H4 & _).
  exists w'. split; [exact H1|]. split; [exact H3|].
  rewrite H4, Hl, He. reflexivity.
Defined.

(** The wallet's approval reaches the connector that asked. *)
Lemma session_response_connects_witness :
  connected opened = false
  /\ exists w', _triggerEvents env 2 approval opened = (Ret tt, w')
                /\ connected w' = true
                /\ _accounts (this w') = VArr [VStr "0xabc"].
Proof.
  assert (Hc : connected opened = false) by run_scenario.
  assert (Hok : emitters_ok (this opened)) by placed.
  assert (Hr : registered ("response:" +:+ ToString (VNum 1002)) (this opened)
               = [{| event := "response:" +:+ ToString (VNum 1002);
                     callback := CbSessionResponse "Session update rejected" |}])
    by run_scenario.
  assert (Ha : answers approval (VNum 1002)
                 (VObj [("approved", VBool true); ("chainId", VNum 1);
                        ("accounts", VArr [VStr "0xabc"])])).
  { split; [reflexivity|]. split; [reflexivity|]. split; reflexivity. }
  assert (Hy : approves (VObj [("approved", VBool true); ("chainId", VNum 1);
                               ("accounts", VArr [VStr "0xabc"])])
                 (VNum 1) (VArr [VStr "0xabc"])).
  { exists (VBool true). split; [reflexivity|]. split; [reflexivity|]. split; reflexivity. }
  split; [exact Hc|].
  destruct (session_response_connects env 0 (VNum 1002) approval _ (VNum 1)
              (VArr [VStr "0xabc"]) "Session update rejected" opened Hc Hok Hr Ha Hy)
    as (w' & H1 & H2 & _ & H4 & _).
  exists w'. split; [exact H1|]. split; [exact H2 | exact H4].
Defined.

(** The wallet moves the session above to another chain. *)
Lemma session_update_witness :
  connected in_session = true
  /\ exists w', _triggerEvents env 2 move in_session = (Ret tt, w')
                /\ connected w' = true
                /\ _chainId (this w') = VNum 5.
Proof.
  assert (Hc : connected in_session = true) by run_scenario.
  assert (Hok : emitters_ok (this in_session)) by placed.
  assert (Hr : registered "wc_sessionUpdate" (this in_session) = [sessionUpdate_listener])
    by run_scenario.
  assert (Hu : update_request move
                 (VObj [("approved", VBool true); ("chainId", VNum 5);
                        ("accounts", VArr [VStr "0xdef"]); ("message", VNull)])).
  { split; [reflexivity|]. split; [reflexivity|].
    eexists. split; reflexivity. }
  assert (Hy : approves (VObj [("approved", VBool true); ("chainId", VNum 5);
                               ("accounts", VArr [VStr "0xdef"]); ("message", VNull)])
                 (VNum 5) (VArr [VStr "0xdef"])).
  { exists (VBool true). split; [reflexivity|]. split; [reflexivity|]. split; reflexivity. }
  split; [exact Hc|].
  destruct (session_update_applies env 0 move _ (VNum 5) (VArr [VStr "0xdef"]) in_session
              Hc Hok Hr Hu Hy) as (w' & H1 & H2 & H3 & _).
  exists w'. split; [exact H1|]. split; [exact H2 | exact H3].
Defined.

(** [rejectSession] on the connector just made. *)
Lemma rejectSession_witness :
  connected made = false
  /\ exists w', rejectSession env 2 (VObj [("message", VStr "no")]) made = (Ret tt, w')
                /\ ended w'.
Proof.
  assert (Hc : connected made = false) by run_scenario.
  assert (Hok : emitters_ok (this made)) by placed.
  split; [exact Hc|].
  destruct (rejectSession_declines env 1 (VObj [("message", VStr "no")]) made Hc Hok)
    as (w' & H1 & H2 & _).
  exists w'. split; [exact H1 | exact H2].
Defined.

(** The wallet's refusal reaches the connector that asked. *)
Lemma session_response_declined_witness :
  declines (VObj [("approved", VBool false); ("chainId", VNull);
                  ("accounts", VNull); ("message", VStr "no")]) (VStr "no")
  /\ exists w', _triggerEvents env 2 refusal opened = (Ret tt, w')
                /\ ended w'
                /\ console w' = console opened ++ [OConsoleError (VStr "no")].
Proof.
  assert (Hok : emitters_ok (this opened)) by placed.
  assert (Hr : registered ("response:" +:+ ToString (VNum 1002)) (this opened)
               = [{| event := "response:" +:+ ToString (VNum 1002);
                     callback := CbSessionResponse "Session update rejected" |}])
    by run_scenario.
  assert (Ha : answers refusal (VNum 1002)
                 (VObj [("approved", VBool false); ("chainId", VNull);
                        ("accounts", VNull); ("message", VStr "no")])).
  { split; [reflexivity|]. split; [reflexivity|]. split; reflexivity. }
  assert (Hd : declines (VObj [("approved", VBool false); ("chainId", VNull);
                               ("accounts", VNull); ("message", VStr "no")]) (VStr "no")).
  { exists (VBool false). split; [reflexivity|]. split; reflexivity. }
  split; [exact Hd|].
  destruct (session_response_declined env 0 (VNum 1002) refusal _ (VStr "no")
              "Session update rejected" opened Hok Hr Ha Hd)
    as (w' & H1 & H2 & H3 & _).
  exists w'. split; [exact H1|]. split; [exact H2|].
  rewrite H3.
  assert (Hl : calls (listeners "disconnect" (this opened))
                 (internalEvent "disconnect"
                    (VObj [("message", or_else (VStr "no") (VStr "Session update rejected"))]))
               = []) by run_scenario.
  rewrite Hl. reflexivity.
Defined.

(** The session above proposes a key and the peer takes it. *)
Lemma exchange_completes_witness :
  cryptoLib (this in_session) = Some lib
  /\ exists w1 w2,
       _exchangeKey env in_session = (Ret tt, w1)
       /\ _key (this w1) = Some session_key
       /\ _triggerEvents env 2 taken w1 = (Ret tt, w2)
       /\ _key (this w2) = Some (generateKey lib 5).
Proof.
  assert (Hl : cryptoLib (this in_session) = Some lib) by run_scenario.
  assert (Hid : next_id env in_session = VNum 1006) by run_scenario.
  assert (Hr : registered ("response:" +:+ ToString (next_id env in_session))
                 (this in_session) = []) by run_scenario.
  assert (Ha : answers taken (VNum 1006) (VBool true)).
  { split; [reflexivity|]. split; [reflexivity|]. split; reflexivity. }
  assert (Hk : _key (this in_session) = Some session_key) by run_scenario.
  assert (He : entropy in_session = 5) by run_scenario.
  split; [exact Hl|].
  rewrite <- Hid in Ha.
  destruct (exchange_completes_on_answer env 1 lib taken (VBool true) in_session Hl Hr Ha)
    as (w1 & w2 & H1 & H2 & _ & H4 & H5 & _).
  exists w1, w2. split; [exact H1|]. split; [now rewrite H2|]. split; [exact H4|].
  destruct (H5 eq_refl) as [H6 _]. rewrite H6, He. reflexivity.
Defined.

(** [updateSession] on the session above. *)
Lemma updateSession_witness :
  connected in_session = true
  /\ exists w', updateSession env 2 status in_session = (Ret tt, w')
                /\ _chainId (this w') = VNum 5
                /\ connected w' = true.
Proof.
  assert (Hc : connected in_session = true) by run_scenario.
  assert (Hok : emitters_ok (this in_session)) by placed.
  split; [exact Hc|].
  destruct (updateSession_announces env 1 status (VNum 5) (VArr [VStr "0xdef"]) in_session
              Hc Hok eq_refl eq_refl) as (w' & H1 & H2 & H3 & _).
  exists w'. split; [exact H1|]. split; [exact H3 | exact H2].
Defined.

(** The session above, written to storage and read back. *)
Lemma stored_session_witness :
  storage in_session <> None
  /\ exists session w1,
       _setStorageSession env in_session = (Ret session, w1)
       /\ _getStorageSession env w1 = (Ret (Some (as_session session)), w1).
Proof.
  assert (Hs : storage in_session <> None).
  { intros H. apply (f_equal present) in H. vm_compute in H. discriminate. }
  assert (Hn : stringify_string env (snapshot env (this (filled env in_session))) <> "").
  { apply String.eqb_neq. run_scenario. }
  assert (Hp : JSON_parse env (stringify_string env (snapshot env (this (filled env in_session))))
               = Some (snapshot env (this (filled env in_session)))) by run_scenario.
  split; [exact Hs|].
  destruct (stored_session_read_back env in_session Hs Hn Hp) as (w1 & w2 & H1 & _ & H3 & _).
  eexists. exists w1. split; [exact H1 | exact H3].
Defined.


(** The wallet's connector, made from the URI of the handshake. *)
Lemma constructor_with_uri_witness :
  acceptable env "wc" (parseWalletConnectUri wallet_uri)
  = Some ("uuid-3", "https://b.example", "11")
  /\ exists w1 w2,
       constructor env (Some lib) wallet_opts VUndefined browser = (Ret tt, w1)
       /\ pending w1 = true
       /\ socket_onopen env w1 = (Ret tt, w2)
       /\ length (sent w2) = 2.
Proof.
  assert (Hu : wallet_uri <> "") by discriminate.
  assert (Ha : acceptable env "wc" (parseWalletConnectUri wallet_uri)
               = Some ("uuid-3", "https://b.example", "11")) by run_scenario.
  assert (Hh : convertHexToArrayBuffer (VStr "11") = inr session_key) by run_scenario.
  assert (Hs : slot browser = None) by run_scenario.
  split; [exact Ha|].
  destruct (constructor_with_uri env (Some lib) wallet_uri "uuid-3" "https://b.example" "11"
              session_key VUndefined browser Hu Ha Hh Hs)
    as (w1 & w2 & socket & H1 & _ & _ & _ & _ & H6 & _ & _ & _ & H10 & _ & H12).
  exists w1, w2. split; [exact H1|]. split; [exact H6|]. split; [exact H10|].
  rewrite H12. reflexivity.
Defined.


(** The wallet's answer reaches the session that called. *)
Lemma opened_frame_witness :
  _socketReceive env 2 (frame_to "uuid-1" session_key result_response) calling
  = _triggerEvents env 2 result_response
      (heard (envelope_of result_response session_key) calling).
Proof.
  assert (Hc : _clientId (this calling) <> "").
  { apply String.eqb_neq. run_scenario. }
  assert (Hp : JSON_parse env (frame_to "uuid-1" session_key result_response)
               = Some (socketMessage (VStr "uuid-1") "pub"
                         (stringify_value env (envelope_of result_response session_key))))
    by run_scenario.
  assert (Hi : includes [_clientId (this calling); _handshakeTopic (this calling)]
                 (VStr "uuid-1") = true) by run_scenario.
  assert (He : JSON_parse env
                 (ToString (stringify_value env (envelope_of result_response session_key)))
               = Some (envelope_of result_response session_key)) by run_scenario.
  assert (Hu : unsealed (envelope_of result_response session_key) calling = result_response)
    by run_scenario.
  assert (Ht : truthy (unsealed (envelope_of result_response session_key) calling) = true).
  { rewrite Hu. reflexivity. }
  rewrite (opened_frame_dispatched env 2 _ _ (VStr "uuid-1") _
             (envelope_of result_response session_key) calling Hc Hp eq_refl Hi eq_refl
             He Ht).
  rewrite Hu. reflexivity.
Defined.

(** [killSession] on the session above. *)
Lemma killSession_witness :
  connected in_session = true
  /\ exists w', killSession env 2 (VObj [("message", VStr "bye")]) in_session = (Ret tt, w')
                /\ ended w'.
Proof.
  assert (Hc : connected in_session = true) by run_scenario.
  assert (Hok : emitters_ok (this in_session)) by placed.
  split; [exact Hc|].
  destruct (killSession_announces env 1 (VObj [("message", VStr "bye")]) in_session Hc Hok)
    as (w' & H1 & H2 & _).
  exists w'. split; [exact H1 | exact H2].
Defined.
